(** * avatar_plugin: the avatar-analysis pipeline and the meme catalog

    A shallow embedding of [models.py], [avatar_analyzer.py] and the
    [MemeManager] class of [plugin.py], followed by the properties the
    specification states about them.

    Python values are modelled as follows.
    - [str] is [string], the UTF-8 image of the Python string; [chars]
      gives its characters, and [lower], [strip] and [split] work on them
      as CPython does.
    - [bytes] is [list byte].
    - [None] is [None]; a function that may raise has an [outcome].
    - the collaborators outside the repository (identity service, HTTP,
      model registry, vision model, database faults, clock) are the fields of
      a [World]; every function of the pipeline reads them from there. *)

From Stdlib Require Import Floats.PrimFloat.
From Stdlib Require Import Strings.Byte.
From Stdlib Require Import Strings.Ascii.
From stdpp Require Import base option list strings gmap.
From Stdlib Require Import ZArith Lia.

(** ** Python built-ins used by the sources *)

(** *** The characters of a [str] *)

(** A byte that continues a character of the UTF-8 text. *)
Definition is_continuation (c : ascii) : bool :=
  let n := Ascii.N_of_ascii c in ((128 <=? n) && (n <? 192))%N.

(** The text starts with a continuation byte. *)
Definition continues (s : string) : bool :=
  match s with
  | EmptyString => false
  | String c _ => is_continuation c
  end.

(** The characters of a text, each with the bytes that continue it. *)
Fixpoint chars (s : string) : list string :=
  match s with
  | EmptyString => []
  | String c s' =>
      match chars s' with
      | [] => [String c EmptyString]
      | ch :: rest =>
          if continues ch then String c ch :: rest
          else String c EmptyString :: ch :: rest
      end
  end.

(** The number of bytes UTF-8 gives a code point. *)
Definition utf8_len (cp : N) : nat :=
  if (cp <? 0x80)%N then 1
  else if (cp <? 0x800)%N then 2
  else if (cp <? 0x10000)%N then 3
  else if (cp <? 0x110000)%N then 4
  else 0.

(** The six bits a continuation byte carries. *)
Definition six_bits (c : ascii) : N := (Ascii.N_of_ascii c - 128)%N.

(** [ord(ch)]: the code point of a character, [None] for bytes that are
    not the UTF-8 form of a code point. *)
Definition code_point (ch : string) : option N :=
  let shortest (n : nat) (cp : N) := if Nat.eqb (utf8_len cp) n then Some cp else None in
  let lead (lo hi : N) (c : ascii) :=
    ((lo <=? Ascii.N_of_ascii c) && (Ascii.N_of_ascii c <? hi))%N in
  match ch with
  | String c0 EmptyString => shortest 1 (Ascii.N_of_ascii c0)
  | String c0 (String c1 EmptyString) =>
      if lead 192%N 224%N c0 && is_continuation c1
      then shortest 2 ((Ascii.N_of_ascii c0 - 192) * 64 + six_bits c1)%N
      else None
  | String c0 (String c1 (String c2 EmptyString)) =>
      if lead 224%N 240%N c0 && is_continuation c1 && is_continuation c2
      then shortest 3 ((Ascii.N_of_ascii c0 - 224) * 4096 + six_bits c1 * 64 + six_bits c2)%N
      else None
  | String c0 (String c1 (String c2 (String c3 EmptyString))) =>
      if lead 240%N 248%N c0 && is_continuation c1 && is_continuation c2 && is_continuation c3
      then shortest 4 ((Ascii.N_of_ascii c0 - 240) * 262144 + six_bits c1 * 4096
                       + six_bits c2 * 64 + six_bits c3)%N
      else None
  | _ => None
  end.

(** [chr(cp)]: the character of a code point. *)
Definition chr (cp : N) : string :=
  let byte (n : N) (s : string) := String (Ascii.ascii_of_N n) s in
  if (cp <? 0x80)%N then byte cp EmptyString
  else if (cp <? 0x800)%N then
    byte (192 + cp / 64)%N (byte (128 + cp mod 64)%N EmptyString)
  else if (cp <? 0x10000)%N then
    byte (224 + cp / 4096)%N
      (byte (128 + (cp / 64) mod 64)%N (byte (128 + cp mod 64)%N EmptyString))
  else
    byte (240 + cp / 262144)%N
      (byte (128 + (cp / 4096) mod 64)%N
         (byte (128 + (cp / 64) mod 64)%N (byte (128 + cp mod 64)%N EmptyString))).

(** Membership in a list of ranges of code points. *)
Definition in_ranges (cp : N) (ranges : list (N * N)) : bool :=
  existsb (fun r => ((r.1 <=? cp) && (cp <=? r.2))%N) ranges.

(** *** White space

    The characters [str.isspace], [str.strip] and [str.split] take for
    white space. *)
Definition white_space : list (N * N) :=
  [(0x09, 0x0D); (0x1C, 0x20); (0x85, 0x85); (0xA0, 0xA0); (0x1680, 0x1680);
   (0x2000, 0x200A); (0x2028, 0x2029); (0x202F, 0x202F); (0x205F, 0x205F);
   (0x3000, 0x3000)]%N.

(** [ch.isspace()] for one character. *)
Definition isspace (ch : string) : bool :=
  match code_point ch with
  | Some cp => in_ranges cp white_space
  | None => false
  end.

Fixpoint lstrip_chars (l : list string) : list string :=
  match l with
  | [] => []
  | ch :: l' => if isspace ch then lstrip_chars l' else l
  end.

Definition rstrip_chars (l : list string) : list string := rev (lstrip_chars (rev l)).

(** [s.strip()] *)
Definition strip (s : string) : string :=
  String.concat "" (rstrip_chars (lstrip_chars (chars s))).

(** *** Lower case

    [str.lower] as CPython computes it, with the tables of Unicode 14.0:
    every character goes to its lower-case form, which has two characters
    for U+0130, and the capital sigma goes to the final or the medial small
    sigma by what stands around it. *)

(** The code points with a lower-case form of one code point: those of
    [lo..hi], every [step]-th, go to [target] and on. *)
Definition lower_table : list (N * N * N * N) :=
  [(0x41, 0x5A, 1, 0x61); (0xC0, 0xD6, 1, 0xE0); (0xD8, 0xDE, 1, 0xF8);
   (0x100, 0x12E, 2, 0x101); (0x132, 0x136, 2, 0x133); (0x139, 0x147, 2, 0x13A);
   (0x14A, 0x176, 2, 0x14B); (0x178, 0x178, 1, 0xFF); (0x179, 0x17D, 2, 0x17A);
   (0x181, 0x181, 1, 0x253); (0x182, 0x184, 2, 0x183); (0x186, 0x186, 1, 0x254);
   (0x187, 0x187, 1, 0x188); (0x189, 0x18A, 1, 0x256); (0x18B, 0x18B, 1, 0x18C);
   (0x18E, 0x18E, 1, 0x1DD); (0x18F, 0x18F, 1, 0x259); (0x190, 0x190, 1, 0x25B);
   (0x191, 0x191, 1, 0x192); (0x193, 0x193, 1, 0x260); (0x194, 0x194, 1, 0x263);
   (0x196, 0x196, 1, 0x269); (0x197, 0x197, 1, 0x268); (0x198, 0x198, 1, 0x199);
   (0x19C, 0x19C, 1, 0x26F); (0x19D, 0x19D, 1, 0x272); (0x19F, 0x19F, 1, 0x275);
   (0x1A0, 0x1A4, 2, 0x1A1); (0x1A6, 0x1A6, 1, 0x280); (0x1A7, 0x1A7, 1, 0x1A8);
   (0x1A9, 0x1A9, 1, 0x283); (0x1AC, 0x1AC, 1, 0x1AD); (0x1AE, 0x1AE, 1, 0x288);
   (0x1AF, 0x1AF, 1, 0x1B0); (0x1B1, 0x1B2, 1, 0x28A); (0x1B3, 0x1B5, 2, 0x1B4);
   (0x1B7, 0x1B7, 1, 0x292); (0x1B8, 0x1B8, 1, 0x1B9); (0x1BC, 0x1BC, 1, 0x1BD);
   (0x1C4, 0x1C4, 1, 0x1C6); (0x1C5, 0x1C5, 1, 0x1C6); (0x1C7, 0x1C7, 1, 0x1C9);
   (0x1C8, 0x1C8, 1, 0x1C9); (0x1CA, 0x1CA, 1, 0x1CC); (0x1CB, 0x1DB, 2, 0x1CC);
   (0x1DE, 0x1EE, 2, 0x1DF); (0x1F1, 0x1F1, 1, 0x1F3); (0x1F2, 0x1F4, 2, 0x1F3);
   (0x1F6, 0x1F6, 1, 0x195); (0x1F7, 0x1F7, 1, 0x1BF); (0x1F8, 0x21E, 2, 0x1F9);
   (0x220, 0x220, 1, 0x19E); (0x222, 0x232, 2, 0x223); (0x23A, 0x23A, 1, 0x2C65);
   (0x23B, 0x23B, 1, 0x23C); (0x23D, 0x23D, 1, 0x19A); (0x23E, 0x23E, 1, 0x2C66);
   (0x241, 0x241, 1, 0x242); (0x243, 0x243, 1, 0x180); (0x244, 0x244, 1, 0x289);
   (0x245, 0x245, 1, 0x28C); (0x246, 0x24E, 2, 0x247); (0x370, 0x372, 2, 0x371);
   (0x376, 0x376, 1, 0x377); (0x37F, 0x37F, 1, 0x3F3); (0x386, 0x386, 1, 0x3AC);
   (0x388, 0x38A, 1, 0x3AD); (0x38C, 0x38C, 1, 0x3CC); (0x38E, 0x38F, 1, 0x3CD);
   (0x391, 0x3A1, 1, 0x3B1); (0x3A3, 0x3AB, 1, 0x3C3); (0x3CF, 0x3CF, 1, 0x3D7);
   (0x3D8, 0x3EE, 2, 0x3D9); (0x3F4, 0x3F4, 1, 0x3B8); (0x3F7, 0x3F7, 1, 0x3F8);
   (0x3F9, 0x3F9, 1, 0x3F2); (0x3FA, 0x3FA, 1, 0x3FB); (0x3FD, 0x3FF, 1, 0x37B);
   (0x400, 0x40F, 1, 0x450); (0x410, 0x42F, 1, 0x430); (0x460, 0x480, 2, 0x461);
   (0x48A, 0x4BE, 2, 0x48B); (0x4C0, 0x4C0, 1, 0x4CF); (0x4C1, 0x4CD, 2, 0x4C2);
   (0x4D0, 0x52E, 2, 0x4D1); (0x531, 0x556, 1, 0x561); (0x10A0, 0x10C5, 1, 0x2D00);
   (0x10C7, 0x10C7, 1, 0x2D27); (0x10CD, 0x10CD, 1, 0x2D2D); (0x13A0, 0x13EF, 1, 0xAB70);
   (0x13F0, 0x13F5, 1, 0x13F8); (0x1C90, 0x1CBA, 1, 0x10D0); (0x1CBD, 0x1CBF, 1, 0x10FD);
   (0x1E00, 0x1E94, 2, 0x1E01); (0x1E9E, 0x1E9E, 1, 0xDF); (0x1EA0, 0x1EFE, 2, 0x1EA1);
   (0x1F08, 0x1F0F, 1, 0x1F00); (0x1F18, 0x1F1D, 1, 0x1F10); (0x1F28, 0x1F2F, 1, 0x1F20);
   (0x1F38, 0x1F3F, 1, 0x1F30); (0x1F48, 0x1F4D, 1, 0x1F40); (0x1F59, 0x1F5F, 2, 0x1F51);
   (0x1F68, 0x1F6F, 1, 0x1F60); (0x1F88, 0x1F8F, 1, 0x1F80); (0x1F98, 0x1F9F, 1, 0x1F90);
   (0x1FA8, 0x1FAF, 1, 0x1FA0); (0x1FB8, 0x1FB9, 1, 0x1FB0); (0x1FBA, 0x1FBB, 1, 0x1F70);
   (0x1FBC, 0x1FBC, 1, 0x1FB3); (0x1FC8, 0x1FCB, 1, 0x1F72); (0x1FCC, 0x1FCC, 1, 0x1FC3);
   (0x1FD8, 0x1FD9, 1, 0x1FD0); (0x1FDA, 0x1FDB, 1, 0x1F76); (0x1FE8, 0x1FE9, 1, 0x1FE0);
   (0x1FEA, 0x1FEB, 1, 0x1F7A); (0x1FEC, 0x1FEC, 1, 0x1FE5); (0x1FF8, 0x1FF9, 1, 0x1F78);
   (0x1FFA, 0x1FFB, 1, 0x1F7C); (0x1FFC, 0x1FFC, 1, 0x1FF3); (0x2126, 0x2126, 1, 0x3C9);
   (0x212A, 0x212A, 1, 0x6B); (0x212B, 0x212B, 1, 0xE5); (0x2132, 0x2132, 1, 0x214E);
   (0x2160, 0x216F, 1, 0x2170); (0x2183, 0x2183, 1, 0x2184); (0x24B6, 0x24CF, 1, 0x24D0);
   (0x2C00, 0x2C2F, 1, 0x2C30); (0x2C60, 0x2C60, 1, 0x2C61); (0x2C62, 0x2C62, 1, 0x26B);
   (0x2C63, 0x2C63, 1, 0x1D7D); (0x2C64, 0x2C64, 1, 0x27D); (0x2C67, 0x2C6B, 2, 0x2C68);
   (0x2C6D, 0x2C6D, 1, 0x251); (0x2C6E, 0x2C6E, 1, 0x271); (0x2C6F, 0x2C6F, 1, 0x250);
   (0x2C70, 0x2C70, 1, 0x252); (0x2C72, 0x2C72, 1, 0x2C73); (0x2C75, 0x2C75, 1, 0x2C76);
   (0x2C7E, 0x2C7F, 1, 0x23F); (0x2C80, 0x2CE2, 2, 0x2C81); (0x2CEB, 0x2CED, 2, 0x2CEC);
   (0x2CF2, 0x2CF2, 1, 0x2CF3); (0xA640, 0xA66C, 2, 0xA641); (0xA680, 0xA69A, 2, 0xA681);
   (0xA722, 0xA72E, 2, 0xA723); (0xA732, 0xA76E, 2, 0xA733); (0xA779, 0xA77B, 2, 0xA77A);
   (0xA77D, 0xA77D, 1, 0x1D79); (0xA77E, 0xA786, 2, 0xA77F); (0xA78B, 0xA78B, 1, 0xA78C);
   (0xA78D, 0xA78D, 1, 0x265); (0xA790, 0xA792, 2, 0xA791); (0xA796, 0xA7A8, 2, 0xA797);
   (0xA7AA, 0xA7AA, 1, 0x266); (0xA7AB, 0xA7AB, 1, 0x25C); (0xA7AC, 0xA7AC, 1, 0x261);
   (0xA7AD, 0xA7AD, 1, 0x26C); (0xA7AE, 0xA7AE, 1, 0x26A); (0xA7B0, 0xA7B0, 1, 0x29E);
   (0xA7B1, 0xA7B1, 1, 0x287); (0xA7B2, 0xA7B2, 1, 0x29D); (0xA7B3, 0xA7B3, 1, 0xAB53);
   (0xA7B4, 0xA7C2, 2, 0xA7B5); (0xA7C4, 0xA7C4, 1, 0xA794); (0xA7C5, 0xA7C5, 1, 0x282);
   (0xA7C6, 0xA7C6, 1, 0x1D8E); (0xA7C7, 0xA7C9, 2, 0xA7C8); (0xA7D0, 0xA7D0, 1, 0xA7D1);
   (0xA7D6, 0xA7D8, 2, 0xA7D7); (0xA7F5, 0xA7F5, 1, 0xA7F6); (0xFF21, 0xFF3A, 1, 0xFF41);
   (0x10400, 0x10427, 1, 0x10428); (0x104B0, 0x104D3, 1, 0x104D8);
   (0x10570, 0x1057A, 1, 0x10597); (0x1057C, 0x1058A, 1, 0x105A3);
   (0x1058C, 0x10592, 1, 0x105B3); (0x10594, 0x10595, 1, 0x105BB);
   (0x10C80, 0x10CB2, 1, 0x10CC0); (0x118A0, 0x118BF, 1, 0x118C0);
   (0x16E40, 0x16E5F, 1, 0x16E60); (0x1E900, 0x1E921, 1, 0x1E922)]%N.

(** The cased characters. *)
Definition cased_table : list (N * N) :=
  [(0x41, 0x5A); (0x61, 0x7A); (0xAA, 0xAA); (0xB5, 0xB5); (0xBA, 0xBA); (0xC0, 0xD6);
   (0xD8, 0xF6); (0xF8, 0x1BA); (0x1BC, 0x1BF); (0x1C4, 0x293); (0x295, 0x2B8); (0x2C0, 0x2C1);
   (0x2E0, 0x2E4); (0x345, 0x345); (0x370, 0x373); (0x376, 0x377); (0x37A, 0x37D);
   (0x37F, 0x37F); (0x386, 0x386); (0x388, 0x38A); (0x38C, 0x38C); (0x38E, 0x3A1);
   (0x3A3, 0x3F5); (0x3F7, 0x481); (0x48A, 0x52F); (0x531, 0x556); (0x560, 0x588);
   (0x10A0, 0x10C5); (0x10C7, 0x10C7); (0x10CD, 0x10CD); (0x10D0, 0x10FA); (0x10FD, 0x10FF);
   (0x13A0, 0x13F5); (0x13F8, 0x13FD); (0x1C80, 0x1C88); (0x1C90, 0x1CBA); (0x1CBD, 0x1CBF);
   (0x1D00, 0x1DBF); (0x1E00, 0x1F15); (0x1F18, 0x1F1D); (0x1F20, 0x1F45); (0x1F48, 0x1F4D);
   (0x1F50, 0x1F57); (0x1F59, 0x1F59); (0x1F5B, 0x1F5B); (0x1F5D, 0x1F5D); (0x1F5F, 0x1F7D);
   (0x1F80, 0x1FB4); (0x1FB6, 0x1FBC); (0x1FBE, 0x1FBE); (0x1FC2, 0x1FC4); (0x1FC6, 0x1FCC);
   (0x1FD0, 0x1FD3); (0x1FD6, 0x1FDB); (0x1FE0, 0x1FEC); (0x1FF2, 0x1FF4); (0x1FF6, 0x1FFC);
   (0x2071, 0x2071); (0x207F, 0x207F); (0x2090, 0x209C); (0x2102, 0x2102); (0x2107, 0x2107);
   (0x210A, 0x2113); (0x2115, 0x2115); (0x2119, 0x211D); (0x2124, 0x2124); (0x2126, 0x2126);
   (0x2128, 0x2128); (0x212A, 0x212D); (0x212F, 0x2134); (0x2139, 0x2139); (0x213C, 0x213F);
   (0x2145, 0x2149); (0x214E, 0x214E); (0x2160, 0x217F); (0x2183, 0x2184); (0x24B6, 0x24E9);
   (0x2C00, 0x2CE4); (0x2CEB, 0x2CEE); (0x2CF2, 0x2CF3); (0x2D00, 0x2D25); (0x2D27, 0x2D27);
   (0x2D2D, 0x2D2D); (0xA640, 0xA66D); (0xA680, 0xA69D); (0xA722, 0xA787); (0xA78B, 0xA78E);
   (0xA790, 0xA7CA); (0xA7D0, 0xA7D1); (0xA7D3, 0xA7D3); (0xA7D5, 0xA7D9); (0xA7F5, 0xA7F6);
   (0xA7F8, 0xA7FA); (0xAB30, 0xAB5A); (0xAB5C, 0xAB68); (0xAB70, 0xABBF); (0xFB00, 0xFB06);
   (0xFB13, 0xFB17); (0xFF21, 0xFF3A); (0xFF41, 0xFF5A); (0x10400, 0x1044F);
   (0x104B0, 0x104D3); (0x104D8, 0x104FB); (0x10570, 0x1057A); (0x1057C, 0x1058A);
   (0x1058C, 0x10592); (0x10594, 0x10595); (0x10597, 0x105A1); (0x105A3, 0x105B1);
   (0x105B3, 0x105B9); (0x105BB, 0x105BC); (0x10780, 0x10780); (0x10783, 0x10785);
   (0x10787, 0x107B0); (0x107B2, 0x107BA); (0x10C80, 0x10CB2); (0x10CC0, 0x10CF2);
   (0x118A0, 0x118DF); (0x16E40, 0x16E7F); (0x1D400, 0x1D454); (0x1D456, 0x1D49C);
   (0x1D49E, 0x1D49F); (0x1D4A2, 0x1D4A2); (0x1D4A5, 0x1D4A6); (0x1D4A9, 0x1D4AC);
   (0x1D4AE, 0x1D4B9); (0x1D4BB, 0x1D4BB); (0x1D4BD, 0x1D4C3); (0x1D4C5, 0x1D505);
   (0x1D507, 0x1D50A); (0x1D50D, 0x1D514); (0x1D516, 0x1D51C); (0x1D51E, 0x1D539);
   (0x1D53B, 0x1D53E); (0x1D540, 0x1D544); (0x1D546, 0x1D546); (0x1D54A, 0x1D550);
   (0x1D552, 0x1D6A5); (0x1D6A8, 0x1D6C0); (0x1D6C2, 0x1D6DA); (0x1D6DC, 0x1D6FA);
   (0x1D6FC, 0x1D714); (0x1D716, 0x1D734); (0x1D736, 0x1D74E); (0x1D750, 0x1D76E);
   (0x1D770, 0x1D788); (0x1D78A, 0x1D7A8); (0x1D7AA, 0x1D7C2); (0x1D7C4, 0x1D7CB);
   (0x1DF00, 0x1DF09); (0x1DF0B, 0x1DF1E); (0x1E900, 0x1E943); (0x1F130, 0x1F149);
   (0x1F150, 0x1F169); (0x1F170, 0x1F189)]%N.

(** The case-ignorable characters. *)
Definition case_ignorable_table : list (N * N) :=
  [(0x27, 0x27); (0x2E, 0x2E); (0x3A, 0x3A); (0x5E, 0x5E); (0x60, 0x60); (0xA8, 0xA8);
   (0xAD, 0xAD); (0xAF, 0xAF); (0xB4, 0xB4); (0xB7, 0xB8); (0x2B0, 0x36F); (0x374, 0x375);
   (0x37A, 0x37A); (0x384, 0x385); (0x387, 0x387); (0x483, 0x489); (0x559, 0x559);
   (0x55F, 0x55F); (0x591, 0x5BD); (0x5BF, 0x5BF); (0x5C1, 0x5C2); (0x5C4, 0x5C5);
   (0x5C7, 0x5C7); (0x5F4, 0x5F4); (0x600, 0x605); (0x610, 0x61A); (0x61C, 0x61C);
   (0x640, 0x640); (0x64B, 0x65F); (0x670, 0x670); (0x6D6, 0x6DD); (0x6DF, 0x6E8);
   (0x6EA, 0x6ED); (0x70F, 0x70F); (0x711, 0x711); (0x730, 0x74A); (0x7A6, 0x7B0);
   (0x7EB, 0x7F5); (0x7FA, 0x7FA); (0x7FD, 0x7FD); (0x816, 0x82D); (0x859, 0x85B);
   (0x888, 0x888); (0x890, 0x891); (0x898, 0x89F); (0x8C9, 0x902); (0x93A, 0x93A);
   (0x93C, 0x93C); (0x941, 0x948); (0x94D, 0x94D); (0x951, 0x957); (0x962, 0x963);
   (0x971, 0x971); (0x981, 0x981); (0x9BC, 0x9BC); (0x9C1, 0x9C4); (0x9CD, 0x9CD);
   (0x9E2, 0x9E3); (0x9FE, 0x9FE); (0xA01, 0xA02); (0xA3C, 0xA3C); (0xA41, 0xA42);
   (0xA47, 0xA48); (0xA4B, 0xA4D); (0xA51, 0xA51); (0xA70, 0xA71); (0xA75, 0xA75);
   (0xA81, 0xA82); (0xABC, 0xABC); (0xAC1, 0xAC5); (0xAC7, 0xAC8); (0xACD, 0xACD);
   (0xAE2, 0xAE3); (0xAFA, 0xAFF); (0xB01, 0xB01); (0xB3C, 0xB3C); (0xB3F, 0xB3F);
   (0xB41, 0xB44); (0xB4D, 0xB4D); (0xB55, 0xB56); (0xB62, 0xB63); (0xB82, 0xB82);
   (0xBC0, 0xBC0); (0xBCD, 0xBCD); (0xC00, 0xC00); (0xC04, 0xC04); (0xC3C, 0xC3C);
   (0xC3E, 0xC40); (0xC46, 0xC48); (0xC4A, 0xC4D); (0xC55, 0xC56); (0xC62, 0xC63);
   (0xC81, 0xC81); (0xCBC, 0xCBC); (0xCBF, 0xCBF); (0xCC6, 0xCC6); (0xCCC, 0xCCD);
   (0xCE2, 0xCE3); (0xD00, 0xD01); (0xD3B, 0xD3C); (0xD41, 0xD44); (0xD4D, 0xD4D);
   (0xD62, 0xD63); (0xD81, 0xD81); (0xDCA, 0xDCA); (0xDD2, 0xDD4); (0xDD6, 0xDD6);
   (0xE31, 0xE31); (0xE34, 0xE3A); (0xE46, 0xE4E); (0xEB1, 0xEB1); (0xEB4, 0xEBC);
   (0xEC6, 0xEC6); (0xEC8, 0xECD); (0xF18, 0xF19); (0xF35, 0xF35); (0xF37, 0xF37);
   (0xF39, 0xF39); (0xF71, 0xF7E); (0xF80, 0xF84); (0xF86, 0xF87); (0xF8D, 0xF97);
   (0xF99, 0xFBC); (0xFC6, 0xFC6); (0x102D, 0x1030); (0x1032, 0x1037); (0x1039, 0x103A);
   (0x103D, 0x103E); (0x1058, 0x1059); (0x105E, 0x1060); (0x1071, 0x1074); (0x1082, 0x1082);
   (0x1085, 0x1086); (0x108D, 0x108D); (0x109D, 0x109D); (0x10FC, 0x10FC); (0x135D, 0x135F);
   (0x1712, 0x1714); (0x1732, 0x1733); (0x1752, 0x1753); (0x1772, 0x1773); (0x17B4, 0x17B5);
   (0x17B7, 0x17BD); (0x17C6, 0x17C6); (0x17C9, 0x17D3); (0x17D7, 0x17D7); (0x17DD, 0x17DD);
   (0x180B, 0x180F); (0x1843, 0x1843); (0x1885, 0x1886); (0x18A9, 0x18A9); (0x1920, 0x1922);
   (0x1927, 0x1928); (0x1932, 0x1932); (0x1939, 0x193B); (0x1A17, 0x1A18); (0x1A1B, 0x1A1B);
   (0x1A56, 0x1A56); (0x1A58, 0x1A5E); (0x1A60, 0x1A60); (0x1A62, 0x1A62); (0x1A65, 0x1A6C);
   (0x1A73, 0x1A7C); (0x1A7F, 0x1A7F); (0x1AA7, 0x1AA7); (0x1AB0, 0x1ACE); (0x1B00, 0x1B03);
   (0x1B34, 0x1B34); (0x1B36, 0x1B3A); (0x1B3C, 0x1B3C); (0x1B42, 0x1B42); (0x1B6B, 0x1B73);
   (0x1B80, 0x1B81); (0x1BA2, 0x1BA5); (0x1BA8, 0x1BA9); (0x1BAB, 0x1BAD); (0x1BE6, 0x1BE6);
   (0x1BE8, 0x1BE9); (0x1BED, 0x1BED); (0x1BEF, 0x1BF1); (0x1C2C, 0x1C33); (0x1C36, 0x1C37);
   (0x1C78, 0x1C7D); (0x1CD0, 0x1CD2); (0x1CD4, 0x1CE0); (0x1CE2, 0x1CE8); (0x1CED, 0x1CED);
   (0x1CF4, 0x1CF4); (0x1CF8, 0x1CF9); (0x1D2C, 0x1D6A); (0x1D78, 0x1D78); (0x1D9B, 0x1DFF);
   (0x1FBD, 0x1FBD); (0x1FBF, 0x1FC1); (0x1FCD, 0x1FCF); (0x1FDD, 0x1FDF); (0x1FED, 0x1FEF);
   (0x1FFD, 0x1FFE); (0x200B, 0x200F); (0x2018, 0x2019); (0x2024, 0x2024); (0x2027, 0x2027);
   (0x202A, 0x202E); (0x2060, 0x2064); (0x2066, 0x206F); (0x2071, 0x2071); (0x207F, 0x207F);
   (0x2090, 0x209C); (0x20D0, 0x20F0); (0x2C7C, 0x2C7D); (0x2CEF, 0x2CF1); (0x2D6F, 0x2D6F);
   (0x2D7F, 0x2D7F); (0x2DE0, 0x2DFF); (0x2E2F, 0x2E2F); (0x3005, 0x3005); (0x302A, 0x302D);
   (0x3031, 0x3035); (0x303B, 0x303B); (0x3099, 0x309E); (0x30FC, 0x30FE); (0xA015, 0xA015);
   (0xA4F8, 0xA4FD); (0xA60C, 0xA60C); (0xA66F, 0xA672); (0xA674, 0xA67D); (0xA67F, 0xA67F);
   (0xA69C, 0xA69F); (0xA6F0, 0xA6F1); (0xA700, 0xA721); (0xA770, 0xA770); (0xA788, 0xA78A);
   (0xA7F2, 0xA7F4); (0xA7F8, 0xA7F9); (0xA802, 0xA802); (0xA806, 0xA806); (0xA80B, 0xA80B);
   (0xA825, 0xA826); (0xA82C, 0xA82C); (0xA8C4, 0xA8C5); (0xA8E0, 0xA8F1); (0xA8FF, 0xA8FF);
   (0xA926, 0xA92D); (0xA947, 0xA951); (0xA980, 0xA982); (0xA9B3, 0xA9B3); (0xA9B6, 0xA9B9);
   (0xA9BC, 0xA9BD); (0xA9CF, 0xA9CF); (0xA9E5, 0xA9E6); (0xAA29, 0xAA2E); (0xAA31, 0xAA32);
   (0xAA35, 0xAA36); (0xAA43, 0xAA43); (0xAA4C, 0xAA4C); (0xAA70, 0xAA70); (0xAA7C, 0xAA7C);
   (0xAAB0, 0xAAB0); (0xAAB2, 0xAAB4); (0xAAB7, 0xAAB8); (0xAABE, 0xAABF); (0xAAC1, 0xAAC1);
   (0xAADD, 0xAADD); (0xAAEC, 0xAAED); (0xAAF3, 0xAAF4); (0xAAF6, 0xAAF6); (0xAB5B, 0xAB5F);
   (0xAB69, 0xAB6B); (0xABE5, 0xABE5); (0xABE8, 0xABE8); (0xABED, 0xABED); (0xFB1E, 0xFB1E);
   (0xFBB2, 0xFBC2); (0xFE00, 0xFE0F); (0xFE13, 0xFE13); (0xFE20, 0xFE2F); (0xFE52, 0xFE52);
   (0xFE55, 0xFE55); (0xFEFF, 0xFEFF); (0xFF07, 0xFF07); (0xFF0E, 0xFF0E); (0xFF1A, 0xFF1A);
   (0xFF3E, 0xFF3E); (0xFF40, 0xFF40); (0xFF70, 0xFF70); (0xFF9E, 0xFF9F); (0xFFE3, 0xFFE3);
   (0xFFF9, 0xFFFB); (0x101FD, 0x101FD); (0x102E0, 0x102E0); (0x10376, 0x1037A);
   (0x10780, 0x10785); (0x10787, 0x107B0); (0x107B2, 0x107BA); (0x10A01, 0x10A03);
   (0x10A05, 0x10A06); (0x10A0C, 0x10A0F); (0x10A38, 0x10A3A); (0x10A3F, 0x10A3F);
   (0x10AE5, 0x10AE6); (0x10D24, 0x10D27); (0x10EAB, 0x10EAC); (0x10F46, 0x10F50);
   (0x10F82, 0x10F85); (0x11001, 0x11001); (0x11038, 0x11046); (0x11070, 0x11070);
   (0x11073, 0x11074); (0x1107F, 0x11081); (0x110B3, 0x110B6); (0x110B9, 0x110BA);
   (0x110BD, 0x110BD); (0x110C2, 0x110C2); (0x110CD, 0x110CD); (0x11100, 0x11102);
   (0x11127, 0x1112B); (0x1112D, 0x11134); (0x11173, 0x11173); (0x11180, 0x11181);
   (0x111B6, 0x111BE); (0x111C9, 0x111CC); (0x111CF, 0x111CF); (0x1122F, 0x11231);
   (0x11234, 0x11234); (0x11236, 0x11237); (0x1123E, 0x1123E); (0x112DF, 0x112DF);
   (0x112E3, 0x112EA); (0x11300, 0x11301); (0x1133B, 0x1133C); (0x11340, 0x11340);
   (0x11366, 0x1136C); (0x11370, 0x11374); (0x11438, 0x1143F); (0x11442, 0x11444);
   (0x11446, 0x11446); (0x1145E, 0x1145E); (0x114B3, 0x114B8); (0x114BA, 0x114BA);
   (0x114BF, 0x114C0); (0x114C2, 0x114C3); (0x115B2, 0x115B5); (0x115BC, 0x115BD);
   (0x115BF, 0x115C0); (0x115DC, 0x115DD); (0x11633, 0x1163A); (0x1163D, 0x1163D);
   (0x1163F, 0x11640); (0x116AB, 0x116AB); (0x116AD, 0x116AD); (0x116B0, 0x116B5);
   (0x116B7, 0x116B7); (0x1171D, 0x1171F); (0x11722, 0x11725); (0x11727, 0x1172B);
   (0x1182F, 0x11837); (0x11839, 0x1183A); (0x1193B, 0x1193C); (0x1193E, 0x1193E);
   (0x11943, 0x11943); (0x119D4, 0x119D7); (0x119DA, 0x119DB); (0x119E0, 0x119E0);
   (0x11A01, 0x11A0A); (0x11A33, 0x11A38); (0x11A3B, 0x11A3E); (0x11A47, 0x11A47);
   (0x11A51, 0x11A56); (0x11A59, 0x11A5B); (0x11A8A, 0x11A96); (0x11A98, 0x11A99);
   (0x11C30, 0x11C36); (0x11C38, 0x11C3D); (0x11C3F, 0x11C3F); (0x11C92, 0x11CA7);
   (0x11CAA, 0x11CB0); (0x11CB2, 0x11CB3); (0x11CB5, 0x11CB6); (0x11D31, 0x11D36);
   (0x11D3A, 0x11D3A); (0x11D3C, 0x11D3D); (0x11D3F, 0x11D45); (0x11D47, 0x11D47);
   (0x11D90, 0x11D91); (0x11D95, 0x11D95); (0x11D97, 0x11D97); (0x11EF3, 0x11EF4);
   (0x13430, 0x13438); (0x16AF0, 0x16AF4); (0x16B30, 0x16B36); (0x16B40, 0x16B43);
   (0x16F4F, 0x16F4F); (0x16F8F, 0x16F9F); (0x16FE0, 0x16FE1); (0x16FE3, 0x16FE4);
   (0x1AFF0, 0x1AFF3); (0x1AFF5, 0x1AFFB); (0x1AFFD, 0x1AFFE); (0x1BC9D, 0x1BC9E);
   (0x1BCA0, 0x1BCA3); (0x1CF00, 0x1CF2D); (0x1CF30, 0x1CF46); (0x1D167, 0x1D169);
   (0x1D173, 0x1D182); (0x1D185, 0x1D18B); (0x1D1AA, 0x1D1AD); (0x1D242, 0x1D244);
   (0x1DA00, 0x1DA36); (0x1DA3B, 0x1DA6C); (0x1DA75, 0x1DA75); (0x1DA84, 0x1DA84);
   (0x1DA9B, 0x1DA9F); (0x1DAA1, 0x1DAAF); (0x1E000, 0x1E006); (0x1E008, 0x1E018);
   (0x1E01B, 0x1E021); (0x1E023, 0x1E024); (0x1E026, 0x1E02A); (0x1E130, 0x1E13D);
   (0x1E2AE, 0x1E2AE); (0x1E2EC, 0x1E2EF); (0x1E8D0, 0x1E8D6); (0x1E944, 0x1E94B);
   (0x1F3FB, 0x1F3FF); (0xE0001, 0xE0001); (0xE0020, 0xE007F); (0xE0100, 0xE01EF)]%N.


(** The lower-case form of a code point, [None] when it has none. *)
Definition to_lower_full (cp : N) : option (list N) :=
  if (cp =? 0x130)%N then Some [0x69; 0x307]%N
  else
    match find (fun r => ((r.1.1.1 <=? cp) && (cp <=? r.1.1.2)
                          && ((cp - r.1.1.1) mod r.1.2 =? 0))%N) lower_table with
    | Some r => Some [r.2 + (cp - r.1.1.1)]%N
    | None => None
    end.

Definition is_cased (ch : string) : bool :=
  match code_point ch with
  | Some cp => in_ranges cp cased_table
  | None => false
  end.

Definition is_case_ignorable (ch : string) : bool :=
  match code_point ch with
  | Some cp => in_ranges cp case_ignorable_table
  | None => false
  end.

(** A cased character comes next, the case-ignorable ones skipped. *)
Fixpoint cased_ahead (l : list string) : bool :=
  match l with
  | [] => false
  | ch :: l' => if is_case_ignorable ch then cased_ahead l' else is_cased ch
  end.

(** One character in lower case; [before] tells that a cased character
    came last before it, the case-ignorable ones skipped, and [rest] is
    what follows. A capital sigma after a cased character and not before
    one is final. *)
Definition lower_char (before : bool) (rest : list string) (ch : string) : string :=
  match code_point ch with
  | Some cp =>
      if (cp =? 0x3A3)%N
      then (if before && negb (cased_ahead rest) then chr 0x3C2 else chr 0x3C3)
      else match to_lower_full cp with
           | Some l => String.concat "" (chr <$> l)
           | None => ch
           end
  | None => ch
  end.

Fixpoint lower_chars (before : bool) (l : list string) : list string :=
  match l with
  | [] => []
  | ch :: l' =>
      lower_char before l' ch
        :: lower_chars (if is_case_ignorable ch then before else is_cased ch) l'
  end.

(** [s.lower()] *)
Definition lower (s : string) : string :=
  String.concat "" (lower_chars false (chars s)).

(** An upper-case (or title-case) letter: a character with a lower-case
    form of its own. *)
Definition is_upper (ch : string) : bool :=
  match code_point ch with
  | Some cp => match to_lower_full cp with Some _ => true | None => false end
  | None => false
  end.

(** The text has an upper-case letter. *)
Definition has_upper (s : string) : bool := existsb is_upper (chars s).

(** [needle in hay] on two strings: substring containment. *)
Fixpoint str_in (needle hay : string) : bool :=
  String.prefix needle hay ||
  match hay with
  | EmptyString => false
  | String _ hay' => str_in needle hay'
  end.

(** Truth value of a [str]: only the empty string is false. *)
Definition str_truthy (s : string) : bool :=
  match s with EmptyString => false | _ => true end.

(** Truth value of an [Optional[str]]. *)
Definition opt_truthy (o : option string) : bool :=
  match o with Some s => str_truthy s | None => false end.

(** *** [base64.b64encode(data).decode()] *)

Definition b64_alphabet : string :=
  "ABCDEFGHIJKLMNOPQRSTUVWXYZabcdefghijklmnopqrstuvwxyz0123456789+/".

Definition b64_digit (n : N) : ascii :=
  match String.get (N.to_nat n) b64_alphabet with
  | Some c => c
  | None => "="%char
  end.

Fixpoint b64encode (data : list byte) : string :=
  match data with
  | [] => ""
  | [a] =>
      let x := Byte.to_N a in
      String (b64_digit (N.shiftr x 2))
        (String (b64_digit (N.shiftl (N.land x 3) 4)) "==")
  | [a; b] =>
      let x := Byte.to_N a in
      let y := Byte.to_N b in
      String (b64_digit (N.shiftr x 2))
        (String (b64_digit (N.lor (N.shiftl (N.land x 3) 4) (N.shiftr y 4)))
           (String (b64_digit (N.shiftl (N.land y 15) 2)) "="))
  | a :: b :: c :: rest =>
      let x := Byte.to_N a in
      let y := Byte.to_N b in
      let z := Byte.to_N c in
      String (b64_digit (N.shiftr x 2))
        (String (b64_digit (N.lor (N.shiftl (N.land x 3) 4) (N.shiftr y 4)))
           (String (b64_digit (N.lor (N.shiftl (N.land y 15) 2) (N.shiftr z 6)))
              (String (b64_digit (N.land z 63)) (b64encode rest))))
  end.

(** ** Effects

    A call either returns a value or raises an exception of class
    [Exception], the ones [except Exception] catches; [e] is the text
    [str(e)] of the exception. Cancellation of the coroutine is not part of
    the model. *)
Inductive outcome (A : Type) : Type :=
| Returns (a : A)
| Raises (e : string).
Arguments Returns {A} a.
Arguments Raises {A} e.

(** *** The table [avatar_descriptions] ([models.py], class
    [AvatarDescription]); [id] is the primary key peewee adds. *)
Record AvatarDescription : Type := mkAvatarDescription {
  id : Z;
  person_id : string;
  platform : string;
  user_id : string;
  head_description : option string;
  analyzed_at : option float;
  avatar_url : option string }.

Definition table : Type := list AvatarDescription.

(** The statements sent to the database. *)
Inductive db_op : Type :=
| Select (pid : string)
| Update (r : AvatarDescription)
| Insert (r : AvatarDescription).

(** An [aiohttp] response: its status, and what [response.read()] gives. *)
Record http_response : Type := mkResponse {
  status : Z;
  read : outcome (list byte) }.

(** Modelled from the spec: the registry of the host, which is not part of
    the repository, maps a logical name to a model handle. The handle is an
    object, which counts as true in a condition; the analyzer only hands it
    on. *)
Record TaskConfig : Type := mkTaskConfig {
  model_list : list string }.

(** The functions of the two modules: those whose invocations are counted,
    and those that ask the collaborators below. *)
Inductive callee : Type :=
| f_get_avatar_description
| f_set_avatar_description
| m_get_existing_description
| m_fetch_avatar
| m_analyze_avatar
| m_store_description.

(** The collaborators during one call of the pipeline: each field is the
    answer to a request the call makes.
    - [get_person_id f platform user_id]: what
      [person_api.get_person_id(platform, user_id)] gives when [f] calls it;
    - [db_fault f op]: the exception the database raises on the statement
      [op] of [f], if any (connection lost, table missing, ...);
    - [time_time]: the reading of [time.time()];
    - [session_get url]: [aiohttp]'s GET;
    - [get_available_models]: [llm_api.get_available_models()];
    - [generate_response_for_image model request_type prompt image format]:
      building the [LLMRequest] and awaiting its answer, the first component
      of the pair it returns.
    The identity service and the database are asked from two functions each;
    their answers are per asking function, so they may change while the call
    runs. The worlds of two calls are unrelated. *)
Record World : Type := mkWorld {
  get_person_id : callee -> string -> string -> outcome (option string);
  db_fault : callee -> db_op -> option string;
  time_time : float;
  session_get : string -> outcome http_response;
  get_available_models : outcome (gmap string TaskConfig);
  generate_response_for_image :
    TaskConfig -> string -> string -> string -> string -> outcome (option string) }.

(** What a run leaves in its trace: the functions entered and the requests
    made to the collaborators, in order. *)
Inductive event : Type :=
| Called (f : callee)
| PersonApi (plat uid : string)
| Db (op : db_op)
| Http (url : string)
| Registry
| Llm (prompt image : string).

(** A computation reads the world, transforms the table and leaves a trace. *)
Definition M (A : Type) : Type :=
  World -> table -> outcome A * table * list event.

Definition ret {A} (a : A) : M A := fun _ t => (Returns a, t, []).

Definition raise {A} (e : string) : M A := fun _ t => (Raises e, t, []).

Definition bind {A B} (m : M A) (k : A -> M B) : M B :=
  fun w t =>
    match m w t with
    | (Returns a, t1, tr1) =>
        match k a w t1 with (r, t2, tr2) => (r, t2, tr1 ++ tr2) end
    | (Raises e, t1, tr1) => (Raises e, t1, tr1)
    end.

(** [try: m except Exception as e: h e] *)
Definition try_except {A} (m : M A) (h : string -> M A) : M A :=
  fun w t =>
    match m w t with
    | (Returns a, t1, tr1) => (Returns a, t1, tr1)
    | (Raises e, t1, tr1) =>
        match h e w t1 with (r, t2, tr2) => (r, t2, tr1 ++ tr2) end
    end.

Definition emit (ev : event) : M unit := fun _ t => (Returns tt, t, [ev]).

(** The answer of a collaborator, after leaving [ev] in the trace. *)
Definition request {A} (ev : event) (f : World -> outcome A) : M A :=
  fun w t => (f w, t, [ev]).

(** [time.time()] *)
Definition time : M float := fun w t => (Returns (time_time w), t, []).

Declare Scope py_scope.
Delimit Scope py_scope with py.
Notation "x <- m ;; k" := (bind m (fun x => k))
  (at level 100, m at next level, right associativity) : py_scope.
Notation "m ;;; k" := (bind m (fun _ => k))
  (at level 100, right associativity) : py_scope.
Local Open Scope py_scope.

(** ** [models.py] *)

Definition has_person (pid : string) (r : AvatarDescription) : bool :=
  String.eqb (person_id r) pid.

(** The key of the next row: one more than the largest key in use. *)
Definition next_id (t : table) : Z :=
  (1 + fold_right Z.max 0 (id <$> t))%Z.

(** [AvatarDescription.get_or_none(AvatarDescription.person_id == pid)],
    called by [f] *)
Definition get_or_none (f : callee) (pid : string) : M (option AvatarDescription) :=
  fun w t =>
    match db_fault w f (Select pid) with
    | Some e => (Raises e, t, [Db (Select pid)])
    | None => (Returns (find (has_person pid) t), t, [Db (Select pid)])
    end.

(** The effect of [UPDATE ... WHERE id = r.id]. *)
Definition replace_row (r : AvatarDescription) (t : table) : table :=
  map (fun r' => if (id r' =? id r)%Z then r else r') t.

(** [record.save()], called by [f]: the row of that key takes the fields of
    [r]; the unique index on [person_id] refuses a second row of one
    person. *)
Definition save (f : callee) (r : AvatarDescription) : M unit :=
  fun w t =>
    match db_fault w f (Update r) with
    | Some e => (Raises e, t, [Db (Update r)])
    | None =>
        if existsb (fun r' => has_person (person_id r) r' && negb (id r' =? id r)%Z) t
        then (Raises "IntegrityError", t, [Db (Update r)])
        else (Returns tt, replace_row r t, [Db (Update r)])
    end.

(** [AvatarDescription.create(...)], called by [f] *)
Definition create (f : callee) (pid plat uid : string) (description : option string)
    (at_ : option float) (url : option string) : M AvatarDescription :=
  fun w t =>
    let r := mkAvatarDescription (next_id t) pid plat uid description at_ url in
    match db_fault w f (Insert r) with
    | Some e => (Raises e, t, [Db (Insert r)])
    | None =>
        if existsb (has_person pid) t
        then (Raises "IntegrityError", t, [Db (Insert r)])
        else (Returns r, t ++ [r], [Db (Insert r)])
    end.

Definition set_head_description (d : option string) (r : AvatarDescription) :=
  mkAvatarDescription (id r) (person_id r) (platform r) (user_id r)
    d (analyzed_at r) (avatar_url r).

Definition set_analyzed_at (a : option float) (r : AvatarDescription) :=
  mkAvatarDescription (id r) (person_id r) (platform r) (user_id r)
    (head_description r) a (avatar_url r).

Definition set_avatar_url (u : option string) (r : AvatarDescription) :=
  mkAvatarDescription (id r) (person_id r) (platform r) (user_id r)
    (head_description r) (analyzed_at r) u.

(** [get_avatar_description(person_id)] *)
Definition get_avatar_description (pid : string) : M (option string) :=
  emit (Called f_get_avatar_description) ;;;
  try_except
    (record <- get_or_none f_get_avatar_description pid ;;
     ret (match record with
          | Some r => head_description r
          | None => None
          end))
    (fun _ => ret None).

(** [set_avatar_description(person_id, platform, user_id, description,
    avatar_url)] *)
Definition set_avatar_description (pid plat uid description : string)
    (url : option string) : M bool :=
  emit (Called f_set_avatar_description) ;;;
  try_except
    (record <- get_or_none f_set_avatar_description pid ;;
     match record with
     | Some r =>
         now <- time ;;
         let r1 := set_head_description (Some description) r in
         let r2 := set_analyzed_at (Some now) r1 in
         let r3 := if opt_truthy url then set_avatar_url url r2 else r2 in
         save f_set_avatar_description r3
     | None =>
         now <- time ;;
         create f_set_avatar_description pid plat uid (Some description) (Some now) url ;;;
         ret tt
     end ;;;
     ret true)
    (fun _ => ret false).

(** ** [avatar_analyzer.py], class [AvatarAnalyzer] *)

(** The line feed of the Python literals. *)
Definition nl : string := String (Ascii.ascii_of_N 10) "".

(** [self.default_prompt] *)
Definition default_prompt : string :=
  "这是一个用户的QQ头像，请根据图片内容分析并描述：" +:+ nl +:+
  "1. 如果是真人照片，描述其大致特征和风格" +:+ nl +:+
  "2. 如果是动漫/卡通形象，描述角色特点" +:+ nl +:+
  "3. 如果是风景/物品，描述图片主题" +:+ nl +:+
  "请用简洁的语言（50字内）总结这个头像给人的印象。".

(** The description returned when the vision model cannot be used. *)
Definition fallback_description : string := "使用默认头像或无法分析的头像图片".

(** The three failure messages of [analyze_and_store]. *)
Definition msg_avatar_unavailable : string := "无法获取用户头像".
Definition msg_analysis_failed : string := "头像分析失败".
Definition msg_store_failed : string := "存储描述失败".

(** [_get_existing_description(user_id, platform)] *)
Definition _get_existing_description (uid plat : string) : M (option string) :=
  emit (Called m_get_existing_description) ;;;
  try_except
    (pid <- request (PersonApi plat uid)
              (fun w => get_person_id w m_get_existing_description plat uid) ;;
     match pid with
     | Some (String c s) =>
         description <- get_avatar_description (String c s) ;;
         ret description
     | _ => ret None
     end)
    (fun _ => ret None).

(** [_fetch_avatar(user_id, platform)] *)
Definition _fetch_avatar (uid plat : string) : M (option (list byte)) :=
  emit (Called m_fetch_avatar) ;;;
  try_except
    (if String.eqb plat "discord" then ret None
     else if String.eqb plat "qq" then
       let url :=
         "http://q.qlogo.cn/headimg_dl?dst_uin=" +:+ uid +:+ "&spec=640&img_type=jpg" in
       response <- request (Http url) (fun w => session_get w url) ;;
       if (status response =? 200)%Z
       then data <- (fun _ t => (read response, t, [])) ;; ret (Some data)
       else ret None
     else ret None)
    (fun _ => ret None).

(** [custom_prompt or self.default_prompt] *)
Definition prompt_or_default (custom_prompt : option string) : string :=
  match custom_prompt with
  | Some (String c s) => String c s
  | _ => default_prompt
  end.

(** [_analyze_avatar(avatar_data, custom_prompt)] *)
Definition _analyze_avatar (avatar_data : list byte)
    (custom_prompt : option string) : M (option string) :=
  emit (Called m_analyze_avatar) ;;;
  try_except
    (let image_base64 := b64encode avatar_data in
     let prompt := prompt_or_default custom_prompt in
     models <- request Registry get_available_models ;;
     match models !! "vision_general" with
     | None => ret (Some fallback_description)
     | Some vision_model =>
         response <- request (Llm prompt image_base64)
                       (fun w => generate_response_for_image w vision_model
                                   "avatar_analysis" prompt image_base64 "jpeg") ;;
         match response with
         | Some (String c s) => ret (Some (strip (String c s)))
         | _ => ret (Some fallback_description)
         end
     end)
    (fun _ => ret (Some fallback_description)).

(** [_store_description(user_id, platform, description)] *)
Definition _store_description (uid plat description : string) : M bool :=
  emit (Called m_store_description) ;;;
  try_except
    (pid <- request (PersonApi plat uid)
              (fun w => get_person_id w m_store_description plat uid) ;;
     match pid with
     | Some (String c s) =>
         success <- set_avatar_description (String c s) plat uid description None ;;
         ret true
     | _ => ret false
     end)
    (fun _ => ret false).

(** The body of [analyze_and_store], over the four methods it calls on
    [self]. *)
Section Orchestrator.

Variable get_existing : string -> string -> M (option string).
Variable fetch : string -> string -> M (option (list byte)).
Variable analyze : list byte -> option string -> M (option string).
Variable store : string -> string -> string -> M bool.

Definition analyze_and_store_body (uid plat : string) (force_update : bool)
    (custom_prompt : option string) : M (bool * string) :=
  hit <- (if negb force_update
          then existing <- get_existing uid plat ;;
               ret (if opt_truthy existing then existing else None)
          else ret None) ;;
  match hit with
  | Some existing => ret (true, existing)
  | None =>
      avatar_data <- fetch uid plat ;;
      match avatar_data with
      | Some (b :: bs) =>
          try_except
            (description <- analyze (b :: bs) custom_prompt ;;
             match description with
             | Some (String c s) =>
                 success <- store uid plat (String c s) ;;
                 if negb success then ret (false, msg_store_failed)
                 else ret (true, String c s)
             | _ => ret (false, msg_analysis_failed)
             end)
            (fun e => ret (false, e))
      | _ => ret (false, msg_avatar_unavailable)
      end
  end.

End Orchestrator.

(** [analyze_and_store(user_id, platform, force_update, custom_prompt)] *)
Definition analyze_and_store : string -> string -> bool -> option string -> M (bool * string) :=
  analyze_and_store_body
    _get_existing_description _fetch_avatar _analyze_avatar _store_description.

(** ** [plugin.py], class [MemeManager] *)

(** A template of [meme_generator], by the attributes the plugin reads. *)
Record Meme : Type := mkMeme {
  key : string;
  keywords : list string;
  tags : list string }.

(** A Python [dict] with [str] keys: the items in insertion order.
    [d[k] = v] replaces the value of [k] where it stands, or adds the item at
    the end. *)
Fixpoint dict_set {V} (d : list (string * V)) (k : string) (v : V) : list (string * V) :=
  match d with
  | [] => [(k, v)]
  | (k', v') :: d' =>
      if String.eqb k' k then (k', v) :: d' else (k', v') :: dict_set d' k v
  end.

(** [d[k]] when [k in d], else [None] *)
Fixpoint dict_get {V} (d : list (string * V)) (k : string) : option V :=
  match d with
  | [] => None
  | (k', v') :: d' => if String.eqb k' k then Some v' else dict_get d' k
  end.

(** What the loading step finds on the host:
    - [import_names]: whether the three [from meme_generator ... import]
      lines succeed at the first attempt, [import_names_again] at the second;
    - [import_meme_generator]: whether [import meme_generator] succeeds in
      [check_and_install_dependency];
    - [uv_version]: the return code of [uv --version], [None] when the
      program is missing or times out;
    - [uv_pip_install], [pip_install]: whether the command succeeds;
    - [load_memes], [get_memes]: the two calls of [meme_generator]. *)
Record Host : Type := mkHost {
  import_names : bool;
  import_names_again : bool;
  import_meme_generator : bool;
  uv_version : option Z;
  uv_pip_install : bool;
  pip_install : bool;
  load_memes : outcome unit;
  get_memes : outcome (list Meme) }.

(** The class attributes of [MemeManager] and the module's global
    [get_memes], which is not [None] once the imports succeeded. *)
Record MemeManager : Type := mkMemeManager {
  _instance : bool;
  _memes : list (string * Meme);
  _meme_list : list Meme;
  is_initialized : bool;
  module_loaded : bool }.

(** The state of the class when the module is loaded. *)
Definition MemeManager_class : MemeManager :=
  mkMemeManager false [] [] false false.

(** [check_and_install_dependency()] *)
Definition check_and_install_dependency (h : Host) : bool :=
  if import_meme_generator h then true
  else
    let has_uv := match uv_version h with Some rc => (rc =? 0)%Z | None => false end in
    if has_uv then uv_pip_install h else pip_install h.

(** [_check_and_load_meme_generator()] *)
Definition _check_and_load_meme_generator (h : Host) (st : MemeManager) : bool * MemeManager :=
  let loaded :=
    mkMemeManager (_instance st) (_memes st) (_meme_list st) (is_initialized st) true in
  if module_loaded st then (true, st)
  else if import_names h then (true, loaded)
  else if check_and_install_dependency h then
    if import_names_again h then (true, loaded) else (false, st)
  else (false, st).

(** The body of the loop of [_load_memes] for one template. *)
Definition index_meme (d : list (string * Meme)) (meme : Meme) : list (string * Meme) :=
  fold_left (fun d keyword => dict_set d (lower keyword) meme)
    (keywords meme) (dict_set d (key meme) meme).

(** [_load_memes()] *)
Definition _load_memes (h : Host) (st : MemeManager) : MemeManager :=
  match _check_and_load_meme_generator h st with
  | (false, st1) => st1
  | (true, st1) =>
      match load_memes h with
      | Raises _ => st1
      | Returns _ =>
          match get_memes h with
          | Raises _ => st1
          | Returns all_memes =>
              mkMemeManager (_instance st1)
                (fold_left index_meme all_memes (_memes st1))
                all_memes true (module_loaded st1)
          end
      end
  end.

(** [MemeManager.get_instance()], with [__init__] *)
Definition get_instance (h : Host) (st : MemeManager) : MemeManager :=
  if _instance st then st
  else
    let st1 := if is_initialized st then st else _load_memes h st in
    mkMemeManager true (_memes st1) (_meme_list st1) (is_initialized st1)
      (module_loaded st1).

(** The scan of [find_meme]: the first item whose key contains [key_lower]. *)
Fixpoint scan (key_lower : string) (d : list (string * Meme)) : option Meme :=
  match d with
  | [] => None
  | (meme_key, meme) :: d' =>
      if str_in key_lower meme_key then Some meme else scan key_lower d'
  end.

(** [find_meme(key)] *)
Definition find_meme (st : MemeManager) (k : string) : option Meme :=
  if negb (is_initialized st) then None
  else
    let key_lower := lower k in
    match dict_get (_memes st) key_lower with
    | Some meme => Some meme
    | None => scan key_lower (_memes st)
    end.

(** [get_all_memes()] *)
Definition get_all_memes (st : MemeManager) : list Meme :=
  if is_initialized st then _meme_list st else [].

(** [get_random_meme()]; [randbelow n] is the index [random.choice] draws for
    a sequence of length [n], kept below [n] by the residue. *)
Definition get_random_meme (randbelow : nat -> nat) (st : MemeManager) : option Meme :=
  if negb (is_initialized st) || match _meme_list st with [] => true | _ => false end
  then None
  else
    let n := length (_meme_list st) in
    _meme_list st !! (randbelow n mod n).

(** ** Observing a run *)

Definition result {A} (run : outcome A * table * list event) : outcome A := run.1.1.
Definition table_after {A} (run : outcome A * table * list event) : table := run.1.2.
Definition trace {A} (run : outcome A * table * list event) : list event := run.2.

Fixpoint count (p : event -> bool) (tr : list event) : nat :=
  match tr with
  | [] => 0
  | ev :: tr' => (if p ev then 1 else 0) + count p tr'
  end.

Definition callee_code (f : callee) : nat :=
  match f with
  | f_get_avatar_description => 0
  | f_set_avatar_description => 1
  | m_get_existing_description => 2
  | m_fetch_avatar => 3
  | m_analyze_avatar => 4
  | m_store_description => 5
  end.

(** How many times [f] was entered. *)
Definition calls (f : callee) (tr : list event) : nat :=
  count (fun ev => match ev with
                   | Called g => Nat.eqb (callee_code f) (callee_code g)
                   | _ => false
                   end) tr.

(** How many rows the run tried to write. *)
Definition db_writes (tr : list event) : nat :=
  count (fun ev => match ev with
                   | Db (Update _) | Db (Insert _) => true
                   | _ => false
                   end) tr.

(** How many requests went to the avatar server and to the vision model. *)
Definition http_requests (tr : list event) : nat :=
  count (fun ev => match ev with Http _ => true | _ => false end) tr.

Definition model_requests (tr : list event) : nat :=
  count (fun ev => match ev with Llm _ _ => true | _ => false end) tr.

(** The rows of one person. *)
Definition records (pid : string) (t : table) : nat :=
  length (List.filter (has_person pid) t).

(** What the database guarantees of the table: the primary key and the
    unique index on [person_id]. *)
Definition table_ok (t : table) : Prop :=
  NoDup (id <$> t) /\ NoDup (person_id <$> t).

(** No cached description stops the call: the update is forced, or the
    lookup of the existing description gives nothing. *)
Definition cache_miss (uid plat : string) (force_update : bool) (w : World) (t : table) : Prop :=
  force_update = true \/
  exists v, result (_get_existing_description uid plat w t) = Returns v /\ opt_truthy v = false.

(** A response made of white space only. *)
Definition all_space (s : string) : bool := forallb isspace (chars s).

(** The keys of a [dict]. *)
Definition dict_keys {V} (d : list (string * V)) : list string := fst <$> d.

(** The vision model gives no usable answer to the request
    [_analyze_avatar] makes for [avatar_data] and [custom_prompt]: the
    registry raises, it has no model ["vision_general"], the request raises,
    or the response is empty ([None] or the empty string). *)
Inductive no_vision_answer (w : World) (avatar_data : list byte)
    (custom_prompt : option string) : Prop :=
| registry_raises e :
    get_available_models w = Raises e ->
    no_vision_answer w avatar_data custom_prompt
| model_not_configured models :
    get_available_models w = Returns models ->
    models !! "vision_general" = None ->
    no_vision_answer w avatar_data custom_prompt
| model_call_raises models vision_model e :
    get_available_models w = Returns models ->
    models !! "vision_general" = Some vision_model ->
    generate_response_for_image w vision_model "avatar_analysis"
      (prompt_or_default custom_prompt) (b64encode avatar_data) "jpeg" = Raises e ->
    no_vision_answer w avatar_data custom_prompt
| model_response_empty models vision_model response :
    get_available_models w = Returns models ->
    models !! "vision_general" = Some vision_model ->
    generate_response_for_image w vision_model "avatar_analysis"
      (prompt_or_default custom_prompt) (b64encode avatar_data) "jpeg" = Returns response ->
    opt_truthy response = false ->
    no_vision_answer w avatar_data custom_prompt.

(** The vision model answers the request of [_analyze_avatar] with the
    non-empty text [response]. *)
Definition vision_answer (w : World) (avatar_data : list byte)
    (custom_prompt : option string) (response : string) : Prop :=
  exists models vision_model,
    get_available_models w = Returns models /\
    models !! "vision_general" = Some vision_model /\
    generate_response_for_image w vision_model "avatar_analysis"
      (prompt_or_default custom_prompt) (b64encode avatar_data) "jpeg"
      = Returns (Some response) /\
    response <> "".

(** What is left of [analyze_and_store] once the avatar is fetched: the
    [try] block, over the two methods it calls. *)
Definition try_block (analyze : list byte -> option string -> M (option string))
    (store : string -> string -> string -> M bool)
    (uid plat : string) (data : list byte) (custom_prompt : option string) :
    M (bool * string) :=
  try_except
    (description <- analyze data custom_prompt ;;
     match description with
     | Some (String c s) =>
         success <- store uid plat (String c s) ;;
         if negb success then ret (false, msg_store_failed)
         else ret (true, String c s)
     | _ => ret (false, msg_analysis_failed)
     end)
    (fun e => ret (false, e)).

(** ** More Python built-ins *)

From Stdlib Require DecimalString.

(** [s[:n]]: the first [n] characters, each with the bytes that continue
    it. *)
Fixpoint str_take (n : nat) (s : string) : string :=
  match s with
  | EmptyString => EmptyString
  | String c s' =>
      if is_continuation c then String c (str_take n s')
      else match n with
           | 0 => EmptyString
           | S n' => String c (str_take n' s')
           end
  end.

(** [s.split()]: the words between runs of white space; [word] is the word
    being read. *)
Fixpoint split_from (word : string) (l : list string) : list string :=
  match l with
  | [] => match word with EmptyString => [] | _ => [word] end
  | ch :: l' =>
      if isspace ch
      then match word with
           | EmptyString => split_from EmptyString l'
           | _ => word :: split_from EmptyString l'
           end
      else split_from (word +:+ ch) l'
  end.

Definition split (s : string) : list string := split_from EmptyString (chars s).


(** [a or b] on two optional strings. *)
Definition py_or (a b : option string) : option string :=
  if opt_truthy a then a else b.

(** ** [plugin_api.py] *)

(** [get_head_description_for_prompt(person_id)] *)
Definition get_head_description_for_prompt (pid : string) : M (option string) :=
  try_except
    (description <- get_avatar_description pid ;;
     ret description)
    (fun _ => ret None).

(** [format_head_description_for_relation(head_description)] *)
Definition format_head_description_for_relation (description : option string) : string :=
  match description with
  | Some (String c s) => "ta的头像印象：" +:+ String c s
  | _ => ""
  end.

(** ** [plugin.py]: the commands and the actions *)

(** What a component sends to the chat with [send_text] and [send_image];
    both are taken to deliver what they are given. *)
Inductive message : Type :=
| Text (text : string)
| Image (image_base64 : string).

(** [k] is a name of [meme] in the index: its key, or one of its keywords in
    lower case. *)
Definition owns (k : string) (meme : Meme) : bool :=
  String.eqb (key meme) k || existsb (fun keyword => String.eqb (lower keyword) k) (keywords meme).

(** The call of a template, [meme(images=..., texts=..., args=...)]: the
    content of the buffer it returns, or what it raises. *)
Definition Renderer : Type :=
  Meme -> list (list byte) -> list string -> list (string * string) -> outcome (list byte).

(** [MemeManager.generate(meme, images, texts, args)] *)
Definition generate (render : Renderer) (meme : Meme)
    (images : option (list (list byte))) (texts : option (list string))
    (args : option (list (string * string))) : option (list byte) :=
  match render meme (default [] images) (default [] texts) (default [] args) with
  | Returns result => Some result
  | Raises _ => None
  end.







(** [MemeGenerateCommand.execute()]; [matched_meme_key] and [matched_params]
    are the two groups of the command pattern, [None] when absent from
    [matched_groups]. *)
Definition MemeGenerateCommand_execute (h : Host) (render : Renderer) (st : MemeManager)
    (matched_meme_key matched_params : option string) :
    (bool * option string * bool) * list message * MemeManager :=
  let meme_mgr := get_instance h st in
  if negb (is_initialized meme_mgr)
  then ((false, Some "未安装meme-generator", true), [Text "表情包功能未启用"], meme_mgr)
  else
    let meme_key := strip (default "" matched_meme_key) in
    let params_str := strip (default "" matched_params) in
    match find_meme meme_mgr meme_key with
    | None =>
        ((false, Some ("未找到: " +:+ meme_key), true),
         [Text ("未找到表情包: " +:+ meme_key +:+ nl +:+ "使用 /menu 查看可用表情包")],
         meme_mgr)
    | Some meme =>
        let texts := if str_truthy params_str then split params_str else [] in
        match generate render meme None (Some texts) None with
        | Some result =>
            ((true, Some ("已生成" +:+ meme_key), true), [Image (b64encode result)], meme_mgr)
        | None => ((false, Some "生成失败", true), [Text "生成失败"], meme_mgr)
        end
    end.

(** The value of [action_data["texts"]]: a list of strings, or any other
    value, given by its truth value and its [str()]. *)
Inductive texts_value : Type :=
| TextsList (texts : list string)
| TextsOther (truthy : bool) (str_ : string).

(** [AutoMemeAction.execute()]; [meme_key] and [texts] are the two entries of
    [action_data] after their defaults. *)
Definition AutoMemeAction_execute (h : Host) (render : Renderer) (randbelow : nat -> nat)
    (st : MemeManager) (meme_key : string) (texts : texts_value) :
    (bool * string) * list message * MemeManager :=
  let meme_mgr := get_instance h st in
  if negb (is_initialized meme_mgr)
  then ((false, "未安装meme-generator"), [], meme_mgr)
  else
    let texts1 :=
      match texts with
      | TextsList l => l
      | TextsOther truthy str_ => if truthy then [str_] else []
      end in
    let meme :=
      if str_truthy meme_key then find_meme meme_mgr meme_key
      else get_random_meme randbelow meme_mgr in
    match meme with
    | None => ((false, "没有可用的表情包"), [], meme_mgr)
    | Some meme =>
        match generate render meme None (Some texts1) None with
        | Some result =>
            ((true, "发送了表情包: " +:+ key meme), [Image (b64encode result)], meme_mgr)
        | None => ((false, "生成失败"), [], meme_mgr)
        end
    end.

(** [AnalyzeAvatarAction.execute()]; [action_user_id] is
    [action_data.get("user_id")], [self_user_id] and [self_platform] the
    attributes of the action, [force_update] the truth value of the entry of
    [action_data]. *)
Definition AnalyzeAvatarAction_execute (action_user_id self_user_id : option string)
    (self_platform : string) (force_update : bool) : M (bool * string) :=
  try_except
    (match py_or action_user_id self_user_id with
     | Some (String c s) =>
         r <- analyze_and_store (String c s) self_platform force_update None ;;
         let '(success, description) := r in
         if success
         then ret (true, "头像分析完成: " +:+ str_take 50 description +:+ "...")
         else ret (false, "头像分析失败")
     | _ => ret (false, "缺少用户ID")
     end)
    (fun e => ret (false, "分析失败: " +:+ e)).


(** ** Words and the white space between them *)

(** A word: a text that is not empty, starts with a character and has no
    white space. *)
Definition is_word (w : string) : Prop :=
  w <> "" /\ continues w = false /\ Forall (fun ch => isspace ch = false) (chars w).

(** The text made of words, each after its white space, and of the white
    space [trail] after the last. *)
Fixpoint layout (pieces : list (string * string)) (trail : string) : string :=
  match pieces with
  | [] => trail
  | (gap, word) :: pieces' => gap +:+ word +:+ layout pieces' trail
  end.

(** ** A measure of texts

    Every byte weighs at least one, and a character weighs three, or four
    when it has four bytes; [lower] never makes a text lighter. *)



(** The chunks of a text cut at its characters: each is one character, and
    each but the first starts a character. *)
Definition boundaries (l : list string) : Prop :=
  Forall (fun ch => chars ch = [ch]) l /\ Forall (fun ch => continues ch = false) (tail l).
(** ** Concrete inputs *)

(** A host where everything works: the identity service maps a user to
    ["p_" + user_id], the avatar server answers 200 with three bytes, the
    registry has the vision model, and the model answers [answer]. *)
Definition world_answering (answer : outcome (option string)) : World :=
  mkWorld
    (fun _ plat uid => Returns (Some ("p_" +:+ uid)))
    (fun _ _ => None)
    1700000000.5%float
    (fun url => Returns (mkResponse 200 (Returns [x4d; x61; x6e]%byte)))
    (Returns {[ "vision_general" := mkTaskConfig ["vlm"] ]})
    (fun _ _ _ _ _ => answer).

Definition world_ok : World := world_answering (Returns (Some " a cat avatar ")).

(** The same host with a database that raises on every statement. *)
Definition world_db_down : World :=
  mkWorld
    (get_person_id world_ok)
    (fun _ _ => Some "OperationalError")
    (time_time world_ok)
    (session_get world_ok)
    (get_available_models world_ok)
    (generate_response_for_image world_ok).

(** A table with the description of one person. *)
Definition row_u1 : AvatarDescription :=
  mkAvatarDescription 1 "p_u1" "qq" "u1" (Some "a cat avatar")
    (Some 1600000000.25%float) None.

(** A host whose vision model answers with three spaces. *)
Definition world_blank : World := world_answering (Returns (Some "   ")).

(** A host whose vision model answers with an ideographic space and a
    no-break space. *)
Definition world_wide_blank : World :=
  world_answering (Returns (Some (chr 0x3000 +:+ chr 0xA0))).

(** A host whose vision model raises. *)
Definition world_model_down : World := world_answering (Raises "timeout").

(** An analysis step that raises, in place of [_analyze_avatar]. *)
Definition analyze_raising (e : string) : list byte -> option string -> M (option string) :=
  fun _ _ => raise e.

(** The catalog of scenario C. *)
Definition doge : Meme := mkMeme "doge" ["dog"; "funny_dog"] ["animal"].
Definition cat_meme : Meme := mkMeme "cat_meme" ["cat"] ["animal"].

(** A host on which [meme_generator] loads and lists [memes]. *)
Definition host_listing (memes : list Meme) : Host :=
  mkHost true true true None false true (Returns tt) (Returns memes).

(** A host without [meme_generator], where [pip] fails to install it. *)
Definition host_without_generator : Host :=
  mkHost false false false None false false (Returns tt) (Returns []).

(** A template whose key has a capital letter, and one whose key contains
    the same letters in lower case. *)
Definition Doge : Meme := mkMeme "Doge" [] ["animal"].
Definition xdogex : Meme := mkMeme "xdogex" [] ["animal"].

(** Templates with accented names: a key with a capital letter and a
    keyword with one, and two keys of which the second contains the first
    in lower case. *)
Definition ecole : Meme := mkMeme "École" ["Élève"] ["school"].
Definition de_upper : Meme := mkMeme "DÉ" [] ["game"].
Definition xdex : Meme := mkMeme "xdéx" [] ["game"].
(** A template call that returns one byte whatever it is given, and one
    that raises. *)
Definition render_one_byte : Renderer := fun _ _ _ _ => Returns [x4d]%byte.
Definition render_raising : Renderer := fun _ _ _ _ => Raises "render failed".

(** * Properties *)

(** ** Python built-ins *)

Example lower_example : lower "DoGe_1" = "doge_1".
Proof. reflexivity. Qed.

(** Letters beyond [A]..[Z], the two characters of U+0130, and the final
    sigma. *)
Example lower_unicode_example :
  lower "École ДА ＡＢ" = "école да ａｂ" /\
  lower (chr 0x130) = "i" +:+ chr 0x307 /\
  lower "ΟΔΟΣ ΣΟΦΟΣ" = "οδος σοφος" /\
  has_upper "École" = true /\ has_upper "école" = false.
Proof. repeat split. Qed.

Example strip_example : strip (" a b" +:+ nl +:+ " ") = "a b".
Proof. reflexivity. Qed.

(** White space beyond the space and the line feed: the no-break space,
    the ideographic space, the line separator. *)
Example strip_unicode_example :
  strip (chr 0x3000 +:+ "a" +:+ chr 0xA0 +:+ "b" +:+ chr 0x2028) = "a" +:+ chr 0xA0 +:+ "b" /\
  strip (chr 0x3000 +:+ chr 0x85) = "" /\
  all_space (chr 0x3000 +:+ chr 0x85) = true.
Proof. repeat split. Qed.

Example chars_example : chars "aÉ√b" = ["a"; "É"; "√"; "b"].
Proof. reflexivity. Qed.

Example b64encode_example :
  b64encode [x4d; x61; x6e; x4d; x61]%byte = "TWFuTWE=" /\ b64encode [x4d]%byte = "TQ==".
Proof. split; reflexivity. Qed.

Example str_in_example :
  str_in "og" "doge" = true /\ str_in "gd" "doge" = false /\ str_in "" "" = true.
Proof. repeat split. Qed.

(** *** Texts as lists of characters *)

Lemma string_app_cons c s1 s2 : String c s1 +:+ s2 = String c (s1 +:+ s2).
Proof. reflexivity. Qed.

Lemma string_app_nil s : s +:+ "" = s.
Proof.
  induction s as [|c s IH]; [reflexivity | rewrite string_app_cons, IH; reflexivity].
Qed.

Lemma string_app_assoc s1 s2 s3 : (s1 +:+ s2) +:+ s3 = s1 +:+ (s2 +:+ s3).
Proof.
  induction s1 as [|c s1 IH]; [reflexivity | rewrite !string_app_cons, IH; reflexivity].
Qed.

Lemma string_app_empty s1 s2 : s1 +:+ s2 = "" -> s1 = "" /\ s2 = "".
Proof. destruct s1; [auto | rewrite string_app_cons; discriminate]. Qed.

Lemma concat_empty_cons w l : String.concat "" (w :: l) = w +:+ String.concat "" l.
Proof. destruct l; [symmetry; apply string_app_nil | reflexivity]. Qed.

Lemma concat_empty_app l1 l2 :
  String.concat "" (l1 ++ l2) = String.concat "" l1 +:+ String.concat "" l2.
Proof.
  induction l1 as [|w l1 IH]; [reflexivity|].
  rewrite <- app_comm_cons, !concat_empty_cons, IH, string_app_assoc. reflexivity.
Qed.

(** A list of non-empty texts put together is empty only when the list
    is. *)
Lemma concat_empty_nil l :
  Forall (fun ch => ch <> "") l -> String.concat "" l = "" -> l = [].
Proof.
  destruct l as [|w l]; [reflexivity|]. intros H. apply Forall_cons in H as [Hw _].
  rewrite concat_empty_cons. intros E. apply string_app_empty in E as [E _]. contradiction.
Qed.

(** The first character of a text starts as the text does. *)
Lemma chars_head s :
  match chars s with
  | [] => s = ""
  | ch :: _ => continues ch = continues s
  end.
Proof.
  destruct s as [|c s]; [reflexivity|]. simpl.
  destruct (chars s) as [|ch rest]; [reflexivity|].
  destruct (continues ch); reflexivity.
Qed.

(** The characters of a text put together are the text. *)
Lemma concat_chars s : String.concat "" (chars s) = s.
Proof.
  induction s as [|c s IH]; [reflexivity|]. simpl.
  destruct (chars s) as [|ch rest] eqn:E.
  - pose proof (chars_head s) as H. rewrite E in H. subst s. reflexivity.
  - rewrite concat_empty_cons in IH.
    destruct (continues ch).
    + rewrite concat_empty_cons, string_app_cons, IH. reflexivity.
    + rewrite !concat_empty_cons. simpl. rewrite IH. reflexivity.
Qed.

Lemma chars_boundaries s : boundaries (chars s).
Proof.
  unfold boundaries. induction s as [|c s [IH1 IH2]]; simpl; [split; constructor|].
  destruct (chars s) as [|ch rest] eqn:E; [split; repeat constructor|].
  apply Forall_cons in IH1 as [Hch Hrest].
  destruct (continues ch) eqn:Hc; simpl.
  - split; [|exact IH2]. constructor; [|exact Hrest].
    simpl. rewrite Hch, Hc. reflexivity.
  - split; [repeat constructor; assumption|]. constructor; assumption.
Qed.

Lemma chars_nonempty s : Forall (fun ch => ch <> "") (chars s).
Proof.
  destruct (chars_boundaries s) as [H _]. eapply Forall_impl; [exact H|].
  intros ch Hch ->. discriminate Hch.
Qed.

(** A text that starts a character adds its characters to those of the
    text before it. *)
Lemma chars_app s1 s2 :
  continues s2 = false -> chars (s1 +:+ s2) = chars s1 ++ chars s2.
Proof.
  intros H2. induction s1 as [|c s1 IH]; [reflexivity|].
  rewrite string_app_cons. simpl. rewrite IH.
  destruct (chars s1) as [|ch rest] eqn:E; simpl.
  - pose proof (chars_head s2) as Hh.
    destruct (chars s2) as [|ch2 rest2]; [reflexivity|].
    rewrite Hh, H2. reflexivity.
  - destruct (continues ch); reflexivity.
Qed.

Lemma boundaries_cons ch l :
  boundaries (ch :: l) -> chars ch = [ch] /\ continues (String.concat "" l) = false /\
                          boundaries l.
Proof.
  intros [H1 H2]. apply Forall_cons in H1 as [Hch Hl]. simpl in H2.
  split; [exact Hch|]. split.
  - destruct l as [|x l]; [reflexivity|]. apply Forall_cons in H2 as [Hx _].
    apply Forall_cons in Hl as [Hxc _].
    rewrite concat_empty_cons. destruct x; [discriminate Hxc | exact Hx].
  - split; [exact Hl|]. destruct l; [constructor|]. simpl.
    apply Forall_cons in H2 as [_ H2]. exact H2.
Qed.

(** Chunks cut at the characters are the characters of what they make. *)
Lemma chars_concat l : boundaries l -> chars (String.concat "" l) = l.
Proof.
  induction l as [|ch l IH]; [reflexivity|]. intros H.
  apply boundaries_cons in H as (Hch & Hc & Hl).
  rewrite concat_empty_cons, chars_app, Hch, IH by assumption. reflexivity.
Qed.

Lemma boundaries_app_r l1 l2 : boundaries (l1 ++ l2) -> boundaries l2.
Proof.
  induction l1 as [|ch l1 IH]; [auto|]. intros H. apply IH.
  rewrite <- app_comm_cons in H. apply boundaries_cons in H as (_ & _ & H). exact H.
Qed.

Lemma boundaries_app_l l1 l2 : boundaries (l1 ++ l2) -> boundaries l1.
Proof.
  intros [H1 H2]. apply Forall_app in H1 as [H1 _]. split; [exact H1|].
  destruct l1 as [|ch l1]; [constructor|]. simpl in *.
  apply Forall_app in H2 as [H2 _]. exact H2.
Qed.

(** *** White space *)

Lemma lstrip_chars_spec l :
  exists p, l = p ++ lstrip_chars l /\ Forall (fun ch => isspace ch = true) p.
Proof.
  induction l as [|ch l (p & IH & Hp)]; [exists []; split; [reflexivity | constructor]|].
  simpl. destruct (isspace ch) eqn:E.
  - exists (ch :: p). split; [rewrite <- app_comm_cons, <- IH; reflexivity|].
    constructor; assumption.
  - exists []. split; [reflexivity | constructor].
Qed.

Lemma rstrip_chars_spec l :
  exists q, l = rstrip_chars l ++ q /\ Forall (fun ch => isspace ch = true) q.
Proof.
  unfold rstrip_chars. destruct (lstrip_chars_spec (rev l)) as (p & E & Hp).
  exists (rev p). split; [|apply Forall_rev, Hp].
  rewrite <- rev_app_distr, <- E, rev_involutive. reflexivity.
Qed.

Lemma lstrip_chars_nil l : lstrip_chars l = [] <-> forallb isspace l = true.
Proof.
  induction l as [|ch l IH]; simpl; [tauto|].
  destruct (isspace ch); simpl; [exact IH | split; discriminate].
Qed.

Lemma forallb_rev {A} (f : A -> bool) l : forallb f (rev l) = forallb f l.
Proof.
  induction l as [|x l IH]; [reflexivity|]. simpl.
  rewrite forallb_app, IH. simpl. rewrite andb_true_r, andb_comm. reflexivity.
Qed.

Lemma rstrip_chars_nil l : rstrip_chars l = [] <-> forallb isspace l = true.
Proof.
  unfold rstrip_chars. rewrite <- (forallb_rev isspace l), <- lstrip_chars_nil.
  split; [|intros ->; reflexivity].
  intros H. apply (f_equal (@rev string)) in H. rewrite rev_involutive in H. exact H.
Qed.

(** What is left of a text stripped on the left is white space only when
    the text is. *)
Lemma lstrip_chars_all_space l :
  forallb isspace (lstrip_chars l) = forallb isspace l.
Proof.
  induction l as [|ch l IH]; [reflexivity|]. simpl.
  destruct (isspace ch) eqn:E; simpl; [exact IH | rewrite E; reflexivity].
Qed.

Lemma strip_chars_boundaries s : boundaries (rstrip_chars (lstrip_chars (chars s))).
Proof.
  destruct (lstrip_chars_spec (chars s)) as (p & Ep & _).
  destruct (rstrip_chars_spec (lstrip_chars (chars s))) as (q & Eq & _).
  pose proof (chars_boundaries s) as H. rewrite Ep in H. apply boundaries_app_r in H.
  rewrite Eq in H. apply boundaries_app_l in H. exact H.
Qed.

(** The characters of [strip s] are those of [s] between its outer white
    space. *)
Lemma chars_strip s : chars (strip s) = rstrip_chars (lstrip_chars (chars s)).
Proof. apply chars_concat, strip_chars_boundaries. Qed.

(** [strip] gives the empty string on white space only. *)
Lemma strip_empty s : strip s = "" <-> all_space s = true.
Proof.
  unfold all_space. rewrite <- lstrip_chars_all_space, <- rstrip_chars_nil. split.
  - intros H. rewrite <- chars_strip, H. reflexivity.
  - intros H. unfold strip. rewrite H. reflexivity.
Qed.

(** *** The weight of texts *)










(** *** Lower case *)






(** Quotient and remainder by 64, the size of a continuation byte. *)
Lemma split64 c :
  exists q r, c = (64 * q + r)%N /\ (r < 64)%N /\ (c / 64)%N = q /\ (c mod 64)%N = r.
Proof.
  exists (c / 64)%N, (c mod 64)%N. split; [apply N.div_mod; discriminate|].
  split; [apply N.mod_lt; discriminate | split; reflexivity].
Qed.

Lemma continuation_byte r :
  (r < 64)%N ->
  Ascii.N_of_ascii (Ascii.ascii_of_N (128 + r)) = (128 + r)%N /\
  is_continuation (Ascii.ascii_of_N (128 + r)) = true /\
  six_bits (Ascii.ascii_of_N (128 + r)) = r.
Proof.
  intros Hr. assert (E : Ascii.N_of_ascii (Ascii.ascii_of_N (128 + r)) = (128 + r)%N)
    by (apply Ascii.N_ascii_embedding; lia).
  unfold is_continuation, six_bits. rewrite E. split; [reflexivity|]. split; [|lia].
  apply andb_true_intro. split; [apply N.leb_le | apply N.ltb_lt]; lia.
Qed.

Lemma lead_byte base q :
  (192 <= base)%N -> (base + q < 256)%N ->
  Ascii.N_of_ascii (Ascii.ascii_of_N (base + q)) = (base + q)%N /\
  is_continuation (Ascii.ascii_of_N (base + q)) = false.
Proof.
  intros Hb Hq. assert (E : Ascii.N_of_ascii (Ascii.ascii_of_N (base + q)) = (base + q)%N)
    by (apply Ascii.N_ascii_embedding; lia).
  split; [exact E|]. unfold is_continuation. rewrite E.
  apply andb_false_intro2, N.ltb_ge. lia.
Qed.

(** [chr] gives one character, and [ord] finds its code point again. *)
Lemma chr_char c :
  (c < 0x110000)%N ->
  chars (chr c) = [chr c] /\ continues (chr c) = false /\ code_point (chr c) = Some c.
Proof.
  intros Hc. unfold chr.
  destruct (N.ltb_spec c 0x80) as [H1|H1].
  { assert (E : Ascii.N_of_ascii (Ascii.ascii_of_N c) = c)
      by (apply Ascii.N_ascii_embedding; lia).
    split; [reflexivity|]. split.
    - simpl. unfold is_continuation. rewrite E. apply andb_false_intro1, N.leb_gt. lia.
    - unfold code_point. rewrite E. unfold utf8_len.
      destruct (N.ltb_spec c 0x80); [reflexivity | lia]. }
  destruct (split64 c) as (q & r0 & Ec & Hr0 & Eq & Er0). rewrite Er0.
  destruct (continuation_byte r0 Hr0) as (N0 & C0 & S0).
  destruct (N.ltb_spec c 0x800) as [H2|H2].
  { rewrite Eq. destruct (lead_byte 192 q) as (NL & CL); [lia | lia |].
    split; [simpl; rewrite C0; reflexivity|]. split; [exact CL|].
    unfold code_point. rewrite NL, C0, S0.
    replace ((192 <=? 192 + q)%N && (192 + q <? 224)%N) with true
      by (symmetry; apply andb_true_intro; split; [apply N.leb_le | apply N.ltb_lt]; lia).
    replace ((192 + q - 192) * 64 + r0)%N with c by lia.
    unfold utf8_len. destruct (N.ltb_spec c 0x80); [lia|].
    destruct (N.ltb_spec c 0x800); [reflexivity | lia]. }
  destruct (split64 q) as (q1 & r1 & Eq1 & Hr1 & Eqq & Er1).
  destruct (continuation_byte r1 Hr1) as (N1 & C1 & S1).
  assert (E4096 : (c / 4096)%N = q1).
  { change 4096%N with (64 * 64)%N. rewrite <- N.Div0.div_div, Eq. exact Eqq. }
  destruct (N.ltb_spec c 0x10000) as [H3|H3].
  { rewrite E4096, Eq, Er1. destruct (lead_byte 224 q1) as (NL & CL); [lia | lia |].
    split; [simpl; rewrite C0; simpl; rewrite C1; reflexivity|]. split; [exact CL|].
    unfold code_point. rewrite NL, C0, C1, S0, S1.
    replace ((224 <=? 224 + q1)%N && (224 + q1 <? 240)%N) with true
      by (symmetry; apply andb_true_intro; split; [apply N.leb_le | apply N.ltb_lt]; lia).
    replace ((224 + q1 - 224) * 4096 + r1 * 64 + r0)%N with c by lia.
    unfold utf8_len. destruct (N.ltb_spec c 0x80); [lia|].
    destruct (N.ltb_spec c 0x800); [lia|].
    destruct (N.ltb_spec c 0x10000); [reflexivity | lia]. }
  destruct (split64 q1) as (q2 & r2 & Eq2 & Hr2 & Eqq1 & Er2).
  destruct (continuation_byte r2 Hr2) as (N2 & C2 & S2).
  assert (E262144 : (c / 262144)%N = q2).
  { change 262144%N with (4096 * 64)%N. rewrite <- N.Div0.div_div, E4096. exact Eqq1. }
  rewrite E262144, E4096, Er2, Eq, Er1.
  destruct (lead_byte 240 q2) as (NL & CL); [lia | lia |].
  split; [simpl; rewrite C0; simpl; rewrite C1; simpl; rewrite C2; reflexivity|]. split; [exact CL|].
  unfold code_point. rewrite NL, C0, C1, C2, S0, S1, S2.
  replace ((240 <=? 240 + q2)%N && (240 + q2 <? 248)%N) with true
    by (symmetry; apply andb_true_intro; split; [apply N.leb_le | apply N.ltb_lt]; lia).
  replace ((240 + q2 - 240) * 262144 + r2 * 4096 + r1 * 64 + r0)%N with c by lia.
  unfold utf8_len. destruct (N.ltb_spec c 0x80); [lia|].
  destruct (N.ltb_spec c 0x800); [lia|].
  destruct (N.ltb_spec c 0x10000); [lia|].
  destruct (N.ltb_spec c 0x110000); [reflexivity | lia].
Qed.

(** The lower-case form of a code point starts with another code
    point. *)
Lemma to_lower_full_other cp l :
  to_lower_full cp = Some l ->
  exists c l', l = c :: l' /\ c <> cp /\ (c < 0x110000)%N /\ (l' = [] \/ l' = [0x307%N]).
Proof.
  unfold to_lower_full. destruct (N.eqb_spec cp 0x130) as [->|_].
  { intros [= <-]. eexists _, _. split; [reflexivity|]. split; [discriminate|].
    split; [reflexivity | right; reflexivity]. }
  destruct (find _ lower_table) as [r|] eqn:E; [|discriminate]. intros [= <-].
  eexists _, _. split; [reflexivity|].
  apply find_some in E as [Hin Hr].
  assert (Htable : forallb (fun r => negb (r.2 =? r.1.1.1) && (r.1.1.1 <=? r.1.1.2)
                                     && (r.2 + (r.1.1.2 - r.1.1.1) <? 0x110000))%N
                     lower_table = true) by (vm_compute; reflexivity).
  rewrite forallb_forall in Htable. specialize (Htable r Hin).
  apply andb_prop in Hr as [Hr _]. apply andb_prop in Hr as [Hlo Hhi].
  apply N.leb_le in Hlo. apply N.leb_le in Hhi.
  apply andb_prop in Htable as [Ht Hmax]. apply andb_prop in Ht as [Hne Hle].
  apply negb_true_iff, N.eqb_neq in Hne. apply N.leb_le in Hle. apply N.ltb_lt in Hmax.
  split; [lia|]. split; [lia | left; reflexivity].
Qed.

(** A character without a lower-case form stays as it is. *)
Lemma lower_char_fixed before rest ch :
  is_upper ch = false -> lower_char before rest ch = ch.
Proof.
  unfold is_upper, lower_char. destruct (code_point ch) as [cp|]; [|reflexivity].
  destruct (N.eqb_spec cp 0x3A3) as [->|_]; [discriminate|].
  destruct (to_lower_full cp); [discriminate | reflexivity].
Qed.

(** A character with a lower-case form becomes another character, maybe
    with something after it. *)
Lemma lower_char_moves before rest ch :
  is_upper ch = true ->
  exists cp c tl,
    code_point ch = Some cp /\ c <> cp /\ (c < 0x110000)%N /\
    lower_char before rest ch = chr c +:+ tl /\ continues tl = false.
Proof.
  unfold is_upper, lower_char. destruct (code_point ch) as [cp|]; [|discriminate].
  destruct (N.eqb_spec cp 0x3A3) as [->|_].
  { intros _. destruct (before && negb (cased_ahead rest)).
    - exists 0x3A3%N, 0x3C2%N, "". split; [reflexivity|]. split; [discriminate|].
      split; [reflexivity|]. split; [symmetry; apply string_app_nil | reflexivity].
    - exists 0x3A3%N, 0x3C3%N, "". split; [reflexivity|]. split; [discriminate|].
      split; [reflexivity|]. split; [symmetry; apply string_app_nil | reflexivity]. }
  destruct (to_lower_full cp) as [l|] eqn:E; [|discriminate]. intros _.
  apply to_lower_full_other in E as (c & l' & -> & Hne & Hc & [->| ->]).
  - exists cp, c, "". split; [reflexivity|]. split; [exact Hne|]. split; [exact Hc|].
    split; [|reflexivity]. cbn [fmap list_fmap]. symmetry. apply string_app_nil.
  - exists cp, c, (chr 0x307). split; [reflexivity|]. split; [exact Hne|].
    split; [exact Hc|]. split; reflexivity.
Qed.

Lemma string_app_inv_head s s1 s2 : s +:+ s1 = s +:+ s2 -> s1 = s2.
Proof.
  induction s as [|c s IH]; [auto|]. rewrite !string_app_cons. intros [= H]. exact (IH H).
Qed.

Lemma continues_app s1 s2 :
  continues (s1 +:+ s2) = match s1 with EmptyString => continues s2 | _ => continues s1 end.
Proof. destruct s1; reflexivity. Qed.

(** Characters in lower case still start with a character. *)
Lemma lower_chars_continues before l :
  Forall (fun ch => ch <> "" /\ continues ch = false) l ->
  continues (String.concat "" (lower_chars before l)) = false.
Proof.
  intros [|ch l' [Hne Hch] _]; [reflexivity|].
  cbn [lower_chars]. rewrite concat_empty_cons, continues_app.
  destruct (is_upper ch) eqn:E.
  - destruct (lower_char_moves before l' ch E) as (cp & c & tl & _ & _ & Hc & -> & _).
    destruct (chr_char c Hc) as (Hchars & Hcont & _).
    rewrite continues_app. destruct (chr c); [discriminate Hchars | exact Hcont].
  - rewrite (lower_char_fixed before l' ch E). destruct ch; [contradiction | exact Hch].
Qed.

(** Characters that their lower case leaves as they are have no
    upper-case letter among them. *)
Lemma lower_chars_same before l :
  boundaries l -> String.concat "" (lower_chars before l) = String.concat "" l ->
  existsb is_upper l = false.
Proof.
  revert before. induction l as [|ch l IH]; intros before Hb; [reflexivity|].
  pose proof Hb as [_ Htail]. simpl in Htail.
  apply boundaries_cons in Hb as (Hch & Hcont & Hl).
  cbn [lower_chars existsb]. rewrite !concat_empty_cons.
  destruct (is_upper ch) eqn:E; simpl.
  - intros Heq. exfalso.
    destruct (lower_char_moves before l ch E) as (cp & c & tl & Hcp & Hne & Hc & Hlow & Htl).
    destruct (chr_char c Hc) as (Hchars & _ & Hord).
    rewrite Hlow, string_app_assoc in Heq.
    apply (f_equal chars) in Heq.
    rewrite chars_app, (chars_app ch), Hchars, Hch in Heq; [| exact Hcont |].
    + injection Heq as Heq _. rewrite <- Heq, Hord in Hcp. congruence.
    + rewrite continues_app. destruct tl; [|exact Htl].
      apply lower_chars_continues. destruct Hl as [Hl _].
      apply Forall_forall. intros x Hx. split.
      * intros ->. rewrite Forall_forall in Hl. discriminate (Hl _ Hx).
      * rewrite Forall_forall in Htail. exact (Htail _ Hx).
  - rewrite (lower_char_fixed before l ch E). intros Heq.
    apply string_app_inv_head in Heq. exact (IH _ Hl Heq).
Qed.

Lemma lower_chars_fixed before l :
  existsb is_upper l = false -> lower_chars before l = l.
Proof.
  revert before. induction l as [|ch l IH]; intros before; [reflexivity|]. simpl.
  intros H. apply orb_false_elim in H as [Hch Hl].
  rewrite (lower_char_fixed _ _ _ Hch), IH by exact Hl. reflexivity.
Qed.

(** [lower] changes exactly the texts that have an upper-case letter. *)
Lemma lower_changes s : has_upper s = true <-> lower s <> s.
Proof.
  unfold has_upper, lower. split.
  - intros Hup Heq. rewrite <- (concat_chars s) in Heq at 2.
    rewrite (lower_chars_same false (chars s) (chars_boundaries s) Heq) in Hup.
    discriminate Hup.
  - intros Hne. destruct (existsb is_upper (chars s)) eqn:E; [reflexivity|].
    exfalso. apply Hne. rewrite (lower_chars_fixed false _ E). apply concat_chars.
Qed.


(** ** The boundary helpers of the analyzer *)

Ltac run_unfold :=
  unfold result, table_after, trace, bind, try_except, ret, raise, emit, request, time in *.

(** The lookup of the cached description never raises and leaves the table
    alone; it writes nothing and asks neither server. *)
Lemma get_avatar_description_run pid w t :
  get_avatar_description pid w t =
    (Returns (match db_fault w f_get_avatar_description (Select pid) with
              | Some _ => None
              | None => match find (has_person pid) t with
                        | Some r => head_description r
                        | None => None
                        end
              end),
     t, [Called f_get_avatar_description; Db (Select pid)]).
Proof.
  unfold get_avatar_description, get_or_none. run_unfold.
  destruct (db_fault w f_get_avatar_description (Select pid)); reflexivity.
Qed.

Lemma get_existing_description_run uid plat w t :
  exists v tr,
    _get_existing_description uid plat w t = (Returns v, t, tr) /\
    calls m_fetch_avatar tr = 0 /\ calls m_analyze_avatar tr = 0 /\
    calls m_store_description tr = 0 /\ calls f_set_avatar_description tr = 0 /\
    db_writes tr = 0 /\ http_requests tr = 0 /\ model_requests tr = 0.
Proof.
  unfold _get_existing_description.
  unfold bind at 1, emit, try_except, bind, request.
  destruct (get_person_id w m_get_existing_description plat uid) as [[[|c s]|]|e]; simpl;
    try (eexists _, _; split; [reflexivity | repeat split]).
  rewrite get_avatar_description_run. simpl.
  eexists _, _; split; [reflexivity | repeat split].
Qed.

Lemma fetch_avatar_run uid plat w t :
  exists v tr,
    _fetch_avatar uid plat w t = (Returns v, t, tr) /\
    calls m_fetch_avatar tr = 1 /\ calls m_analyze_avatar tr = 0 /\
    calls m_store_description tr = 0 /\ calls f_set_avatar_description tr = 0 /\
    db_writes tr = 0 /\ model_requests tr = 0.
Proof.
  unfold _fetch_avatar. run_unfold.
  destruct (String.eqb plat "discord"); simpl.
  { eexists _, _; split; [reflexivity | repeat split]. }
  destruct (String.eqb plat "qq"); simpl.
  2:{ eexists _, _; split; [reflexivity | repeat split]. }
  destruct (session_get w _) as [resp|e]; simpl.
  2:{ eexists _, _; split; [reflexivity | repeat split]. }
  destruct (status resp =? 200)%Z; simpl.
  2:{ eexists _, _; split; [reflexivity | repeat split]. }
  destruct (read resp); simpl; eexists _, _; (split; [reflexivity | repeat split]).
Qed.
(** ** The table *)

Lemma has_person_eq pid r : has_person pid r = true <-> person_id r = pid.
Proof. unfold has_person. apply String.eqb_eq. Qed.

Lemma has_person_neq pid r : has_person pid r = false <-> person_id r <> pid.
Proof. unfold has_person. apply String.eqb_neq. Qed.

Lemma records_app pid t1 t2 : records pid (t1 ++ t2) = records pid t1 + records pid t2.
Proof. unfold records. rewrite List.filter_app, length_app. reflexivity. Qed.

Lemma records_cons pid r t :
  records pid (r :: t) = (if has_person pid r then 1 else 0) + records pid t.
Proof. unfold records. simpl. destruct (has_person pid r); reflexivity. Qed.

Lemma records_zero pid t : records pid t = 0 <-> pid ∉ person_id <$> t.
Proof.
  induction t as [|r t IH]; simpl.
  - split; [intros _; apply not_elem_of_nil | reflexivity].
  - rewrite records_cons, not_elem_of_cons.
    destruct (has_person pid r) eqn:E.
    + apply has_person_eq in E. split; [discriminate | intros [? _]; congruence].
    + apply has_person_neq in E. simpl. rewrite IH.
      split; [intros ?; split; [congruence | assumption] | tauto].
Qed.

(** The unique index allows one row for a person at most. *)
Lemma records_unique pid t : NoDup (person_id <$> t) -> records pid t <= 1.
Proof.
  induction t as [|r t IH]; simpl; intros H; [unfold records; simpl; lia|].
  apply NoDup_cons in H as [Hnotin Hnd].
  rewrite records_cons. destruct (has_person pid r) eqn:E; [|apply IH, Hnd].
  apply has_person_eq in E. subst pid.
  apply records_zero in Hnotin. lia.
Qed.

Lemma find_none_records pid t : find (has_person pid) t = None <-> records pid t = 0.
Proof.
  induction t as [|r t IH]; simpl; [tauto|].
  rewrite records_cons. destruct (has_person pid r); [split; discriminate|]. exact IH.
Qed.

(** A row found by [get_or_none] is the first one of that person. *)
Lemma find_split pid t r :
  find (has_person pid) t = Some r ->
  person_id r = pid /\
  exists t1 t2, t = t1 ++ r :: t2 /\ records pid t1 = 0.
Proof.
  induction t as [|x t IH]; simpl; [discriminate|].
  destruct (has_person pid x) eqn:E.
  - intros [= ->]. split; [apply has_person_eq, E|]. exists [], t. split; reflexivity.
  - intros H. destruct (IH H) as (Hp & t1 & t2 & -> & Hz). split; [exact Hp|].
    exists (x :: t1), t2. split; [reflexivity|]. rewrite records_cons, E. exact Hz.
Qed.

Lemma replace_row_other r t :
  id r ∉ id <$> t -> replace_row r t = t.
Proof.
  induction t as [|x t IH]; simpl; [reflexivity|].
  rewrite not_elem_of_cons. intros [Hne Hnotin].
  destruct (Z.eqb_spec (id x) (id r)); [congruence|]. f_equal. apply IH, Hnotin.
Qed.

(** With a primary key, [save] rewrites the one row it was read from. *)
Lemma replace_row_split r r' t1 t2 :
  NoDup (id <$> (t1 ++ r :: t2)) -> id r' = id r ->
  replace_row r' (t1 ++ r :: t2) = t1 ++ r' :: t2.
Proof.
  intros Hnd Hid. rewrite fmap_app, fmap_cons in Hnd.
  apply NoDup_app in Hnd as (_ & Hdisj & Hnd).
  apply NoDup_cons in Hnd as [Hnotin _].
  assert (H1 : replace_row r' t1 = t1).
  { apply replace_row_other. rewrite Hid. intros Hin.
    apply (Hdisj _ Hin). apply elem_of_cons. left; reflexivity. }
  assert (H2 : replace_row r' t2 = t2).
  { apply replace_row_other. rewrite Hid. exact Hnotin. }
  unfold replace_row in *. rewrite map_app. simpl.
  rewrite H1, H2. destruct (Z.eqb_spec (id r) (id r')); [reflexivity | congruence].
Qed.

Lemma next_id_above t r : r ∈ t -> (id r < next_id t)%Z.
Proof.
  unfold next_id. induction t as [|x t IH].
  - intros H. apply elem_of_nil in H. contradiction.
  - rewrite elem_of_cons, fmap_cons. cbn [fold_right].
    intros [->|H]; [lia|]. specialize (IH H). lia.
Qed.

Lemma next_id_fresh t : next_id t ∉ id <$> t.
Proof.
  intros H. apply list_elem_of_fmap in H as (r & Heq & Hin).
  apply next_id_above in Hin. lia.
Qed.
(** ** [set_avatar_description] *)

(** The three ways a call of [set_avatar_description] ends: a fault of the
    database, caught, with the table as it was; the row of the person
    rewritten; a row added for a person who had none. *)
Lemma set_avatar_description_cases pid plat uid d url w t :
  let run := set_avatar_description pid plat uid d url w t in
  (result run = Returns false /\ table_after run = t) \/
  (exists r r',
     find (has_person pid) t = Some r /\
     id r' = id r /\ person_id r' = person_id r /\
     platform r' = platform r /\ user_id r' = user_id r /\
     head_description r' = Some d /\ analyzed_at r' = Some (time_time w) /\
     result run = Returns true /\ table_after run = replace_row r' t) \/
  (find (has_person pid) t = None /\
   result run = Returns true /\
   table_after run =
     t ++ [mkAvatarDescription (next_id t) pid plat uid (Some d) (Some (time_time w)) url]).
Proof.
  unfold set_avatar_description, get_or_none, save, create. run_unfold. simpl.
  destruct (db_fault w f_set_avatar_description (Select pid)); simpl; [left; split; reflexivity|].
  destruct (find (has_person pid) t) as [r|] eqn:Hfind; simpl.
  - match goal with |- context [db_fault w _ (Update ?x)] => set (r' := x) end.
    destruct (db_fault w _ (Update r')); simpl; [left; split; reflexivity|].
    destruct (existsb _ t); simpl; [left; split; reflexivity|].
    right; left. exists r, r'. subst r'.
    destruct (opt_truthy url); simpl; repeat split; reflexivity.
  - match goal with |- context [db_fault w _ (Insert ?x)] => set (r' := x) end.
    destruct (db_fault w _ (Insert r')); simpl; [left; split; reflexivity|].
    destruct (existsb _ t); simpl; [left; split; reflexivity|].
    right; right. repeat split; reflexivity.
Qed.

(** It never raises, and it enters no method of the analyzer. *)
Lemma set_avatar_description_returns pid plat uid d url w t :
  exists b t' tr,
    set_avatar_description pid plat uid d url w t = (Returns b, t', tr) /\
    calls f_set_avatar_description tr = 1 /\ db_writes tr <= 1.
Proof.
  unfold set_avatar_description, get_or_none, save, create. run_unfold. simpl.
  destruct (db_fault w f_set_avatar_description (Select pid)); simpl;
    [eexists _, _, _; split; [reflexivity | split; [reflexivity | cbv; lia]]|].
  destruct (find (has_person pid) t) as [r|]; simpl.
  - match goal with |- context [db_fault w _ (Update ?x)] => set (r' := x) end.
    destruct (db_fault w _ (Update r')); simpl;
      [eexists _, _, _; split; [reflexivity | split; [reflexivity | cbv; lia]]|].
    destruct (existsb _ t); simpl;
      eexists _, _, _; (split; [reflexivity | split; [reflexivity | cbv; lia]]).
  - match goal with |- context [db_fault w _ (Insert ?x)] => set (r' := x) end.
    destruct (db_fault w _ (Insert r')); simpl;
      [eexists _, _, _; split; [reflexivity | split; [reflexivity | cbv; lia]]|].
    destruct (existsb _ t); simpl;
      eexists _, _, _; (split; [reflexivity | split; [reflexivity | cbv; lia]]).
Qed.

Lemma table_ok_nil : table_ok [].
Proof. split; constructor. Qed.

Lemma table_ok_records t pid : table_ok t -> records pid t <= 1.
Proof. intros [_ H]. apply records_unique, H. Qed.
Lemma find_app_miss pid t1 t2 :
  records pid t1 = 0 -> find (has_person pid) (t1 ++ t2) = find (has_person pid) t2.
Proof.
  induction t1 as [|x t1 IH]; simpl; [reflexivity|].
  rewrite records_cons. destruct (has_person pid x); [discriminate|]. exact IH.
Qed.

Lemma filter_person_swap p r r' t1 t2 :
  has_person p r = false -> has_person p r' = false ->
  List.filter (has_person p) (t1 ++ r' :: t2) = List.filter (has_person p) (t1 ++ r :: t2).
Proof.
  intros H H'. rewrite !List.filter_app. simpl. rewrite H, H'. reflexivity.
Qed.

(** C5. The table has one row per person at most, and
    [set_avatar_description] keeps it so: for a person without a row a
    successful call adds exactly one, for a person with a row it rewrites
    that row where it stands (same rows, same keys, still one row for the
    person), and every successful call leaves the new description and the
    current clock reading in the row of the person. A call that fails
    changes nothing, and the rows of other persons are never touched. *)
Theorem C5_set_avatar_description_upsert w t pid plat uid d url :
  table_ok t ->
  let run := set_avatar_description pid plat uid d url w t in
  let t' := table_after run in
  (exists b, result run = Returns b) /\
  table_ok t' /\
  (forall p, records p t' <= 1) /\
  (result run = Returns false -> t' = t) /\
  (result run = Returns true ->
     records pid t' = 1 /\
     (records pid t = 0 -> length t' = S (length t)) /\
     (records pid t = 1 -> length t' = length t /\ id <$> t' = id <$> t) /\
     (exists r, find (has_person pid) t' = Some r /\
                head_description r = Some d /\
                analyzed_at r = Some (time_time w)) /\
     (forall p, p <> pid ->
                List.filter (has_person p) t' = List.filter (has_person p) t)).
Proof.
  intros Hok run t'. subst t'.
  assert (Hcases := set_avatar_description_cases pid plat uid d url w t).
  fold run in Hcases. cbv zeta in Hcases.
  destruct Hcases
    as [[Hres Ht]
       | [(r & r' & Hfind & Hid & Hpid & _ & _ & Hd & Hat & Hres & Ht)
         | (Hfind & Hres & Ht)]].
  - (* the call failed *)
    rewrite Hres, Ht. split; [eauto|]. split; [exact Hok|].
    split; [intros p; apply table_ok_records, Hok|].
    split; [reflexivity | discriminate].
  - (* the row of the person is rewritten *)
    destruct (find_split _ _ _ Hfind) as (Hp & t1 & t2 & -> & Hz).
    destruct Hok as [Hids Hpids].
    rewrite (replace_row_split r r' t1 t2 Hids Hid) in Ht.
    assert (Hsame_ids : id <$> (t1 ++ r' :: t2) = id <$> (t1 ++ r :: t2)).
    { rewrite !fmap_app, !fmap_cons, Hid. reflexivity. }
    assert (Hsame_pids : person_id <$> (t1 ++ r' :: t2) = person_id <$> (t1 ++ r :: t2)).
    { rewrite !fmap_app, !fmap_cons, Hpid. reflexivity. }
    assert (Hok' : table_ok (t1 ++ r' :: t2)).
    { split; [rewrite Hsame_ids | rewrite Hsame_pids]; assumption. }
    assert (Hr' : has_person pid r' = true) by (apply has_person_eq; congruence).
    assert (Hone : records pid (t1 ++ r' :: t2) = 1).
    { assert (Hle := table_ok_records _ pid Hok').
      rewrite records_app, records_cons, Hr' in Hle |- *. lia. }
    rewrite Hres, Ht. split; [eauto|]. split; [exact Hok'|].
    split; [intros p; apply table_ok_records, Hok'|].
    split; [discriminate|]. intros _.
    split; [exact Hone|].
    split.
    { intros H0. apply find_none_records in H0. congruence. }
    split.
    { intros _. split; [rewrite !length_app; reflexivity | exact Hsame_ids]. }
    split.
    { exists r'. rewrite find_app_miss by exact Hz. simpl. rewrite Hr'. auto. }
    intros p Hne. apply filter_person_swap; apply has_person_neq; congruence.
  - (* a row is added *)
    set (r := mkAvatarDescription (next_id t) pid plat uid (Some d) (Some (time_time w)) url) in *.
    assert (Hz : records pid t = 0) by (apply find_none_records, Hfind).
    destruct Hok as [Hids Hpids].
    assert (Hok' : table_ok (t ++ [r])).
    { split; rewrite fmap_app; apply NoDup_app; (split; [assumption|]);
        (split; [|apply NoDup_singleton]); intros x Hx Hin;
        apply list_elem_of_singleton in Hin; subst x; simpl in Hx.
      - exact (next_id_fresh t Hx).
      - apply records_zero in Hz. exact (Hz Hx). }
    assert (Hr : has_person pid r = true) by (apply has_person_eq; reflexivity).
    rewrite Hres, Ht. split; [eauto|]. split; [exact Hok'|].
    split; [intros p; apply table_ok_records, Hok'|].
    split; [discriminate|]. intros _.
    split.
    { rewrite records_app, records_cons, Hr, Hz. reflexivity. }
    split.
    { intros _. rewrite length_app. simpl. lia. }
    split.
    { intros H1. congruence. }
    split.
    { exists r. rewrite find_app_miss by exact Hz. simpl. rewrite Hr. auto. }
    intros p Hne. rewrite List.filter_app. simpl.
    assert (has_person p r = false) as -> by (apply has_person_neq; simpl; congruence).
    apply app_nil_r.
Qed.
(** The round trip of the specification: a first write for ["p_u1"] on the
    empty table, then a second one at a later clock reading. *)
Lemma C5_set_avatar_description_upsert_witness :
  let run1 := set_avatar_description "p_u1" "qq" "u1" "a cat avatar" None world_ok [] in
  let run2 :=
    set_avatar_description "p_u1" "qq" "u1" "a dog avatar" None world_ok [row_u1] in
  table_ok [row_u1] /\
  records "p_u1" (table_after run1) = 1 /\
  records "p_u1" (table_after run2) = 1 /\
  length (table_after run2) = 1 /\
  exists r, find (has_person "p_u1") (table_after run2) = Some r /\
            head_description r = Some "a dog avatar" /\
            analyzed_at r = Some (time_time world_ok).
Proof.
  intros run1 run2.
  assert (Hok : table_ok [row_u1]).
  { split; apply NoDup_singleton. }
  destruct (C5_set_avatar_description_upsert world_ok [] "p_u1" "qq" "u1" "a cat avatar" None
              table_ok_nil) as (_ & _ & _ & _ & H1).
  destruct (C5_set_avatar_description_upsert world_ok [row_u1] "p_u1" "qq" "u1" "a dog avatar"
              None Hok) as (_ & _ & _ & _ & H2).
  destruct (H1 eq_refl) as (Hone1 & _).
  destruct (H2 eq_refl) as (Hone2 & _ & Hlen & Hrow & _).
  destruct (Hlen eq_refl) as [Hlen2 _].
  split; [exact Hok|]. split; [exact Hone1|]. split; [exact Hone2|].
  split; [exact Hlen2 | exact Hrow].
Defined.

(** ** [_analyze_avatar] *)



(** The three ways [_analyze_avatar] ends; it never raises, never returns
    [None], and leaves the table alone. *)
Lemma analyze_avatar_cases data prompt w t :
  exists s tr,
    _analyze_avatar data prompt w t = (Returns (Some s), t, tr) /\
    calls m_analyze_avatar tr = 1 /\ calls m_store_description tr = 0 /\
    calls f_set_avatar_description tr = 0 /\ db_writes tr = 0 /\
    ((no_vision_answer w data prompt /\ s = fallback_description) \/
     (exists response, vision_answer w data prompt response /\ s = strip response)).
Proof.
  unfold _analyze_avatar. run_unfold. simpl.
  destruct (get_available_models w) as [models|e] eqn:Hreg; simpl.
  2:{ eexists _, _. split; [reflexivity|]. repeat split.
      left. split; [|reflexivity]. eapply registry_raises; eauto. }
  destruct (models !! "vision_general") as [vm|] eqn:Hvm; simpl.
  2:{ eexists _, _. split; [reflexivity|]. repeat split.
      left. split; [|reflexivity]. eapply model_not_configured; eauto. }
  destruct (generate_response_for_image w vm _ _ _ _) as [[[|c r]|]|e] eqn:Hgen; simpl.
  - eexists _, _. split; [reflexivity|]. repeat split.
    left. split; [|reflexivity]. eapply model_response_empty; eauto.
  - eexists _, _. split; [reflexivity|]. repeat split.
    right. exists (String c r). split; [|reflexivity].
    exists models, vm. split; [exact Hreg|]. split; [exact Hvm|].
    split; [exact Hgen | discriminate].
  - eexists _, _. split; [reflexivity|]. repeat split.
    left. split; [|reflexivity]. eapply model_response_empty; eauto.
  - eexists _, _. split; [reflexivity|]. repeat split.
    left. split; [|reflexivity]. eapply model_call_raises; eauto.
Qed.

(** The two cases exclude each other. *)
Lemma vision_answer_excludes w data prompt response :
  vision_answer w data prompt response -> no_vision_answer w data prompt -> False.
Proof.
  intros (models & vm & Hreg & Hvm & Hgen & Hne) Hno.
  destruct Hno as [e He | m Hm Hn | m v e Hm Hv He | m v r Hm Hv Hr Hemp];
    rewrite Hreg in *; try discriminate.
  - injection Hm as <-. congruence.
  - injection Hm as <-. rewrite Hvm in Hv. injection Hv as <-. congruence.
  - injection Hm as <-. rewrite Hvm in Hv. injection Hv as <-.
    rewrite Hgen in Hr. injection Hr as <-.
    destruct response; [congruence | discriminate Hemp].
Qed.

(** C3. On every input for which the vision model gives no usable answer
    (the registry has no vision model, the registry or the model call
    raises, or the response is empty), [_analyze_avatar] returns the fixed
    fallback description: it does not return [None] and does not raise. *)
Theorem C3_describer_falls_back data prompt w t :
  no_vision_answer w data prompt ->
  result (_analyze_avatar data prompt w t) = Returns (Some fallback_description) /\
  table_after (_analyze_avatar data prompt w t) = t.
Proof.
  intros Hno.
  destruct (analyze_avatar_cases data prompt w t)
    as (s & tr & Hrun & _ & _ & _ & _ & [[_ ->] | (r & Hans & _)]).
  - rewrite Hrun. split; reflexivity.
  - destruct (vision_answer_excludes _ _ _ _ Hans Hno).
Qed.

(** A host whose model call times out. *)
Lemma C3_describer_falls_back_witness :
  no_vision_answer world_model_down [x4d]%byte None /\
  result (_analyze_avatar [x4d]%byte None world_model_down [])
    = Returns (Some fallback_description) /\
  table_after (_analyze_avatar [x4d]%byte None world_model_down []) = [].
Proof.
  assert (H : no_vision_answer world_model_down [x4d]%byte None).
  { eapply (model_call_raises _ _ _ {[ "vision_general" := mkTaskConfig ["vlm"] ]}
              (mkTaskConfig ["vlm"]) "timeout");
      reflexivity. }
  split; [exact H|].
  exact (C3_describer_falls_back [x4d]%byte None world_model_down [] H).
Defined.

(** ** [analyze_and_store] *)

Lemma count_app p tr1 tr2 : count p (tr1 ++ tr2) = count p tr1 + count p tr2.
Proof. induction tr1 as [|ev tr1 IH]; simpl; [reflexivity | rewrite IH; lia]. Qed.

Lemma calls_app f tr1 tr2 : calls f (tr1 ++ tr2) = calls f tr1 + calls f tr2.
Proof. apply count_app. Qed.

Lemma db_writes_app tr1 tr2 : db_writes (tr1 ++ tr2) = db_writes tr1 + db_writes tr2.
Proof. apply count_app. Qed.

Lemma model_requests_app tr1 tr2 :
  model_requests (tr1 ++ tr2) = model_requests tr1 + model_requests tr2.
Proof. apply count_app. Qed.

(** A cached description ends the call at once. *)
Lemma body_cache_hit
    (analyze : list byte -> option string -> M (option string))
    (store : string -> string -> string -> M bool)
    uid plat prompt w t d tr :
  _get_existing_description uid plat w t = (Returns (Some d), t, tr) ->
  str_truthy d = true ->
  analyze_and_store_body _get_existing_description _fetch_avatar analyze store
    uid plat false prompt w t = (Returns (true, d), t, tr).
Proof.
  intros Hrun Hd. unfold analyze_and_store_body. simpl.
  unfold bind at 1. unfold bind at 1. rewrite Hrun. simpl. rewrite Hd. simpl.
  rewrite !app_nil_r. reflexivity.
Qed.

(** Without one the avatar is fetched, and the call stops there when there
    is none. *)
Lemma body_cache_miss
    (analyze : list byte -> option string -> M (option string))
    (store : string -> string -> string -> M bool)
    uid plat force prompt w t :
  cache_miss uid plat force w t ->
  exists tr0 a tr1,
    _fetch_avatar uid plat w t = (Returns a, t, tr1) /\
    calls m_fetch_avatar tr0 = 0 /\ calls m_analyze_avatar tr0 = 0 /\
    calls m_store_description tr0 = 0 /\ calls f_set_avatar_description tr0 = 0 /\
    db_writes tr0 = 0 /\ model_requests tr0 = 0 /\
    analyze_and_store_body _get_existing_description _fetch_avatar analyze store
      uid plat force prompt w t =
      match a with
      | Some (b :: bs) =>
          match try_block analyze store uid plat (b :: bs) prompt w t with
          | (r, t2, tr2) => (r, t2, tr0 ++ tr1 ++ tr2)
          end
      | _ => (Returns (false, msg_avatar_unavailable), t, tr0 ++ tr1)
      end.
Proof.
  intros Hmiss.
  destruct (fetch_avatar_run uid plat w t) as (a & tr1 & Hfetch & _).
  destruct (get_existing_description_run uid plat w t)
    as (v & tr & Hget & Hc1 & Hc2 & Hc3 & Hc4 & Hc5 & _ & Hc6).
  assert (Hstep : exists tr0,
             calls m_fetch_avatar tr0 = 0 /\ calls m_analyze_avatar tr0 = 0 /\
             calls m_store_description tr0 = 0 /\ calls f_set_avatar_description tr0 = 0 /\
             db_writes tr0 = 0 /\ model_requests tr0 = 0 /\
             (if negb force
              then existing <- _get_existing_description uid plat ;;
                   ret (if opt_truthy existing then existing else None)
              else ret None) w t = (Returns None, t, tr0)).
  { destruct force; simpl.
    - exists []. repeat split.
    - exists tr. repeat split; try assumption.
      unfold bind. rewrite Hget. simpl.
      destruct Hmiss as [? | (v' & Hv' & Hfalse)]; [discriminate|].
      unfold result in Hv'. rewrite Hget in Hv'. simpl in Hv'. injection Hv' as <-.
      rewrite Hfalse, app_nil_r. reflexivity. }
  destruct Hstep as (tr0 & H1 & H2 & H3 & H4 & H5 & H6 & Hstep).
  exists tr0, a, tr1. repeat (split; [assumption|]).
  unfold analyze_and_store_body.
  unfold bind at 1. rewrite Hstep.
  unfold bind at 1. rewrite Hfetch.
  destruct a as [[|b bs]|]; simpl; rewrite ?app_nil_r; try reflexivity.
  unfold try_block.
  match goal with
  | |- context [try_except ?m ?h w t] => generalize (try_except m h w t)
  end.
  intros [[r t2] tr2]. reflexivity.
Qed.

(** The [try] block never raises: what [analyze] or [store] raises becomes
    the message of a failure. *)
Lemma try_block_returns
    (analyze : list byte -> option string -> M (option string))
    (store : string -> string -> string -> M bool)
    uid plat data prompt w t :
  exists b msg, result (try_block analyze store uid plat data prompt w t) = Returns (b, msg).
Proof.
  unfold try_block, try_except, bind, ret, result.
  destruct (analyze data prompt w t) as [[[[[|c s]|]|e] t1] tr1]; simpl; eauto.
  destruct (store uid plat (String c s) w t1) as [[[[|]|e] t2] tr2]; simpl; eauto.
Qed.

(** What [analyze] raises is reported with its message. *)
Lemma try_block_analyze_raises
    (analyze : list byte -> option string -> M (option string))
    (store : string -> string -> string -> M bool)
    uid plat data prompt w t e :
  result (analyze data prompt w t) = Raises e ->
  result (try_block analyze store uid plat data prompt w t) = Returns (false, e).
Proof.
  unfold try_block, try_except, bind, ret, result.
  destruct (analyze data prompt w t) as [[[o|e'] t1] tr1]; simpl; [discriminate|].
  intros [= ->]. reflexivity.
Qed.

(** And so is what [store] raises. *)
Lemma try_block_store_raises
    (analyze : list byte -> option string -> M (option string))
    (store : string -> string -> string -> M bool)
    uid plat data prompt w t d t1 tr1 e :
  analyze data prompt w t = (Returns (Some d), t1, tr1) -> d <> "" ->
  result (store uid plat d w t1) = Raises e ->
  result (try_block analyze store uid plat data prompt w t) = Returns (false, e).
Proof.
  unfold try_block, try_except, bind, ret, result. intros -> Hd.
  destruct d as [|c s]; [congruence|].
  destruct (store uid plat (String c s) w t1) as [[[o|e'] t2] tr2]; simpl; [discriminate|].
  intros [= ->]. reflexivity.
Qed.

(** Every call either stops on a cached description or misses the cache. *)
Lemma cache_hit_or_miss uid plat force w t :
  cache_miss uid plat force w t \/
  (force = false /\
   exists d tr,
     _get_existing_description uid plat w t = (Returns (Some d), t, tr) /\
     str_truthy d = true /\
     calls m_fetch_avatar tr = 0 /\ calls m_analyze_avatar tr = 0 /\
     calls m_store_description tr = 0 /\ calls f_set_avatar_description tr = 0 /\
     db_writes tr = 0 /\ http_requests tr = 0 /\ model_requests tr = 0).
Proof.
  destruct force; [left; left; reflexivity|].
  destruct (get_existing_description_run uid plat w t) as (v & tr & Hget & Hc).
  destruct (opt_truthy v) eqn:Hv.
  - right. split; [reflexivity|]. destruct v as [d|]; [|discriminate].
    exists d, tr. split; [exact Hget|]. split; [exact Hv | exact Hc].
  - left. right. exists v. unfold result. rewrite Hget. split; [reflexivity | exact Hv].
Qed.

(** C1. When [(platform, user_id)] resolves to a person identifier, the
    table holds a row of that person with a description (a non-empty text,
    what [if existing:] accepts, and the only kind [analyze_and_store]
    writes) and the lookup does not fail, [analyze_and_store] with
    [force_update = false] returns [(True, description)]; it enters neither
    [_fetch_avatar] nor [_analyze_avatar], asks neither server, and writes
    nothing: the table is the one it started from. *)
Theorem C1_cached_description_is_returned w t uid plat prompt pid r d :
  get_person_id w m_get_existing_description plat uid = Returns (Some pid) -> pid <> "" ->
  db_fault w f_get_avatar_description (Select pid) = None ->
  find (has_person pid) t = Some r ->
  head_description r = Some d -> d <> "" ->
  let run := analyze_and_store uid plat false prompt w t in
  result run = Returns (true, d) /\
  table_after run = t /\
  calls m_fetch_avatar (trace run) = 0 /\
  calls m_analyze_avatar (trace run) = 0 /\
  calls m_store_description (trace run) = 0 /\
  calls f_set_avatar_description (trace run) = 0 /\
  db_writes (trace run) = 0 /\
  http_requests (trace run) = 0 /\
  model_requests (trace run) = 0.
Proof.
  intros Hpid Hne Hfault Hfind Hdesc Hd run.
  assert (Hget : _get_existing_description uid plat w t =
                 (Returns (Some d), t,
                  [Called m_get_existing_description; PersonApi plat uid;
                   Called f_get_avatar_description; Db (Select pid)])).
  { unfold _get_existing_description.
    unfold bind at 1, emit, try_except, bind, request. rewrite Hpid.
    destruct pid as [|c s]; [congruence|].
    rewrite get_avatar_description_run, Hfault, Hfind, Hdesc. reflexivity. }
  assert (Htruthy : str_truthy d = true) by (destruct d; [congruence | reflexivity]).
  subst run. unfold analyze_and_store.
  rewrite (body_cache_hit _ _ uid plat prompt w t d _ Hget Htruthy).
  repeat split.
Qed.

(** The second call of scenario A: the description of [u1] is in the
    table. *)
Lemma C1_cached_description_is_returned_witness :
  let run := analyze_and_store "u1" "qq" false None world_ok [row_u1] in
  result run = Returns (true, "a cat avatar") /\
  table_after run = [row_u1] /\
  calls m_fetch_avatar (trace run) = 0 /\
  calls m_analyze_avatar (trace run) = 0 /\
  calls m_store_description (trace run) = 0 /\
  calls f_set_avatar_description (trace run) = 0 /\
  db_writes (trace run) = 0 /\
  http_requests (trace run) = 0 /\
  model_requests (trace run) = 0.
Proof.
  apply (C1_cached_description_is_returned world_ok [row_u1] "u1" "qq" None
           "p_u1" row_u1 "a cat avatar");
    try reflexivity; discriminate.
Defined.

(** C2. In every call of [analyze_and_store] where [_fetch_avatar] gives
    [None], neither [_analyze_avatar] nor [_store_description] nor
    [set_avatar_description] is entered, the vision model is not asked, no
    row is written and the table is unchanged; and whenever the avatar is
    fetched at all (no cached description stops the call before), the
    result is [(False, "无法获取用户头像")], the message of an unavailable
    avatar. *)
Theorem C2_fetch_failure_stops_the_call w t uid plat force prompt :
  result (_fetch_avatar uid plat w t) = Returns None ->
  let run := analyze_and_store uid plat force prompt w t in
  calls m_analyze_avatar (trace run) = 0 /\
  calls m_store_description (trace run) = 0 /\
  calls f_set_avatar_description (trace run) = 0 /\
  model_requests (trace run) = 0 /\
  db_writes (trace run) = 0 /\
  table_after run = t /\
  (cache_miss uid plat force w t ->
     calls m_fetch_avatar (trace run) = 1 /\
     result run = Returns (false, msg_avatar_unavailable)) /\
  (calls m_fetch_avatar (trace run) <> 0 ->
     result run = Returns (false, msg_avatar_unavailable)).
Proof.
  intros Hnone run.
  assert (Hmiss : cache_miss uid plat force w t ->
            calls m_analyze_avatar (trace run) = 0 /\
            calls m_store_description (trace run) = 0 /\
            calls f_set_avatar_description (trace run) = 0 /\
            model_requests (trace run) = 0 /\
            db_writes (trace run) = 0 /\
            table_after run = t /\
            calls m_fetch_avatar (trace run) = 1 /\
            result run = Returns (false, msg_avatar_unavailable)).
  { intros Hm.
    destruct (body_cache_miss _analyze_avatar _store_description uid plat force prompt w t Hm)
      as (tr0 & a & tr1 & Hfetch & H1 & H2 & H3 & H4 & H5 & H6 & Hrun).
    destruct (fetch_avatar_run uid plat w t)
      as (a' & tr1' & Hfetch' & F1 & F2 & F3 & F4 & F5 & F6).
    rewrite Hfetch in Hfetch'. injection Hfetch' as <- <-.
    unfold result in Hnone. rewrite Hfetch in Hnone. simpl in Hnone.
    injection Hnone as ->.
    subst run. unfold analyze_and_store. rewrite Hrun.
    unfold trace, table_after, result. simpl.
    rewrite !calls_app, model_requests_app, db_writes_app.
    rewrite H1, H2, H3, H4, H5, H6, F1, F2, F3, F4, F5, F6. repeat split. }
  destruct (cache_hit_or_miss uid plat force w t)
    as [Hm | (-> & d & tr & Hget & Hd & H1 & H2 & H3 & H4 & H5 & _ & H6)].
  - destruct (Hmiss Hm) as (? & ? & ? & ? & ? & ? & ? & ?).
    repeat (split; [assumption|]). split; [intros _; split; assumption | intros _; assumption].
  - assert (Hrun : run = (Returns (true, d), t, tr)).
    { subst run. unfold analyze_and_store. apply body_cache_hit; assumption. }
    rewrite Hrun in *. unfold trace, table_after, result. simpl.
    repeat (split; [assumption || reflexivity|]).
    split.
    + intros Hm. destruct (Hmiss Hm) as (_ & _ & _ & _ & _ & _ & Hone & _).
      unfold trace in Hone. simpl in Hone. congruence.
    + intros Hcalled. congruence.
Qed.

(** Scenario B: no avatar can be fetched on ["discord"]. *)
Lemma C2_fetch_failure_stops_the_call_witness :
  result (_fetch_avatar "u1" "discord" world_ok []) = Returns None /\
  result (analyze_and_store "u1" "discord" false None world_ok [])
    = Returns (false, msg_avatar_unavailable) /\
  calls m_analyze_avatar (trace (analyze_and_store "u1" "discord" false None world_ok [])) = 0.
Proof.
  assert (H : result (_fetch_avatar "u1" "discord" world_ok []) = Returns None)
    by reflexivity.
  split; [exact H|].
  destruct (C2_fetch_failure_stops_the_call world_ok [] "u1" "discord" false None H)
    as (Ha & _ & _ & _ & _ & _ & _ & Hres).
  split; [apply Hres; vm_compute; discriminate | exact Ha].
Defined.
(** Scenario A of the specification: the first call analyses and stores,
    the second returns the stored description without fetching. *)
Example analyze_and_store_scenario_A :
  let run1 := analyze_and_store "u1" "qq" false None world_ok [] in
  let run2 := analyze_and_store "u1" "qq" false None world_ok (table_after run1) in
  result run1 = Returns (true, "a cat avatar") /\
  records "p_u1" (table_after run1) = 1 /\
  result run2 = Returns (true, "a cat avatar") /\
  calls m_fetch_avatar (trace run2) = 0.
Proof. repeat split. Qed.

(** ** [_store_description] *)

(** The two ways [_store_description] ends: the person is resolved, the
    write is attempted and [True] is returned whatever
    [set_avatar_description] answered; or the person is not resolved (the
    identity service raises, or gives [None] or an empty identifier) and
    [False] is returned with nothing attempted. It never raises. *)
Lemma store_description_cases uid plat d w t :
  (exists pid b t' tr,
     get_person_id w m_store_description plat uid = Returns (Some pid) /\ pid <> "" /\
     set_avatar_description pid plat uid d None w t = (Returns b, t', tr) /\
     _store_description uid plat d w t =
       (Returns true, t', Called m_store_description :: PersonApi plat uid :: tr)) \/
  ((forall pid, get_person_id w m_store_description plat uid = Returns (Some pid) -> pid = "") /\
   exists tr, _store_description uid plat d w t = (Returns false, t, tr) /\
              calls f_set_avatar_description tr = 0 /\ db_writes tr = 0).
Proof.
  unfold _store_description, bind, request, emit, try_except, ret.
  destruct (get_person_id w m_store_description plat uid) as [[[|c s]|]|e] eqn:Hpid; simpl.
  - right. split; [intros pid [= <-]; reflexivity|].
    eexists. split; [reflexivity|]. split; reflexivity.
  - left.
    destruct (set_avatar_description_returns (String c s) plat uid d None w t)
      as (b & t' & tr & Hset & _).
    exists (String c s), b, t', tr. split; [reflexivity|]. split; [discriminate|].
    split; [exact Hset|]. rewrite Hset. simpl. rewrite app_nil_r. reflexivity.
  - right. split; [intros pid [=]|]. eexists. split; [reflexivity|]. split; reflexivity.
  - right. split; [intros pid [=]|]. eexists. split; [reflexivity|]. split; reflexivity.
Qed.

Lemma store_description_returns uid plat d w t :
  exists b, result (_store_description uid plat d w t) = Returns b.
Proof.
  destruct (store_description_cases uid plat d w t)
    as [(pid & b & t' & tr & _ & _ & _ & ->) | (_ & tr & -> & _)]; eauto.
Qed.

Lemma messages_distinct :
  msg_avatar_unavailable <> msg_store_failed /\
  msg_analysis_failed <> msg_store_failed /\
  msg_avatar_unavailable <> msg_analysis_failed /\
  fallback_description <> "".
Proof. repeat split; discriminate. Qed.
(** The [try] block with the methods of the class: the description is
    analysed, and stored when it is not empty. *)
Lemma try_block_run uid plat data prompt w t :
  exists s tr,
    _analyze_avatar data prompt w t = (Returns (Some s), t, tr) /\
    try_block _analyze_avatar _store_description uid plat data prompt w t =
      match s with
      | "" => (Returns (false, msg_analysis_failed), t, tr)
      | String _ _ =>
          match _store_description uid plat s w t with
          | (Returns true, t2, tr2) => (Returns (true, s), t2, tr ++ tr2)
          | (Returns false, t2, tr2) => (Returns (false, msg_store_failed), t2, tr ++ tr2)
          | (Raises e, t2, tr2) => (Returns (false, e), t2, tr ++ tr2)
          end
      end.
Proof.
  destruct (analyze_avatar_cases data prompt w t) as (s & tr & Hrun & _).
  exists s, tr. split; [exact Hrun|].
  unfold try_block, try_except. unfold bind at 1. rewrite Hrun.
  destruct s as [|c s]; simpl; [rewrite app_nil_r; reflexivity|].
  unfold bind, ret.
  destruct (_store_description uid plat (String c s) w t) as [[[[|]|e] t2] tr2]; simpl;
    rewrite ?app_nil_r; reflexivity.
Qed.

(** C9. When the person is resolved, [_store_description] returns [True]
    whatever [set_avatar_description] answered: if that answer is [False]
    (the write failed) the table is unchanged, and a call of
    [analyze_and_store] that got an avatar and a description [d] still
    returns [(True, d)] with nothing stored. [_store_description] returns
    [False], and [analyze_and_store] the message of a failed store, only
    when the person is not resolved: the identity service raises, or gives
    [None] or an empty identifier. *)
Theorem C9_store_write_failure_is_ignored w t uid plat force prompt d :
  (forall pid,
     get_person_id w m_store_description plat uid = Returns (Some pid) -> pid <> "" ->
     result (_store_description uid plat d w t) = Returns true /\
     (result (set_avatar_description pid plat uid d None w t) = Returns false ->
      table_after (_store_description uid plat d w t) = t /\
      forall data,
        cache_miss uid plat force w t ->
        result (_fetch_avatar uid plat w t) = Returns (Some data) -> data <> [] ->
        result (_analyze_avatar data prompt w t) = Returns (Some d) -> d <> "" ->
        result (analyze_and_store uid plat force prompt w t) = Returns (true, d) /\
        table_after (analyze_and_store uid plat force prompt w t) = t)) /\
  (result (_store_description uid plat d w t) = Returns false <->
   forall pid, get_person_id w m_store_description plat uid = Returns (Some pid) -> pid = "") /\
  (result (analyze_and_store uid plat force prompt w t) = Returns (false, msg_store_failed) ->
   forall pid, get_person_id w m_store_description plat uid = Returns (Some pid) -> pid = "").
Proof.
  split; [|split].
  - intros pid Hpid Hne.
    destruct (store_description_cases uid plat d w t)
      as [(pid' & b & t' & tr & Hpid' & _ & Hset & Hstore) | (Hun & _)];
      [|destruct (Hne (Hun pid Hpid))].
    rewrite Hpid in Hpid'. injection Hpid' as <-.
    split; [rewrite Hstore; reflexivity|].
    intros Hfalse.
    assert (Ht' : t' = t).
    { destruct (set_avatar_description_cases pid plat uid d None w t)
        as [[_ Ht] | [(r & r' & _ & _ & _ & _ & _ & _ & _ & Htrue & _) | (_ & Htrue & _)]];
        [| congruence | congruence].
      rewrite Hset in Ht. exact Ht. }
    subst t'. split; [rewrite Hstore; reflexivity|].
    intros data Hmiss Hfetch Hdata Hdesc Hd.
    destruct (body_cache_miss _analyze_avatar _store_description uid plat force prompt w t Hmiss)
      as (tr0 & a & tr1 & Hfetch' & _ & _ & _ & _ & _ & _ & Hrun).
    unfold result in Hfetch. rewrite Hfetch' in Hfetch. simpl in Hfetch.
    injection Hfetch as ->. destruct data as [|b0 bs]; [congruence|].
    destruct (try_block_run uid plat (b0 :: bs) prompt w t) as (s & tr2 & Han & Htry).
    unfold result in Hdesc. rewrite Han in Hdesc. simpl in Hdesc. injection Hdesc as ->.
    destruct d as [|c s]; [congruence|].
    rewrite Hstore in Htry.
    unfold analyze_and_store. rewrite Hrun, Htry. split; reflexivity.
  - destruct (store_description_cases uid plat d w t)
      as [(pid & b & t' & tr & Hpid & Hne & _ & Hstore) | (Hun & tr & Hstore & _)];
      rewrite Hstore; unfold result; simpl.
    + split; [discriminate|]. intros Hun. destruct (Hne (Hun pid Hpid)).
    + split; [intros _; exact Hun | reflexivity].
  - destruct (cache_hit_or_miss uid plat force w t)
      as [Hmiss | (-> & d' & tr & Hget & Hd' & _)].
    2:{ unfold analyze_and_store.
        rewrite (body_cache_hit _ _ uid plat prompt w t d' tr Hget Hd'). discriminate. }
    destruct (body_cache_miss _analyze_avatar _store_description uid plat force prompt w t Hmiss)
      as (tr0 & a & tr1 & _ & _ & _ & _ & _ & _ & _ & Hrun).
    unfold analyze_and_store. rewrite Hrun.
    destruct messages_distinct as (M1 & M2 & _).
    destruct a as [[|b0 bs]|]; try (unfold result; simpl; congruence).
    destruct (try_block_run uid plat (b0 :: bs) prompt w t) as (s & tr2 & _ & Htry).
    rewrite Htry. destruct s as [|c s]; [unfold result; simpl; congruence|].
    destruct (store_description_cases uid plat (String c s) w t)
      as [(pid & b & t' & tr & _ & _ & _ & Hstore) | (Hun & tr & _)];
      [rewrite Hstore; discriminate | intros _; exact Hun].
Qed.

(** The database is down: the description of scenario A is computed,
    reported as a success, and not stored. *)
Lemma C9_store_write_failure_is_ignored_witness :
  result (set_avatar_description "p_u1" "qq" "u1" "a cat avatar" None world_db_down [])
    = Returns false /\
  result (_store_description "u1" "qq" "a cat avatar" world_db_down []) = Returns true /\
  result (analyze_and_store "u1" "qq" false None world_db_down [])
    = Returns (true, "a cat avatar") /\
  table_after (analyze_and_store "u1" "qq" false None world_db_down []) = [].
Proof.
  assert (Hset : result (set_avatar_description "p_u1" "qq" "u1" "a cat avatar" None
                           world_db_down []) = Returns false) by reflexivity.
  destruct (C9_store_write_failure_is_ignored world_db_down [] "u1" "qq" false None
              "a cat avatar") as (Hresolved & _ & _).
  destruct (Hresolved "p_u1") as (Htrue & Hignored); [reflexivity | discriminate |].
  destruct (Hignored Hset) as (_ & Hcall).
  split; [exact Hset|]. split; [exact Htrue|].
  apply (Hcall [x4d; x61; x6e]%byte).
  - right. exists None. split; reflexivity.
  - reflexivity.
  - discriminate.
  - reflexivity.
  - discriminate.
Defined.
Lemma replace_row_elem r' t r : r ∈ replace_row r' t -> r = r' \/ r ∈ t.
Proof.
  unfold replace_row. induction t as [|x t IH]; simpl.
  - intros H. apply elem_of_nil in H. contradiction.
  - rewrite !elem_of_cons. intros [->|H].
    + destruct (id x =? id r')%Z; auto.
    + destruct (IH H); auto.
Qed.

(** Every description [analyze_and_store] writes is a non-empty text: a
    table without empty descriptions stays so. The cached descriptions of
    C1 are of this kind unless other code wrote them. *)
Lemma analyze_and_store_writes_text w t uid plat force prompt :
  (forall r, r ∈ t -> head_description r <> Some "") ->
  forall r, r ∈ table_after (analyze_and_store uid plat force prompt w t) ->
            head_description r <> Some "".
Proof.
  intros Ht.
  destruct (cache_hit_or_miss uid plat force w t)
    as [Hmiss | (-> & d' & tr & Hget & Hd' & _)].
  2:{ unfold analyze_and_store.
      rewrite (body_cache_hit _ _ uid plat prompt w t d' tr Hget Hd'). exact Ht. }
  destruct (body_cache_miss _analyze_avatar _store_description uid plat force prompt w t Hmiss)
    as (tr0 & a & tr1 & _ & _ & _ & _ & _ & _ & _ & Hrun).
  unfold analyze_and_store. rewrite Hrun.
  destruct a as [[|b0 bs]|]; try exact Ht.
  destruct (try_block_run uid plat (b0 :: bs) prompt w t) as (s & tr2 & _ & Htry).
  rewrite Htry. destruct s as [|c s]; [exact Ht|].
  destruct (store_description_cases uid plat (String c s) w t)
    as [(pid & b & t' & tr & _ & _ & Hset & Hstore) | (_ & tr & Hstore & _)];
    rewrite Hstore; [|exact Ht].
  unfold table_after. simpl.
  destruct (set_avatar_description_cases pid plat uid (String c s) None w t)
    as [[_ Heq] | [(r0 & r' & _ & _ & _ & _ & _ & Hd & _ & _ & Heq) | (_ & _ & Heq)]];
    rewrite Hset in Heq; unfold table_after in Heq; simpl in Heq; subst t'.
  - exact Ht.
  - intros r Hr. apply replace_row_elem in Hr as [->|Hr]; [|apply Ht, Hr].
    rewrite Hd. discriminate.
  - intros r Hr. apply elem_of_app in Hr as [Hr|Hr]; [apply Ht, Hr|].
    apply list_elem_of_singleton in Hr. subst r. simpl. discriminate.
Qed.

(** C8. [analyze_and_store] never raises: on every input, in every world
    and on every table it returns a pair [(ok, message)]. The four helpers
    catch what their collaborators raise, and the [try] of
    [analyze_and_store] catches whatever the analysis and the store steps
    raise, were they any other code than the two methods of the class, and
    turns it into [(False, str(e))]. *)
Theorem C8_analyze_and_store_never_raises
    (analyze : list byte -> option string -> M (option string))
    (store : string -> string -> string -> M bool)
    w t uid plat force prompt :
  let run :=
    analyze_and_store_body _get_existing_description _fetch_avatar analyze store
      uid plat force prompt w t in
  (exists ok msg,
     result (analyze_and_store uid plat force prompt w t) = Returns (ok, msg)) /\
  (exists ok msg, result run = Returns (ok, msg)) /\
  (forall data e,
     cache_miss uid plat force w t ->
     result (_fetch_avatar uid plat w t) = Returns (Some data) -> data <> [] ->
     result (analyze data prompt w t) = Raises e ->
     result run = Returns (false, e)) /\
  (forall data d t1 tr1 e,
     cache_miss uid plat force w t ->
     result (_fetch_avatar uid plat w t) = Returns (Some data) -> data <> [] ->
     analyze data prompt w t = (Returns (Some d), t1, tr1) -> d <> "" ->
     result (store uid plat d w t1) = Raises e ->
     result run = Returns (false, e)) /\
  (exists v, result (_get_existing_description uid plat w t) = Returns v) /\
  (exists v, result (_fetch_avatar uid plat w t) = Returns v) /\
  (forall data, exists v, result (_analyze_avatar data prompt w t) = Returns v) /\
  (forall d, exists v, result (_store_description uid plat d w t) = Returns v).
Proof.
  intros run.
  assert (Hany : forall an st, exists ok msg,
            result (analyze_and_store_body _get_existing_description _fetch_avatar an st
                      uid plat force prompt w t) = Returns (ok, msg)).
  { intros an st.
    destruct (cache_hit_or_miss uid plat force w t)
      as [Hmiss | (-> & d & tr & Hget & Hd & _)].
    - destruct (body_cache_miss an st uid plat force prompt w t Hmiss)
        as (tr0 & a & tr1 & _ & _ & _ & _ & _ & _ & _ & ->).
      destruct a as [[|b bs]|]; try (unfold result; simpl; eauto).
      destruct (try_block_returns an st uid plat (b :: bs) prompt w t) as (ok & msg & Htry).
      destruct (try_block an st uid plat (b :: bs) prompt w t) as [[r t2] tr2].
      exists ok, msg. exact Htry.
    - rewrite (body_cache_hit an st uid plat prompt w t d tr Hget Hd).
      unfold result; simpl; eauto. }
  assert (Hblock : forall data e,
            cache_miss uid plat force w t ->
            result (_fetch_avatar uid plat w t) = Returns (Some data) -> data <> [] ->
            result (try_block analyze store uid plat data prompt w t) = Returns (false, e) ->
            result run = Returns (false, e)).
  { intros data e Hmiss Hfetch Hdata Htry.
    destruct (body_cache_miss analyze store uid plat force prompt w t Hmiss)
      as (tr0 & a & tr1 & Hfetch' & _ & _ & _ & _ & _ & _ & Hrun).
    unfold result in Hfetch. rewrite Hfetch' in Hfetch. simpl in Hfetch.
    injection Hfetch as ->. destruct data as [|b bs]; [congruence|].
    subst run. rewrite Hrun.
    destruct (try_block analyze store uid plat (b :: bs) prompt w t) as [[r t2] tr2].
    exact Htry. }
  split; [apply Hany|]. split; [apply Hany|].
  split.
  { intros data e Hmiss Hfetch Hdata Hraise.
    apply (Hblock data e Hmiss Hfetch Hdata).
    apply try_block_analyze_raises, Hraise. }
  split.
  { intros data d t1 tr1 e Hmiss Hfetch Hdata Han Hd Hraise.
    apply (Hblock data e Hmiss Hfetch Hdata).
    eapply try_block_store_raises; eauto. }
  split.
  { destruct (get_existing_description_run uid plat w t) as (v & tr & -> & _). eauto. }
  split.
  { destruct (fetch_avatar_run uid plat w t) as (v & tr & -> & _). eauto. }
  split.
  { intros data. destruct (analyze_avatar_cases data prompt w t) as (s & tr & -> & _). eauto. }
  intros d. apply store_description_returns.
Qed.

(** An analysis step that raises ["boom"] is reported as
    [(False, "boom")]. *)
Lemma C8_analyze_and_store_never_raises_witness :
  result (analyze_and_store_body _get_existing_description _fetch_avatar
            (analyze_raising "boom") _store_description
            "u1" "qq" true None world_ok [])
    = Returns (false, "boom").
Proof.
  destruct (C8_analyze_and_store_never_raises (analyze_raising "boom") _store_description
              world_ok [] "u1" "qq" true None) as (_ & _ & Hraise & _).
  apply (Hraise [x4d; x61; x6e]%byte "boom").
  - left. reflexivity.
  - reflexivity.
  - discriminate.
  - reflexivity.
Defined.

(** C4, the part that fails: a response of three spaces is not empty, its
    [strip] is, so [_analyze_avatar] returns the empty string and
    [analyze_and_store] takes its branch of a failed analysis. *)
Lemma C4_blank_response_counterexample :
  result (_analyze_avatar [x4d; x61; x6e]%byte None world_blank []) = Returns (Some "") /\
  result (analyze_and_store "u1" "qq" false None world_blank [])
    = Returns (false, msg_analysis_failed).
Proof. split; reflexivity. Qed.

(** The same with a response of an ideographic space and a no-break
    space. *)
Example wide_blank_response :
  result (_analyze_avatar [x4d; x61; x6e]%byte None world_wide_blank []) = Returns (Some "") /\
  result (analyze_and_store "u1" "qq" false None world_wide_blank [])
    = Returns (false, msg_analysis_failed).
Proof. split; reflexivity. Qed.

(** C4, amended. [_analyze_avatar] neither raises nor returns [None]: it
    returns the fixed fallback when the vision model gives no usable
    answer, and the stripped response otherwise. That string is empty only
    when the response is white space alone, and [analyze_and_store]
    returns its message of a failed analysis only in that case, with
    nothing written. *)
Theorem C4_describer_returns_a_string data prompt w t uid plat force :
  (exists s,
     result (_analyze_avatar data prompt w t) = Returns (Some s) /\
     table_after (_analyze_avatar data prompt w t) = t /\
     ((no_vision_answer w data prompt /\ s = fallback_description) \/
      (exists response, vision_answer w data prompt response /\ s = strip response)) /\
     (s = "" ->
      exists response, vision_answer w data prompt response /\ all_space response = true)) /\
  (result (analyze_and_store uid plat force prompt w t)
     = Returns (false, msg_analysis_failed) ->
   (exists fetched response,
      result (_fetch_avatar uid plat w t) = Returns (Some fetched) /\
      vision_answer w fetched prompt response /\ all_space response = true) /\
   table_after (analyze_and_store uid plat force prompt w t) = t /\
   calls m_store_description (trace (analyze_and_store uid plat force prompt w t)) = 0 /\
   db_writes (trace (analyze_and_store uid plat force prompt w t)) = 0).
Proof.
  assert (Hdescr : forall data0 s tr,
            _analyze_avatar data0 prompt w t = (Returns (Some s), t, tr) -> s = "" ->
            exists response,
              vision_answer w data0 prompt response /\ all_space response = true).
  { intros data0 s tr Hrun ->.
    destruct (analyze_avatar_cases data0 prompt w t)
      as (s' & tr' & Hrun' & _ & _ & _ & _ & Hcase).
    rewrite Hrun in Hrun'. injection Hrun' as <- <-.
    destruct Hcase as [[_ Hfb] | (r & Hans & Hs)].
    - destruct messages_distinct as (_ & _ & _ & Hne). congruence.
    - exists r. split; [exact Hans|]. apply strip_empty. congruence. }
  split.
  - destruct (analyze_avatar_cases data prompt w t)
      as (s & tr & Hrun & _ & _ & _ & _ & Hcase).
    exists s. rewrite Hrun. repeat split; [exact Hcase|].
    apply (Hdescr data s tr Hrun).
  - destruct (cache_hit_or_miss uid plat force w t)
      as [Hmiss | (-> & d & tr & Hget & Hd & _)].
    2:{ unfold analyze_and_store.
        rewrite (body_cache_hit _ _ uid plat prompt w t d tr Hget Hd). discriminate. }
    destruct (body_cache_miss _analyze_avatar _store_description uid plat force prompt w t Hmiss)
      as (tr0 & a & tr1 & Hfetch & _ & _ & H3 & _ & H5 & _ & Hrun).
    destruct (fetch_avatar_run uid plat w t)
      as (a' & tr1' & Hfetch' & _ & _ & F3 & _ & F5 & _).
    rewrite Hfetch in Hfetch'. injection Hfetch' as <- <-.
    unfold analyze_and_store. rewrite Hrun.
    destruct messages_distinct as (_ & M2 & M3 & _).
    destruct a as [[|b0 bs]|]; try (unfold result; simpl; congruence).
    destruct (try_block_run uid plat (b0 :: bs) prompt w t) as (s & tr2 & Han & Htry).
    rewrite Htry. destruct s as [|c s].
    + intros _.
      destruct (analyze_avatar_cases (b0 :: bs) prompt w t)
        as (s' & tr' & Hrun' & _ & A3 & _ & A5 & _).
      rewrite Han in Hrun'. injection Hrun' as <- <-.
      destruct (Hdescr (b0 :: bs) "" tr2 Han eq_refl) as (r & Hans & Hsp).
      split.
      { exists (b0 :: bs), r. unfold result. rewrite Hfetch. auto. }
      unfold table_after, trace. simpl.
      rewrite !calls_app, !db_writes_app, H3, H5, F3, F5, A3, A5. auto.
    + destruct (store_description_cases uid plat (String c s) w t)
        as [(pid & b & t' & tr & _ & _ & _ & Hstore) | (_ & tr & Hstore & _)];
        rewrite Hstore; unfold result; simpl; congruence.
Qed.

(** The blank response again: the failed analysis comes from a response of
    white space, and nothing is written. *)
Lemma C4_describer_returns_a_string_witness :
  (exists fetched response,
     result (_fetch_avatar "u1" "qq" world_blank []) = Returns (Some fetched) /\
     vision_answer world_blank fetched None response /\ all_space response = true) /\
  table_after (analyze_and_store "u1" "qq" false None world_blank []) = [] /\
  calls m_store_description (trace (analyze_and_store "u1" "qq" false None world_blank [])) = 0 /\
  db_writes (trace (analyze_and_store "u1" "qq" false None world_blank [])) = 0.
Proof.
  apply (C4_describer_returns_a_string [] None world_blank [] "u1" "qq" false).
  reflexivity.
Defined.
(** ** The catalog *)


Lemma dict_get_elem {V} (d : list (string * V)) k v :
  dict_get d k = Some v -> (k, v) ∈ d.
Proof.
  induction d as [|[k' v'] d IH]; simpl; [discriminate|].
  destruct (String.eqb_spec k' k) as [->|].
  - intros [= ->]. apply elem_of_cons. left; reflexivity.
  - intros H. apply elem_of_cons. right. apply IH, H.
Qed.

Lemma dict_get_none {V} (d : list (string * V)) k :
  dict_get d k = None <-> k ∉ dict_keys d.
Proof.
  unfold dict_keys. induction d as [|[k' v'] d IH]; simpl.
  - split; [intros _; apply not_elem_of_nil | reflexivity].
  - rewrite not_elem_of_cons. destruct (String.eqb_spec k' k) as [->|Hne].
    + split; [discriminate | intros [H _]; congruence].
    + rewrite IH. split; [intros H; split; [congruence | exact H] | tauto].
Qed.

Lemma scan_elem q d m :
  scan q d = Some m -> exists k, (k, m) ∈ d /\ str_in q k = true.
Proof.
  induction d as [|[k' m'] d IH]; simpl; [discriminate|].
  destruct (str_in q k') eqn:E.
  - intros [= ->]. exists k'. split; [apply elem_of_cons; left; reflexivity | exact E].
  - intros H. destruct (IH H) as (k & Hin & Hk). exists k.
    split; [apply elem_of_cons; right; exact Hin | exact Hk].
Qed.

Lemma scan_none q d :
  scan q d = None <-> forall k, k ∈ dict_keys d -> str_in q k = false.
Proof.
  unfold dict_keys. induction d as [|[k' m'] d IH]; simpl.
  - split; [intros _ k H; apply elem_of_nil in H; contradiction | reflexivity].
  - destruct (str_in q k') eqn:E.
    + split; [discriminate|]. intros H. specialize (H k').
      rewrite E in H. discriminate H. apply elem_of_cons. left; reflexivity.
    + rewrite IH. split.
      * intros H k Hk. apply elem_of_cons in Hk as [->|Hk]; [exact E | apply H, Hk].
      * intros H k Hk. apply H, elem_of_cons. right; exact Hk.
Qed.

(** The exact lookup comes first: a lowered query that is a key of the index
    gets the template the index holds for it, whatever keys contain it. *)
Lemma find_meme_exact_first st q m :
  is_initialized st = true -> dict_get (_memes st) (lower q) = Some m ->
  find_meme st q = Some m.
Proof. unfold find_meme. intros -> ->. reflexivity. Qed.

(** Without an exact match the first key containing the lowered query
    decides, and without any such key there is no template. *)
Lemma find_meme_scan st q :
  is_initialized st = true -> dict_get (_memes st) (lower q) = None ->
  find_meme st q = scan (lower q) (_memes st).
Proof. unfold find_meme. intros -> ->. reflexivity. Qed.

Lemma find_meme_no_match st q :
  lower q ∉ dict_keys (_memes st) ->
  (forall k, k ∈ dict_keys (_memes st) -> str_in (lower q) k = false) ->
  find_meme st q = None.
Proof.
  intros Hexact Hscan. unfold find_meme.
  destruct (is_initialized st); simpl; [|reflexivity].
  apply dict_get_none in Hexact. rewrite Hexact. apply scan_none, Hscan.
Qed.

(** A template found is found through an item of the index: the one whose
    key is the lowered query, or one whose key contains it. *)
Lemma find_meme_item st q m :
  find_meme st q = Some m ->
  exists k, (k, m) ∈ _memes st /\ (k = lower q \/ str_in (lower q) k = true).
Proof.
  unfold find_meme. destruct (is_initialized st); simpl; [|discriminate].
  destruct (dict_get (_memes st) (lower q)) as [m'|] eqn:E.
  - intros [= ->]. exists (lower q). split; [apply dict_get_elem, E | left; reflexivity].
  - intros H. destruct (scan_elem _ _ _ H) as (k & Hin & Hk). exists k. auto.
Qed.
(** *** What [_load_memes] puts in the index *)

Lemma dict_set_keys {V} (d : list (string * V)) k v k' :
  k' ∈ dict_keys (dict_set d k v) <-> k' = k \/ k' ∈ dict_keys d.
Proof.
  unfold dict_keys. induction d as [|[k0 v0] d IH]; simpl.
  - rewrite list_elem_of_singleton. split; [auto|]. intros [H|H]; [exact H|].
    apply elem_of_nil in H. contradiction.
  - destruct (String.eqb_spec k0 k) as [->|Hne]; simpl.
    + rewrite elem_of_cons. tauto.
    + rewrite !elem_of_cons, IH. tauto.
Qed.

Lemma index_keywords_keys (meme : Meme) kws (d : list (string * Meme)) k :
  k ∈ dict_keys (fold_left (fun d keyword => dict_set d (lower keyword) meme) kws d) <->
  k ∈ dict_keys d \/ exists keyword, keyword ∈ kws /\ k = lower keyword.
Proof.
  revert d. induction kws as [|kw kws IH]; intros d; simpl.
  - split; [auto|]. intros [H|(kw & H & _)]; [exact H|].
    apply elem_of_nil in H. contradiction.
  - rewrite IH, (@dict_set_keys Meme). split.
    + intros [[->|H]|(kw' & Hin & ->)].
      * right. exists kw. split; [apply elem_of_cons; left|]; reflexivity.
      * left. exact H.
      * right. exists kw'. split; [apply elem_of_cons; right; exact Hin | reflexivity].
    + intros [H|(kw' & Hin & ->)]; [left; right; exact H|].
      apply elem_of_cons in Hin as [->|Hin]; [left; left; reflexivity|].
      right. exists kw'. auto.
Qed.

Lemma index_meme_keys d meme k :
  k ∈ dict_keys (index_meme d meme) <->
  k ∈ dict_keys d \/ k = key meme \/
  exists keyword, keyword ∈ keywords meme /\ k = lower keyword.
Proof. unfold index_meme. rewrite index_keywords_keys, (@dict_set_keys Meme). tauto. Qed.

(** The keys of the index are the keys of the templates as they are and
    their keywords in lower case. *)
Lemma index_keys memes d k :
  k ∈ dict_keys (fold_left index_meme memes d) <->
  k ∈ dict_keys d \/
  exists meme, meme ∈ memes /\
    (k = key meme \/ exists keyword, keyword ∈ keywords meme /\ k = lower keyword).
Proof.
  revert d. induction memes as [|m memes IH]; intros d; simpl.
  - split; [auto|]. intros [H|(m & H & _)]; [exact H|].
    apply elem_of_nil in H. contradiction.
  - rewrite IH, index_meme_keys. split.
    + intros [[H|H]|(m' & Hin & H)].
      * left. exact H.
      * right. exists m. split; [apply elem_of_cons; left; reflexivity | exact H].
      * right. exists m'. split; [apply elem_of_cons; right; exact Hin | exact H].
    + intros [H|(m' & Hin & H)]; [left; left; exact H|].
      apply elem_of_cons in Hin as [->|Hin]; [left; right; exact H|].
      right. exists m'. auto.
Qed.

(** The first load of the class: when it succeeds the index is built from
    the templates [get_memes] lists. *)
Lemma load_memes_first h :
  is_initialized (_load_memes h MemeManager_class) = true ->
  exists memes,
    get_memes h = Returns memes /\
    _memes (_load_memes h MemeManager_class) = fold_left index_meme memes [] /\
    _meme_list (_load_memes h MemeManager_class) = memes.
Proof.
  unfold _load_memes, _check_and_load_meme_generator, MemeManager_class. simpl.
  destruct (import_names h); simpl.
  - destruct (load_memes h); simpl; [|discriminate].
    destruct (get_memes h) as [memes|]; simpl; [|discriminate]. eauto.
  - destruct (check_and_install_dependency h); simpl; [|discriminate].
    destruct (import_names_again h); simpl; [|discriminate].
    destruct (load_memes h); simpl; [|discriminate].
    destruct (get_memes h) as [memes|]; simpl; [|discriminate]. eauto.
Qed.



(** Where the exact lookup does find a query that spells a key or a keyword
    in some casing: on a freshly loaded catalog, for every keyword and for
    every key without a capital letter. The template returned is the one
    the index holds for the lowered query. *)
Lemma find_meme_exact_match h meme q :
  is_initialized (_load_memes h MemeManager_class) = true ->
  (exists memes, get_memes h = Returns memes /\ meme ∈ memes) ->
  (exists keyword, keyword ∈ keywords meme /\ lower q = lower keyword) \/
  (has_upper (key meme) = false /\ lower q = lower (key meme)) ->
  exists found,
    dict_get (_memes (_load_memes h MemeManager_class)) (lower q) = Some found /\
    find_meme (_load_memes h MemeManager_class) q = Some found.
Proof.
  intros Hinit (memes & Hget & Hin) Hq.
  destruct (load_memes_first h Hinit) as (memes' & Hget' & Hidx & _).
  rewrite Hget in Hget'. injection Hget' as <-.
  assert (Hkey : lower q ∈ dict_keys (_memes (_load_memes h MemeManager_class))).
  { rewrite Hidx. apply index_keys. right. exists meme. split; [exact Hin|].
    destruct Hq as [(kw & Hkw & Heq) | (Hlow & Heq)].
    - right. exists kw. split; [exact Hkw | exact Heq].
    - left. rewrite Heq.
      destruct (lower_changes (key meme)) as [_ Hch].
      destruct (String.eqb_spec (lower (key meme)) (key meme)) as [E|E]; [exact E|].
      rewrite (Hch E) in Hlow. discriminate. }
  destruct (dict_get (_memes (_load_memes h MemeManager_class)) (lower q)) as [found|] eqn:E.
  - exists found. split; [reflexivity|]. apply find_meme_exact_first; assumption.
  - apply dict_get_none in E. contradiction.
Qed.

(** C6, at the input where it fails. The catalog has a template of key
    ["Doge"] and another of key ["xdogex"]. The query ["doge"] equals the
    first key up to case and is contained in the second; [find_meme]
    lowers the query, does not find it among the keys, since the key of a
    template is indexed as written, and returns the template whose key
    contains it. *)
Theorem C6_capital_key_loses_to_substring :
  let st := get_instance (host_listing [Doge; xdogex]) MemeManager_class in
  is_initialized st = true /\
  dict_keys (_memes st) = ["Doge"; "xdogex"] /\
  lower "doge" = lower (key Doge) /\
  str_in "doge" (key xdogex) = true /\
  find_meme st "doge" = Some xdogex /\
  find_meme st "Doge" = Some xdogex /\
  find_meme (get_instance (host_listing [Doge]) MemeManager_class) "Doge" = None.
Proof. repeat split. Qed.

(** Scenario C of the specification, where every key is in lower case. *)
Example find_meme_scenario_C :
  let st := get_instance (host_listing [doge; cat_meme]) MemeManager_class in
  find_meme st "dog" = Some doge /\
  find_meme st "do" = Some doge /\
  find_meme st "xyz" = None /\
  find_meme st "CAT" = Some cat_meme.
Proof. repeat split. Qed.

(** Names with accents: a keyword is found in any casing, a key with a
    capital letter is not, and a query that spells such a key gets the
    template whose key contains its lower case. *)
Example find_meme_accents :
  find_meme (get_instance (host_listing [ecole]) MemeManager_class) "élève" = Some ecole /\
  find_meme (get_instance (host_listing [ecole]) MemeManager_class) "ÉLÈVE" = Some ecole /\
  find_meme (get_instance (host_listing [ecole]) MemeManager_class) "École" = None /\
  find_meme (get_instance (host_listing [de_upper; xdex]) MemeManager_class) "dÉ" = Some xdex.
Proof. repeat split. Qed.

(** C7. On a catalog that is not initialized [find_meme] returns [None]
    for every query, [get_all_memes] the empty list and [get_random_meme]
    [None]; [get_random_meme] also returns [None] on an empty list of
    templates. The three are total functions: none raises. A load that
    fails (the generator is neither importable nor installable, or
    [load_memes] or [get_memes] raises) leaves the class uninitialized, and
    [get_instance] does not load again once the instance exists. *)
Theorem C7_uninitialized_catalog_answers_nothing h st q randbelow :
  (is_initialized st = false ->
   find_meme st q = None /\
   get_all_memes st = [] /\
   get_random_meme randbelow st = None) /\
  (_meme_list st = [] -> get_random_meme randbelow st = None) /\
  ((_check_and_load_meme_generator h MemeManager_class).1 = false \/
   (exists e, load_memes h = Raises e) \/
   (exists e, get_memes h = Raises e) ->
   is_initialized (get_instance h MemeManager_class) = false) /\
  (forall h', get_instance h' (get_instance h st) = get_instance h st).
Proof.
  split; [|split; [|split]].
  - intros Hinit. unfold find_meme, get_all_memes, get_random_meme.
    rewrite Hinit. repeat split.
  - intros Hnil. unfold get_random_meme. rewrite Hnil, orb_true_r. reflexivity.
  - unfold get_instance, _load_memes. simpl.
    destruct (_check_and_load_meme_generator h MemeManager_class) as [[|] st1] eqn:Hc.
    2:{ intros _. simpl.
        unfold _check_and_load_meme_generator, MemeManager_class in Hc. simpl in Hc.
        destruct (import_names h); [discriminate|].
        destruct (check_and_install_dependency h);
          [destruct (import_names_again h); [discriminate|]|];
          injection Hc as <-; reflexivity. }
    assert (Hst1 : is_initialized st1 = false).
    { unfold _check_and_load_meme_generator, MemeManager_class in Hc. simpl in Hc.
      destruct (import_names h); [injection Hc as <-; reflexivity|].
      destruct (check_and_install_dependency h); [|discriminate].
      destruct (import_names_again h); [injection Hc as <-; reflexivity | discriminate]. }
    simpl. intros [H | [[e He] | [e He]]]; [discriminate| |].
    + rewrite He. simpl. exact Hst1.
    + rewrite He. destruct (load_memes h); simpl; exact Hst1.
  - intros h'. unfold get_instance at 1. simpl.
    destruct (_instance (get_instance h st)) eqn:E; [reflexivity|].
    unfold get_instance in E. destruct (_instance st) eqn:E'; simpl in E; congruence.
Qed.

(** A host where the generator is missing and cannot be installed. *)
Lemma C7_uninitialized_catalog_answers_nothing_witness :
  is_initialized (get_instance host_without_generator MemeManager_class) = false /\
  find_meme (get_instance host_without_generator MemeManager_class) "doge" = None /\
  get_all_memes (get_instance host_without_generator MemeManager_class) = [] /\
  get_random_meme (fun _ => 0) (get_instance host_without_generator MemeManager_class) = None.
Proof.
  destruct (C7_uninitialized_catalog_answers_nothing host_without_generator
              (get_instance host_without_generator MemeManager_class) "doge" (fun _ => 0))
    as (Hempty & _ & Hfail & _).
  assert (Hinit : is_initialized (get_instance host_without_generator MemeManager_class) = false).
  { apply Hfail. left. reflexivity. }
  split; [exact Hinit | exact (Hempty Hinit)].
Defined.
(** * Further properties *)

(** ** The traces of the helpers *)

Lemma get_existing_description_trace uid plat w t :
  trace (_get_existing_description uid plat w t) =
    [Called m_get_existing_description; PersonApi plat uid] ++
    match get_person_id w m_get_existing_description plat uid with
    | Returns (Some (String c s)) =>
        [Called f_get_avatar_description; Db (Select (String c s))]
    | _ => []
    end.
Proof.
  unfold _get_existing_description.
  unfold bind at 1, emit, try_except, bind, request, trace.
  destruct (get_person_id w m_get_existing_description plat uid) as [[[|c s]|]|e];
    simpl; try reflexivity.
  rewrite get_avatar_description_run. reflexivity.
Qed.

Lemma fetch_avatar_trace uid plat w t :
  trace (_fetch_avatar uid plat w t) =
    Called m_fetch_avatar ::
    (if String.eqb plat "qq"
     then [Http ("http://q.qlogo.cn/headimg_dl?dst_uin=" +:+ uid +:+ "&spec=640&img_type=jpg")]
     else []).
Proof.
  unfold _fetch_avatar. run_unfold.
  destruct (String.eqb_spec plat "discord") as [->|_]; [reflexivity|].
  destruct (String.eqb plat "qq"); [|reflexivity].
  destruct (session_get w _) as [resp|e]; simpl; [|reflexivity].
  destruct (status resp =? 200)%Z; simpl; [|reflexivity].
  destruct (read resp); reflexivity.
Qed.

Lemma analyze_avatar_trace data prompt w t :
  trace (_analyze_avatar data prompt w t) =
    [Called m_analyze_avatar; Registry] ++
    match get_available_models w with
    | Returns models =>
        match models !! "vision_general" with
        | Some _ => [Llm (prompt_or_default prompt) (b64encode data)]
        | None => []
        end
    | Raises _ => []
    end.
Proof.
  unfold _analyze_avatar. run_unfold. simpl.
  destruct (get_available_models w) as [models|e]; simpl; [|reflexivity].
  destruct (models !! "vision_general") as [vm|]; simpl; [|reflexivity].
  destruct (generate_response_for_image w vm _ _ _ _) as [[[|c r]|]|e]; reflexivity.
Qed.

Lemma set_avatar_description_trace pid plat uid d url w t :
  exists writes,
    trace (set_avatar_description pid plat uid d url w t) =
      [Called f_set_avatar_description; Db (Select pid)] ++ writes /\
    (writes = [] \/ exists r, writes = [Db (Update r)] \/ writes = [Db (Insert r)]).
Proof.
  unfold set_avatar_description, get_or_none, save, create. run_unfold. simpl.
  destruct (db_fault w f_set_avatar_description (Select pid)); simpl;
    [exists []; split; [reflexivity | left; reflexivity]|].
  destruct (find (has_person pid) t) as [r|]; simpl.
  - match goal with |- context [db_fault w _ (Update ?x)] => set (r' := x) end.
    exists [Db (Update r')]. split; [|right; exists r'; left; reflexivity].
    destruct (db_fault w _ (Update r')); simpl; [reflexivity|].
    destruct (existsb _ t); reflexivity.
  - match goal with |- context [db_fault w _ (Insert ?x)] => set (r' := x) end.
    exists [Db (Insert r')]. split; [|right; exists r'; right; reflexivity].
    destruct (db_fault w _ (Insert r')); simpl; [reflexivity|].
    destruct (existsb _ t); reflexivity.
Qed.

Lemma store_description_trace uid plat d w t :
  exists rest,
    trace (_store_description uid plat d w t) =
      [Called m_store_description; PersonApi plat uid] ++ rest /\
    (rest = [] \/
     exists pid writes,
       rest = [Called f_set_avatar_description; Db (Select pid)] ++ writes /\
       (writes = [] \/ exists r, writes = [Db (Update r)] \/ writes = [Db (Insert r)])).
Proof.
  destruct (store_description_cases uid plat d w t)
    as [(pid & b & t' & tr & _ & _ & Hset & ->) | (Hun & tr & Hrun & _)].
  - destruct (set_avatar_description_trace pid plat uid d None w t) as (writes & Htr & Hw).
    rewrite Hset in Htr. unfold trace in Htr. simpl in Htr. subst tr.
    eexists. split; [reflexivity|]. right. exists pid, writes. auto.
  - exists []. split; [|left; reflexivity].
    revert Hrun. unfold _store_description, bind, request, emit, try_except, ret.
    destruct (get_person_id w m_store_description plat uid) as [[[|c s]|]|e] eqn:Hpid;
      simpl; try (intros [= <-]; reflexivity).
    specialize (Hun _ eq_refl). discriminate.
Qed.
(** ** How [analyze_and_store] is made of its helpers *)

(** The four ways a call of [analyze_and_store] ends, with the table and
    the trace each one leaves. [lookup] is the trace of the search for a
    cached description, empty when the update is forced. *)
Lemma analyze_and_store_shape uid plat (force : bool) prompt w t :
  let lookup : list event := if force then [] else trace (_get_existing_description uid plat w t) in
  (exists d,
     force = false /\
     result (_get_existing_description uid plat w t) = Returns (Some d) /\ d <> "" /\
     analyze_and_store uid plat force prompt w t = (Returns (true, d), t, lookup)) \/
  (cache_miss uid plat force w t /\
   exists a tr1,
     _fetch_avatar uid plat w t = (Returns a, t, tr1) /\
     (((a = None \/ a = Some []) /\
       analyze_and_store uid plat force prompt w t =
         (Returns (false, msg_avatar_unavailable), t, lookup ++ tr1)) \/
      (exists data s tr2,
         a = Some data /\ data <> [] /\
         _analyze_avatar data prompt w t = (Returns (Some s), t, tr2) /\
         ((s = "" /\
           analyze_and_store uid plat force prompt w t =
             (Returns (false, msg_analysis_failed), t, lookup ++ tr1 ++ tr2)) \/
          (s <> "" /\
           exists ok t3 tr3,
             _store_description uid plat s w t = (Returns ok, t3, tr3) /\
             analyze_and_store uid plat force prompt w t =
               (Returns (if ok then (true, s) else (false, msg_store_failed)),
                t3, lookup ++ tr1 ++ tr2 ++ tr3)))))).
Proof.
  intros lookup.
  destruct (get_existing_description_run uid plat w t) as (v & tr & Hget & _).
  destruct (fetch_avatar_run uid plat w t) as (a & tr1 & Hfetch & _).
  assert (Hmiss_run :
    (force = true \/ opt_truthy v = false) ->
    analyze_and_store uid plat force prompt w t =
      match a with
      | Some (b :: bs) =>
          match try_block _analyze_avatar _store_description uid plat (b :: bs) prompt w t with
          | (r, t2, tr2) => (r, t2, lookup ++ tr1 ++ tr2)
          end
      | _ => (Returns (false, msg_avatar_unavailable), t, lookup ++ tr1)
      end).
  { intros Hm. unfold analyze_and_store, analyze_and_store_body.
    assert (Hstep : (if negb force
                     then existing <- _get_existing_description uid plat ;;
                          ret (if opt_truthy existing then existing else None)
                     else ret None) w t = (Returns None, t, lookup)).
    { subst lookup. destruct force; simpl; [reflexivity|].
      destruct Hm as [?|Hv]; [discriminate|].
      unfold bind. rewrite Hget. simpl. rewrite Hv, app_nil_r. reflexivity. }
    unfold bind at 1. rewrite Hstep.
    unfold bind at 1. rewrite Hfetch.
    destruct a as [[|b bs]|]; simpl; rewrite ?app_nil_r; try reflexivity.
    unfold try_block.
    match goal with
    | |- context [try_except ?m ?h w t] => generalize (try_except m h w t)
    end.
    intros [[r t2] tr2]. reflexivity. }
  assert (Hcases : (force = false /\ opt_truthy v = true) \/
                   (force = true \/ opt_truthy v = false)).
  { destruct force; [right; left; reflexivity|].
    destruct (opt_truthy v); [left | right; right]; auto. }
  destruct Hcases as [[-> Hv] | Hm].
  - left. destruct v as [d|]; [|discriminate]. exists d.
    split; [reflexivity|]. split; [rewrite Hget; reflexivity|].
    split; [destruct d; [discriminate | discriminate]|].
    subst lookup. simpl. unfold trace. rewrite Hget. simpl.
    apply body_cache_hit; assumption.
  - right. split.
    { destruct Hm as [->|Hv]; [left; reflexivity|].
      right. exists v. rewrite Hget. auto. }
    exists a, tr1. split; [exact Hfetch|].
    rewrite (Hmiss_run Hm).
    destruct a as [[|b bs]|]; [left; auto | | left; auto].
    right.
    destruct (try_block_run uid plat (b :: bs) prompt w t) as (s & tr2 & Han & Htry).
    exists (b :: bs), s, tr2. split; [reflexivity|]. split; [discriminate|].
    split; [exact Han|]. rewrite Htry.
    destruct s as [|c s]; [left; auto|].
    right. split; [discriminate|].
    destruct (store_description_returns uid plat (String c s) w t) as [ok Hok].
    destruct (_store_description uid plat (String c s) w t) as [[r t3] tr3].
    unfold result in Hok. simpl in Hok. subst r.
    exists ok, t3, tr3. split; [reflexivity|].
    destruct ok; reflexivity.
Qed.
Lemma trace_run {A} (r : outcome A) t tr : trace (r, t, tr) = tr.
Proof. reflexivity. Qed.

Lemma table_after_run {A} (r : outcome A) t tr : table_after (r, t, tr) = t.
Proof. reflexivity. Qed.

Lemma result_run {A} (r : outcome A) t tr : result (r, t, tr) = r.
Proof. reflexivity. Qed.

Lemma http_requests_app tr1 tr2 :
  http_requests (tr1 ++ tr2) = http_requests tr1 + http_requests tr2.
Proof. apply count_app. Qed.

(** What each helper leaves in the trace: it is entered once, enters the
    function of [models.py] it uses once at most, and asks its own
    collaborator once at most. *)
Lemma get_existing_description_counts uid plat w t :
  let tr := trace (_get_existing_description uid plat w t) in
  (forall f, calls f tr <=
             match f with
             | m_get_existing_description | f_get_avatar_description => 1
             | _ => 0
             end) /\
  db_writes tr = 0 /\ http_requests tr = 0 /\ model_requests tr = 0.
Proof.
  intros tr. subst tr. rewrite get_existing_description_trace.
  destruct (get_person_id w m_get_existing_description plat uid) as [[[|c s]|]|e];
    (split; [intros []; cbv; lia | repeat split]).
Qed.

Lemma fetch_avatar_counts uid plat w t :
  let tr := trace (_fetch_avatar uid plat w t) in
  (forall f, calls f tr = match f with m_fetch_avatar => 1 | _ => 0 end) /\
  db_writes tr = 0 /\ http_requests tr <= 1 /\ model_requests tr = 0.
Proof.
  intros tr. subst tr. rewrite fetch_avatar_trace.
  destruct (String.eqb plat "qq"); (split; [intros []; reflexivity | repeat split; cbv; lia]).
Qed.

Lemma analyze_avatar_counts data prompt w t :
  let tr := trace (_analyze_avatar data prompt w t) in
  (forall f, calls f tr = match f with m_analyze_avatar => 1 | _ => 0 end) /\
  db_writes tr = 0 /\ http_requests tr = 0 /\ model_requests tr <= 1.
Proof.
  intros tr. subst tr. rewrite analyze_avatar_trace.
  destruct (get_available_models w) as [models|e];
    [destruct (models !! "vision_general")|];
    (split; [intros []; reflexivity | repeat split; cbv; lia]).
Qed.

Lemma store_description_counts uid plat d w t :
  let tr := trace (_store_description uid plat d w t) in
  (forall f, calls f tr <=
             match f with
             | m_store_description | f_set_avatar_description => 1
             | _ => 0
             end) /\
  db_writes tr <= 1 /\ http_requests tr = 0 /\ model_requests tr = 0.
Proof.
  intros tr. subst tr.
  destruct (store_description_trace uid plat d w t) as (rest & -> & Hrest).
  destruct Hrest as [-> | (pid & writes & -> & [-> | (r & [-> | ->])])];
    (split; [intros []; cbv; lia | repeat split; cbv; lia]).
Qed.

(** X4. One call of [analyze_and_store] enters every helper once at most,
    sends one request at most to the avatar server and one to the vision
    model, and writes one row at most: nothing is tried twice. The table
    keeps its rows and gains one at most. *)
Theorem X4_analyze_and_store_single_attempt w t uid plat force prompt :
  let run := analyze_and_store uid plat force prompt w t in
  (forall f, calls f (trace run) <= 1) /\
  http_requests (trace run) <= 1 /\
  model_requests (trace run) <= 1 /\
  db_writes (trace run) <= 1 /\
  length t <= length (table_after run) <= S (length t).
Proof.
  intros run. subst run.
  destruct (get_existing_description_counts uid plat w t) as (G1 & G2 & G3 & G4).
  destruct (fetch_avatar_counts uid plat w t) as (F1 & F2 & F3 & F4).
  assert (L : let lookup : list event :=
                if force then [] else trace (_get_existing_description uid plat w t) in
              (forall f, calls f lookup <=
                         match f with
                         | m_get_existing_description | f_get_avatar_description => 1
                         | _ => 0
                         end) /\
              db_writes lookup = 0 /\ http_requests lookup = 0 /\ model_requests lookup = 0).
  { destruct force; [|auto]. split; [intros []; cbv; lia | repeat split]. }
  destruct (analyze_and_store_shape uid plat force prompt w t)
    as [(d & _ & _ & _ & ->) | (_ & a & tr1 & Hfetch & Hrest)];
    cbv zeta in L; destruct L as (L1 & L2 & L3 & L4).
  { rewrite !trace_run, table_after_run.
    split; [intros f; specialize (L1 f); destruct f; lia | lia]. }
  assert (Htr1 : tr1 = trace (_fetch_avatar uid plat w t)) by (rewrite Hfetch; reflexivity).
  subst tr1. clear Hfetch.
  destruct Hrest as [[_ ->] | (data & s & tr2 & _ & _ & Han & Hrest)].
  { rewrite !trace_run, table_after_run.
    rewrite http_requests_app, model_requests_app, db_writes_app.
    split; [|lia]. intros f. rewrite calls_app. specialize (L1 f). rewrite (F1 f).
    destruct f; lia. }
  destruct (analyze_avatar_counts data prompt w t) as (A1 & A2 & A3 & A4).
  assert (Htr2 : tr2 = trace (_analyze_avatar data prompt w t)) by (rewrite Han; reflexivity).
  subst tr2. clear Han.
  destruct Hrest as [[_ ->] | (_ & ok & t3 & tr3 & Hstore & ->)].
  { rewrite !trace_run, table_after_run.
    rewrite !http_requests_app, !model_requests_app, !db_writes_app.
    split; [|lia]. intros f. rewrite !calls_app. specialize (L1 f).
    rewrite (F1 f), (A1 f). destruct f; lia. }
  destruct (store_description_counts uid plat s w t) as (S1 & S2 & S3 & S4).
  rewrite Hstore, trace_run in S1, S2, S3, S4.
  rewrite !trace_run, table_after_run.
  rewrite !http_requests_app, !model_requests_app, !db_writes_app.
  split; [intros f; rewrite !calls_app; specialize (L1 f); specialize (S1 f);
          rewrite (F1 f), (A1 f); destruct f; lia|].
  split; [lia|]. split; [lia|]. split; [lia|].
  (* the table *)
  destruct (store_description_cases uid plat s w t)
    as [(pid & b & t' & tr & _ & _ & Hset & Hrun) | (_ & tr & Hrun & _)];
    rewrite Hrun in Hstore; injection Hstore as <- <- <-; [|lia].
  destruct (set_avatar_description_cases pid plat uid s None w t)
    as [[_ Heq] | [(r0 & r' & _ & _ & _ & _ & _ & _ & _ & _ & Heq) | (_ & _ & Heq)]];
    rewrite Hset in Heq; unfold table_after in Heq; simpl in Heq; subst t'.
  - lia.
  - unfold replace_row. rewrite length_map. lia.
  - rewrite length_app. simpl. lia.
Qed.
(** X1. With [force_update] the cached description is not looked up:
    [_get_existing_description] and [get_avatar_description] are not
    entered, and [_fetch_avatar] is entered exactly once, first of all. *)
Theorem X1_force_update_skips_the_cache w t uid plat prompt :
  let run := analyze_and_store uid plat true prompt w t in
  calls m_get_existing_description (trace run) = 0 /\
  calls f_get_avatar_description (trace run) = 0 /\
  calls m_fetch_avatar (trace run) = 1 /\
  exists rest, trace run = Called m_fetch_avatar :: rest.
Proof.
  intros run. subst run.
  destruct (fetch_avatar_counts uid plat w t) as (F1 & _).
  destruct (analyze_and_store_shape uid plat true prompt w t)
    as [(d & Hforce & _) | (_ & a & tr1 & Hfetch & Hrest)]; [discriminate|].
  assert (Htr1 : tr1 = trace (_fetch_avatar uid plat w t)) by (rewrite Hfetch; reflexivity).
  assert (Hhead : exists rest1, tr1 = Called m_fetch_avatar :: rest1).
  { rewrite Htr1, fetch_avatar_trace. eauto. }
  destruct Hhead as (rest1 & Hhead).
  destruct Hrest as [[_ ->] | (data & s & tr2 & _ & _ & Han & Hrest)].
  { rewrite trace_run. simpl. rewrite Htr1, !F1.
    repeat split. rewrite <- Htr1, Hhead. eauto. }
  destruct (analyze_avatar_counts data prompt w t) as (A1 & _).
  assert (Htr2 : tr2 = trace (_analyze_avatar data prompt w t)) by (rewrite Han; reflexivity).
  destruct Hrest as [[_ ->] | (_ & ok & t3 & tr3 & Hstore & ->)].
  { rewrite trace_run. simpl. rewrite !calls_app, Htr1, Htr2, !F1, !A1.
    repeat split. rewrite <- Htr1, Hhead. simpl. eauto. }
  destruct (store_description_counts uid plat s w t) as (S1 & _).
  rewrite Hstore, trace_run in S1.
  rewrite trace_run. simpl. rewrite !calls_app, Htr1, Htr2, !F1, !A1.
  pose proof (S1 m_get_existing_description) as S1a.
  pose proof (S1 f_get_avatar_description) as S1b.
  pose proof (S1 m_fetch_avatar) as S1c. simpl in S1a, S1b, S1c.
  split; [lia|]. split; [lia|]. split; [lia|].
  rewrite <- Htr1, Hhead. simpl. eauto.
Qed.

(** X5. The results of [analyze_and_store]: a success carries a non-empty
    description, and a failure one of the three fixed messages. *)
Theorem X5_analyze_and_store_results w t uid plat force prompt :
  exists ok msg,
    result (analyze_and_store uid plat force prompt w t) = Returns (ok, msg) /\
    (ok = true -> msg <> "") /\
    (ok = false ->
     msg = msg_avatar_unavailable \/ msg = msg_analysis_failed \/ msg = msg_store_failed).
Proof.
  destruct (analyze_and_store_shape uid plat force prompt w t)
    as [(d & _ & _ & Hd & ->) | (_ & a & tr1 & _ & Hrest)].
  { exists true, d. rewrite result_run. split; [reflexivity|]. split; [auto | discriminate]. }
  destruct Hrest as [[_ ->] | (data & s & tr2 & _ & _ & _ & Hrest)].
  { exists false, msg_avatar_unavailable. rewrite result_run.
    split; [reflexivity|]. split; [discriminate | auto]. }
  destruct Hrest as [[_ ->] | (Hs & ok & t3 & tr3 & _ & ->)].
  { exists false, msg_analysis_failed. rewrite result_run.
    split; [reflexivity|]. split; [discriminate | auto]. }
  rewrite result_run. destruct ok.
  - exists true, s. split; [reflexivity|]. split; [auto | discriminate].
  - exists false, msg_store_failed. split; [reflexivity|]. split; [discriminate | auto].
Qed.
(** ** [models.py]: what a write leaves for the next read *)

(** The row [save] writes is the first row of its person afterwards. *)
Lemma find_replace_row pid t r r' :
  find (has_person pid) t = Some r -> id r' = id r -> person_id r' = pid ->
  find (has_person pid) (replace_row r' t) = Some r'.
Proof.
  intros Hfind Hid Hpid. assert (Hr' : has_person pid r' = true) by (apply has_person_eq, Hpid).
  induction t as [|x t IH]; simpl in *; [discriminate|].
  destruct (has_person pid x) eqn:Hx.
  - injection Hfind as ->. rewrite Hid, Z.eqb_refl, Hr'. reflexivity.
  - destruct (id x =? id r')%Z; [rewrite Hr'; reflexivity|].
    rewrite Hx. apply IH, Hfind.
Qed.

(** On a table with its two keys and a database without fault,
    [set_avatar_description] succeeds. *)
Lemma set_avatar_description_succeeds pid plat uid d url w t :
  table_ok t ->
  (forall op, db_fault w f_set_avatar_description op = None) ->
  result (set_avatar_description pid plat uid d url w t) = Returns true.
Proof.
  intros [Hids Hpids] Hdb.
  unfold set_avatar_description, get_or_none, save, create. run_unfold. simpl.
  rewrite Hdb. simpl.
  destruct (find (has_person pid) t) as [r|] eqn:Hfind; simpl; rewrite Hdb; simpl.
  - match goal with |- context [existsb ?p t] => destruct (existsb p t) eqn:E end;
      [|reflexivity].
    exfalso. apply existsb_exists in E as (x & Hx & Hcond).
    apply andb_prop in Hcond as [Hsame Hother].
    destruct (find_split _ _ _ Hfind) as (Hp & t1 & t2 & -> & _).
    assert (Hpx : person_id x = person_id r).
    { apply has_person_eq in Hsame. rewrite Hsame.
      destruct (opt_truthy url); reflexivity. }
    assert (Hidx : id x <> id r).
    { apply negb_true_iff, Z.eqb_neq in Hother.
      destruct (opt_truthy url); exact Hother. }
    assert (x = r); [|congruence].
    rewrite fmap_app, fmap_cons in Hpids.
    apply NoDup_app in Hpids as (_ & Hdisj & Hnd).
    apply NoDup_cons in Hnd as [Hnotin _].
    apply in_app_or in Hx as [Hx|[Hx|Hx]]; [| auto |]; exfalso.
    + apply (Hdisj (person_id x)).
      * apply list_elem_of_fmap. exists x. split; [reflexivity | apply list_elem_of_In, Hx].
      * rewrite Hpx. apply elem_of_cons. left; reflexivity.
    + apply Hnotin. rewrite <- Hpx. apply list_elem_of_fmap.
      exists x. split; [reflexivity | apply list_elem_of_In, Hx].
  - destruct (existsb (has_person pid) t) eqn:E; [|reflexivity].
    exfalso. apply existsb_exists in E as (x & Hx & Hcond).
    apply find_none_records, records_zero in Hfind. apply Hfind.
    apply has_person_eq in Hcond. subst pid.
    apply list_elem_of_fmap. exists x. split; [reflexivity | apply list_elem_of_In, Hx].
Qed.

(** X9. Round trip of the store: once [set_avatar_description] has
    returned [True] for a person, [get_avatar_description] returns the
    description just written, whatever the table held before, as long as
    the read itself does not fail. *)
Theorem X9_written_description_is_read_back pid plat uid d url w t w' :
  result (set_avatar_description pid plat uid d url w t) = Returns true ->
  db_fault w' f_get_avatar_description (Select pid) = None ->
  result (get_avatar_description pid w' (table_after (set_avatar_description pid plat uid d url w t)))
    = Returns (Some d).
Proof.
  intros Hok Hread. rewrite get_avatar_description_run, Hread, result_run.
  destruct (set_avatar_description_cases pid plat uid d url w t)
    as [[Hfalse _] | [(r & r' & Hfind & Hid & Hpid & _ & _ & Hd & _ & _ & ->) | (Hfind & _ & ->)]].
  - congruence.
  - destruct (find_split _ _ _ Hfind) as (Hp & _).
    rewrite (find_replace_row pid t r r' Hfind Hid) by congruence. rewrite Hd. reflexivity.
  - rewrite find_app_miss by (apply find_none_records, Hfind). simpl.
    assert (has_person pid
              (mkAvatarDescription (next_id t) pid plat uid (Some d) (Some (time_time w)) url)
            = true) as -> by (apply has_person_eq; reflexivity).
    reflexivity.
Qed.

Lemma X9_written_description_is_read_back_witness :
  result (set_avatar_description "p_u1" "qq" "u1" "a dog avatar" None world_ok [row_u1])
    = Returns true /\
  result (get_avatar_description "p_u1" world_ok
            (table_after (set_avatar_description "p_u1" "qq" "u1" "a dog avatar" None
                            world_ok [row_u1])))
    = Returns (Some "a dog avatar").
Proof.
  split; [reflexivity|].
  apply (X9_written_description_is_read_back "p_u1" "qq" "u1" "a dog avatar" None
           world_ok [row_u1] world_ok); reflexivity.
Defined.
Lemma find_app_cases {A} (p : A -> bool) l1 l2 :
  find p (l1 ++ l2) = match find p l1 with Some x => Some x | None => find p l2 end.
Proof.
  induction l1 as [|x l1 IH]; simpl; [reflexivity|]. destruct (p x); [reflexivity | exact IH].
Qed.

(** X10. A write for one person leaves the descriptions of all others as
    they were: on a table with its two keys, what [get_avatar_description]
    returns for another person is the same before and after
    [set_avatar_description], whether the write succeeded or not. *)
Theorem X10_other_persons_are_untouched pid plat uid d url w t p w' :
  table_ok t -> p <> pid ->
  result (get_avatar_description p w' (table_after (set_avatar_description pid plat uid d url w t)))
    = result (get_avatar_description p w' t).
Proof.
  intros [Hids _] Hne. rewrite !get_avatar_description_run, !result_run.
  destruct (db_fault w' f_get_avatar_description (Select p)); [reflexivity|].
  destruct (set_avatar_description_cases pid plat uid d url w t)
    as [[_ ->] | [(r & r' & Hfind & Hid & Hpid & _ & _ & _ & _ & _ & ->) | (Hfind & _ & ->)]].
  - reflexivity.
  - destruct (find_split _ _ _ Hfind) as (Hp & t1 & t2 & -> & _).
    rewrite (replace_row_split r r' t1 t2 Hids Hid).
    rewrite !find_app_cases. simpl.
    assert (has_person p r = false) as -> by (apply has_person_neq; congruence).
    assert (has_person p r' = false) as -> by (apply has_person_neq; congruence).
    reflexivity.
  - rewrite find_app_cases. simpl.
    assert (has_person p
              (mkAvatarDescription (next_id t) pid plat uid (Some d) (Some (time_time w)) url)
            = false) as -> by (apply has_person_neq; simpl; congruence).
    destruct (find (has_person p) t); reflexivity.
Qed.

Lemma X10_other_persons_are_untouched_witness :
  result (get_avatar_description "p_u1" world_ok
            (table_after (set_avatar_description "p_u2" "qq" "u2" "a dog avatar" None
                            world_ok [row_u1])))
    = Returns (Some "a cat avatar").
Proof.
  rewrite (X10_other_persons_are_untouched "p_u2" "qq" "u2" "a dog avatar" None
             world_ok [row_u1] "p_u1" world_ok).
  - reflexivity.
  - split; apply NoDup_singleton.
  - discriminate.
Defined.

(** The row an update writes: the description and the clock reading are
    new, the avatar URL is new when one is given, and the rest is the row
    as it was read. *)
Lemma set_avatar_description_update pid plat uid d url w t r :
  find (has_person pid) t = Some r ->
  result (set_avatar_description pid plat uid d url w t) = Returns true ->
  table_after (set_avatar_description pid plat uid d url w t) =
    replace_row
      (mkAvatarDescription (id r) (person_id r) (platform r) (user_id r)
         (Some d) (Some (time_time w))
         (if opt_truthy url then url else avatar_url r)) t.
Proof.
  unfold set_avatar_description, get_or_none, save, create. run_unfold. simpl.
  intros Hfind.
  destruct (db_fault w f_set_avatar_description (Select pid)); simpl; [discriminate|].
  rewrite Hfind. simpl.
  match goal with |- context [db_fault w _ (Update ?x)] => set (r' := x) end.
  assert (Hr' : r' = mkAvatarDescription (id r) (person_id r) (platform r) (user_id r)
                       (Some d) (Some (time_time w))
                       (if opt_truthy url then url else avatar_url r)).
  { subst r'. destruct (opt_truthy url); reflexivity. }
  destruct (db_fault w _ (Update r')); simpl; [discriminate|].
  destruct (existsb _ t); simpl; [discriminate|].
  intros _. rewrite Hr'. reflexivity.
Qed.

(** X11. An update keeps what identifies the row. When the person has a
    row, a successful [set_avatar_description] leaves a row with the same
    key, platform and user identifier as before, even when other values
    are passed, and replaces the avatar URL only by a non-empty one; for a
    person without a row the platform, user identifier and URL are those
    passed. *)
Theorem X11_update_keeps_platform_and_user pid plat uid d url w t :
  result (set_avatar_description pid plat uid d url w t) = Returns true ->
  exists r',
    find (has_person pid) (table_after (set_avatar_description pid plat uid d url w t))
      = Some r' /\
    head_description r' = Some d /\
    match find (has_person pid) t with
    | Some r =>
        id r' = id r /\ platform r' = platform r /\ user_id r' = user_id r /\
        avatar_url r' = (if opt_truthy url then url else avatar_url r)
    | None => platform r' = plat /\ user_id r' = uid /\ avatar_url r' = url
    end.
Proof.
  intros Hok.
  destruct (find (has_person pid) t) as [r|] eqn:Hfind.
  - rewrite (set_avatar_description_update pid plat uid d url w t r Hfind Hok).
    destruct (find_split _ _ _ Hfind) as (Hp & _).
    eexists. split; [apply (find_replace_row pid t r); [exact Hfind | reflexivity | exact Hp]|].
    simpl. repeat split.
  - destruct (set_avatar_description_cases pid plat uid d url w t)
      as [[Hfalse _] | [(r & r' & Hfind' & _) | (_ & _ & ->)]]; [congruence | congruence |].
    eexists. split.
    + rewrite find_app_miss by (apply find_none_records, Hfind). simpl.
      assert (has_person pid
                (mkAvatarDescription (next_id t) pid plat uid (Some d) (Some (time_time w)) url)
              = true) as -> by (apply has_person_eq; reflexivity).
      reflexivity.
    + simpl. repeat split.
Qed.

(** The row of [u1], written again from another platform and user. *)
Lemma X11_update_keeps_platform_and_user_witness :
  exists r',
    find (has_person "p_u1")
      (table_after (set_avatar_description "p_u1" "discord" "u9" "a dog avatar" (Some "")
                      world_ok [row_u1])) = Some r' /\
    head_description r' = Some "a dog avatar" /\
    id r' = 1%Z /\ platform r' = "qq" /\ user_id r' = "u1" /\ avatar_url r' = None.
Proof.
  destruct (X11_update_keeps_platform_and_user "p_u1" "discord" "u9" "a dog avatar" (Some "")
              world_ok [row_u1] eq_refl) as (r' & Hfind & Hd & Hrest).
  exists r'. split; [exact Hfind|]. split; [exact Hd | exact Hrest].
Defined.
(** ** [analyze_and_store]: a description analysed is a description cached *)

(** The call that analyses and stores: no cached description stops it, the
    avatar is fetched, the description is not empty, the person is
    resolved and the database raises nothing. *)
Lemma analysis_is_written w t uid plat force prompt data d pid :
  table_ok t -> cache_miss uid plat force w t ->
  result (_fetch_avatar uid plat w t) = Returns (Some data) -> data <> [] ->
  result (_analyze_avatar data prompt w t) = Returns (Some d) -> d <> "" ->
  get_person_id w m_store_description plat uid = Returns (Some pid) -> pid <> "" ->
  (forall op, db_fault w f_set_avatar_description op = None) ->
  result (analyze_and_store uid plat force prompt w t) = Returns (true, d) /\
  result (set_avatar_description pid plat uid d None w t) = Returns true /\
  table_after (analyze_and_store uid plat force prompt w t) =
    table_after (set_avatar_description pid plat uid d None w t).
Proof.
  intros Hok Hmiss Hfetch Hdata Han Hd Hpid Hne Hdb.
  pose proof (set_avatar_description_succeeds pid plat uid d None w t Hok Hdb) as Hset.
  destruct (analyze_and_store_shape uid plat force prompt w t)
    as [(d0 & -> & Hhit & Hd0 & _) | (_ & a & tr1 & Hfetch' & Hrest)].
  { destruct Hmiss as [? | (v & Hv & Hfalse)]; [discriminate|].
    rewrite Hhit in Hv. injection Hv as <-. destruct d0; [congruence | discriminate]. }
  rewrite Hfetch', result_run in Hfetch. injection Hfetch as ->.
  destruct Hrest as [[[?|?] _] | (data' & s & tr2 & [= <-] & _ & Han' & Hrest)];
    [discriminate | congruence |].
  rewrite Han', result_run in Han. injection Han as ->.
  destruct Hrest as [[? _] | (_ & ok & t3 & tr3 & Hstore & ->)]; [congruence|].
  destruct (store_description_cases uid plat d w t)
    as [(pid' & b & t' & tr & Hpid' & _ & Hset' & Hrun) | (Hun & _)];
    [|destruct (Hne (Hun pid Hpid))].
  rewrite Hpid in Hpid'. injection Hpid' as <-.
  rewrite Hrun in Hstore. injection Hstore as <- <- <-.
  rewrite Hset' in Hset |- *. rewrite result_run in Hset.
  rewrite result_run, !table_after_run. auto.
Qed.

(** The lookup that finds a description. *)
Lemma get_existing_description_hit uid plat w t pid d :
  get_person_id w m_get_existing_description plat uid = Returns (Some pid) -> pid <> "" ->
  result (get_avatar_description pid w t) = Returns (Some d) ->
  _get_existing_description uid plat w t =
    (Returns (Some d), t,
     [Called m_get_existing_description; PersonApi plat uid;
      Called f_get_avatar_description; Db (Select pid)]).
Proof.
  intros Hpid Hne Hget. unfold _get_existing_description.
  unfold bind at 1, emit, try_except, bind, request. rewrite Hpid.
  destruct pid as [|c s]; [congruence|].
  rewrite get_avatar_description_run in Hget |- *. rewrite result_run in Hget.
  injection Hget as ->. reflexivity.
Qed.

(** X6. When a call of [analyze_and_store] fetches an avatar, gets a
    non-empty description [d] for it, resolves the person and meets no
    fault of the database on a table with its two keys, it returns
    [(True, d)] and [d] is what [get_avatar_description] returns for the
    person from then on. *)
Theorem X6_successful_analysis_is_stored w t uid plat force prompt data d pid :
  table_ok t -> cache_miss uid plat force w t ->
  result (_fetch_avatar uid plat w t) = Returns (Some data) -> data <> [] ->
  result (_analyze_avatar data prompt w t) = Returns (Some d) -> d <> "" ->
  get_person_id w m_store_description plat uid = Returns (Some pid) -> pid <> "" ->
  (forall op, db_fault w f_set_avatar_description op = None) ->
  let run := analyze_and_store uid plat force prompt w t in
  result run = Returns (true, d) /\
  forall w',
    db_fault w' f_get_avatar_description (Select pid) = None ->
    result (get_avatar_description pid w' (table_after run)) = Returns (Some d).
Proof.
  intros Hok Hmiss Hfetch Hdata Han Hd Hpid Hne Hdb run. subst run.
  destruct (analysis_is_written w t uid plat force prompt data d pid
              Hok Hmiss Hfetch Hdata Han Hd Hpid Hne Hdb) as (Hres & Hset & ->).
  split; [exact Hres|]. intros w' Hread.
  rewrite get_avatar_description_run, Hread, result_run.
  destruct (set_avatar_description_cases pid plat uid d None w t)
    as [[Hfalse _] | [(r & r' & Hfind & Hid & Hp & _ & _ & Hdesc & _ & _ & ->) | (Hfind & _ & ->)]].
  - congruence.
  - destruct (find_split _ _ _ Hfind) as (Hp' & _).
    rewrite (find_replace_row pid t r r' Hfind Hid) by congruence. rewrite Hdesc. reflexivity.
  - rewrite find_app_miss by (apply find_none_records, Hfind). simpl.
    assert (has_person pid
              (mkAvatarDescription (next_id t) pid plat uid (Some d) (Some (time_time w)) None)
            = true) as -> by (apply has_person_eq; reflexivity).
    reflexivity.
Qed.

(** The first call of scenario A. *)
Lemma X6_successful_analysis_is_stored_witness :
  result (analyze_and_store "u1" "qq" false None world_ok []) = Returns (true, "a cat avatar") /\
  result (get_avatar_description "p_u1" world_ok
            (table_after (analyze_and_store "u1" "qq" false None world_ok [])))
    = Returns (Some "a cat avatar").
Proof.
  destruct (X6_successful_analysis_is_stored world_ok [] "u1" "qq" false None
              [x4d; x61; x6e]%byte "a cat avatar" "p_u1") as (Hres & Hread).
  - apply table_ok_nil.
  - right. exists None. split; reflexivity.
  - reflexivity.
  - discriminate.
  - reflexivity.
  - discriminate.
  - reflexivity.
  - discriminate.
  - reflexivity.
  - split; [exact Hres | apply Hread; reflexivity].
Defined.
(** X7. Analysed once, returned from the cache afterwards. After a call
    that analysed and stored the description [d] of a person, a call
    without [force_update] for a user resolved to the same person returns
    [(True, d)] from the table, in any world where the lookup works:
    nothing is fetched, no model is asked, and the table stays as the
    first call left it. *)
Theorem X7_second_call_returns_the_cached_description
    w t uid plat force prompt data d pid w2 uid2 plat2 prompt2 :
  table_ok t -> cache_miss uid plat force w t ->
  result (_fetch_avatar uid plat w t) = Returns (Some data) -> data <> [] ->
  result (_analyze_avatar data prompt w t) = Returns (Some d) -> d <> "" ->
  get_person_id w m_store_description plat uid = Returns (Some pid) -> pid <> "" ->
  (forall op, db_fault w f_set_avatar_description op = None) ->
  get_person_id w2 m_get_existing_description plat2 uid2 = Returns (Some pid) ->
  db_fault w2 f_get_avatar_description (Select pid) = None ->
  let run1 := analyze_and_store uid plat force prompt w t in
  let run2 := analyze_and_store uid2 plat2 false prompt2 w2 (table_after run1) in
  result run2 = Returns (true, d) /\
  table_after run2 = table_after run1 /\
  calls m_fetch_avatar (trace run2) = 0 /\
  http_requests (trace run2) = 0 /\
  model_requests (trace run2) = 0 /\
  db_writes (trace run2) = 0.
Proof.
  intros Hok Hmiss Hfetch Hdata Han Hd Hpid Hne Hdb Hpid2 Hread run1 run2.
  subst run1 run2.
  destruct (analysis_is_written w t uid plat force prompt data d pid
              Hok Hmiss Hfetch Hdata Han Hd Hpid Hne Hdb) as (_ & Hset & ->).
  set (t1 := table_after (set_avatar_description pid plat uid d None w t)).
  assert (Hcached : result (get_avatar_description pid w2 t1) = Returns (Some d)).
  { subst t1. rewrite get_avatar_description_run, Hread, result_run.
    destruct (set_avatar_description_cases pid plat uid d None w t)
      as [[Hfalse _]
         | [(r & r' & Hfind & Hid & Hp & _ & _ & Hdesc & _ & _ & ->) | (Hfind & _ & ->)]].
    - congruence.
    - destruct (find_split _ _ _ Hfind) as (Hp' & _).
      rewrite (find_replace_row pid t r r' Hfind Hid) by congruence.
      rewrite Hdesc. reflexivity.
    - rewrite find_app_miss by (apply find_none_records, Hfind). simpl.
      assert (has_person pid
                (mkAvatarDescription (next_id t) pid plat uid (Some d)
                   (Some (time_time w)) None) = true) as ->
        by (apply has_person_eq; reflexivity).
      reflexivity. }
  pose proof (get_existing_description_hit uid2 plat2 w2 t1 pid d Hpid2 Hne Hcached) as Hhit.
  assert (Htruthy : str_truthy d = true) by (destruct d; [congruence | reflexivity]).
  unfold analyze_and_store.
  rewrite (body_cache_hit _ _ uid2 plat2 prompt2 w2 t1 d _ Hhit Htruthy).
  repeat split.
Qed.

(** Scenario A: the same user asked twice on an empty table. *)
Lemma X7_second_call_returns_the_cached_description_witness :
  let run1 := analyze_and_store "u1" "qq" false None world_ok [] in
  let run2 := analyze_and_store "u1" "qq" false None world_ok (table_after run1) in
  result run2 = Returns (true, "a cat avatar") /\
  table_after run2 = table_after run1 /\
  calls m_fetch_avatar (trace run2) = 0 /\
  http_requests (trace run2) = 0 /\
  model_requests (trace run2) = 0 /\
  db_writes (trace run2) = 0.
Proof.
  apply (X7_second_call_returns_the_cached_description world_ok [] "u1" "qq" false None
           [x4d; x61; x6e]%byte "a cat avatar" "p_u1" world_ok "u1" "qq" None).
  - apply table_ok_nil.
  - right. exists None. split; reflexivity.
  - reflexivity.
  - discriminate.
  - reflexivity.
  - discriminate.
  - reflexivity.
  - discriminate.
  - reflexivity.
  - reflexivity.
  - reflexivity.
Defined.

(** ** [_fetch_avatar] *)

(** X2. Only ["qq"] has an avatar server: on every other platform,
    ["discord"] included, [_fetch_avatar] returns [None] at once, without
    any request. *)
Theorem X2_fetch_avatar_other_platforms uid plat w t :
  plat <> "qq" ->
  _fetch_avatar uid plat w t = (Returns None, t, [Called m_fetch_avatar]).
Proof.
  intros Hne. unfold _fetch_avatar. run_unfold.
  destruct (String.eqb plat "discord"); [reflexivity|].
  destruct (String.eqb_spec plat "qq"); [contradiction | reflexivity].
Qed.

Lemma X2_fetch_avatar_other_platforms_witness :
  _fetch_avatar "u1" "telegram" world_ok [] = (Returns None, [], [Called m_fetch_avatar]).
Proof. apply X2_fetch_avatar_other_platforms. discriminate. Defined.

(** X3. On ["qq"] [_fetch_avatar] sends one GET to the address of the
    user's avatar and returns the body exactly when the server answers
    200 and the body can be read; a raising request, another status and a
    failing read all give [None], and nothing is raised. *)
Theorem X3_fetch_avatar_qq uid w t :
  let url := "http://q.qlogo.cn/headimg_dl?dst_uin=" +:+ uid +:+ "&spec=640&img_type=jpg" in
  let run := _fetch_avatar uid "qq" w t in
  trace run = [Called m_fetch_avatar; Http url] /\
  table_after run = t /\
  (exists v, result run = Returns v) /\
  (forall data,
     result run = Returns (Some data) <->
     exists response,
       session_get w url = Returns response /\ status response = 200%Z /\
       read response = Returns data).
Proof.
  intros url run. subst run. unfold _fetch_avatar. run_unfold. simpl. fold url.
  destruct (session_get w url) as [resp|e]; simpl.
  2:{ repeat split; eauto; [discriminate | intros (r & [=] & _)]. }
  destruct (Z.eqb_spec (status resp) 200) as [Hs|Hs]; simpl.
  2:{ repeat split; eauto; [discriminate | intros (r & [= <-] & ? & _); contradiction]. }
  destruct (read resp) as [body|e] eqn:Hread; simpl.
  - repeat split; eauto.
    + intros [= <-]. eauto.
    + intros (r & [= <-] & _ & Hr). congruence.
  - repeat split; eauto; [discriminate | intros (r & [= <-] & _ & Hr); congruence].
Qed.

(** ** [_analyze_avatar] and the vision model *)

(** X8. The request to the vision model. Without a model
    ["vision_general"] in the registry [_analyze_avatar] asks no model;
    with one it sends exactly one request, with the image in base64 and
    with the custom prompt when one is given and not empty, the default
    prompt otherwise. *)
Theorem X8_vision_request data prompt w t :
  let tr := trace (_analyze_avatar data prompt w t) in
  ((forall models, get_available_models w = Returns models ->
                   models !! "vision_general" = None) ->
   model_requests tr = 0) /\
  (forall models vision_model,
     get_available_models w = Returns models ->
     models !! "vision_general" = Some vision_model ->
     tr = [Called m_analyze_avatar; Registry;
           Llm (match prompt with
                | Some p => if str_truthy p then p else default_prompt
                | None => default_prompt
                end) (b64encode data)]).
Proof.
  intros tr. subst tr. rewrite analyze_avatar_trace. split.
  - intros Hnone. destruct (get_available_models w) as [models|e]; [|reflexivity].
    rewrite (Hnone models eq_refl). reflexivity.
  - intros models vm -> ->. destruct prompt as [[|c s]|]; reflexivity.
Qed.

Lemma X8_vision_request_witness :
  trace (_analyze_avatar [x4d; x61; x6e]%byte (Some "describe") world_ok []) =
    [Called m_analyze_avatar; Registry; Llm "describe" "TWFu"].
Proof.
  destruct (X8_vision_request [x4d; x61; x6e]%byte (Some "describe") world_ok [])
    as (_ & Hsent).
  apply (Hsent {[ "vision_general" := mkTaskConfig ["vlm"] ]} (mkTaskConfig ["vlm"]));
    reflexivity.
Defined.
(** ** [plugin_api.py] *)

Lemma get_head_description_for_prompt_run pid w t :
  get_head_description_for_prompt pid w t = get_avatar_description pid w t.
Proof.
  unfold get_head_description_for_prompt, try_except, bind, ret.
  rewrite get_avatar_description_run. simpl. reflexivity.
Qed.

(** X12. The head description offered to the prompt builder. Once a
    non-empty description is written for a person,
    [format_head_description_for_relation] of what
    [get_head_description_for_prompt] returns is the label followed by
    that description; for a person without a row, and when the database
    raises, nothing is raised and the text is empty. The table is never
    changed. *)
Theorem X12_head_description_for_relation pid plat uid d url w t w' :
  (result (set_avatar_description pid plat uid d url w t) = Returns true -> d <> "" ->
   db_fault w' f_get_avatar_description (Select pid) = None ->
   exists v,
     result (get_head_description_for_prompt pid w'
               (table_after (set_avatar_description pid plat uid d url w t))) = Returns v /\
     format_head_description_for_relation v = "ta的头像印象：" +:+ d) /\
  (records pid t = 0 \/ db_fault w' f_get_avatar_description (Select pid) <> None ->
   result (get_head_description_for_prompt pid w' t) = Returns None /\
   format_head_description_for_relation None = "") /\
  table_after (get_head_description_for_prompt pid w' t) = t.
Proof.
  split; [|split].
  - intros Hok Hd Hread. exists (Some d). split.
    + rewrite get_head_description_for_prompt_run, get_avatar_description_run, Hread, result_run.
      destruct (set_avatar_description_cases pid plat uid d url w t)
        as [[Hfalse _]
           | [(r & r' & Hfind & Hid & Hp & _ & _ & Hdesc & _ & _ & ->) | (Hfind & _ & ->)]].
      * congruence.
      * destruct (find_split _ _ _ Hfind) as (Hp' & _).
        rewrite (find_replace_row pid t r r' Hfind Hid) by congruence.
        rewrite Hdesc. reflexivity.
      * rewrite find_app_miss by (apply find_none_records, Hfind). simpl.
        assert (has_person pid
                  (mkAvatarDescription (next_id t) pid plat uid (Some d)
                     (Some (time_time w)) url) = true) as ->
          by (apply has_person_eq; reflexivity).
        reflexivity.
    + destruct d; [congruence | reflexivity].
  - intros Hmissing. split; [|reflexivity].
    rewrite get_head_description_for_prompt_run, get_avatar_description_run, result_run.
    destruct (db_fault w' f_get_avatar_description (Select pid)) eqn:E; [reflexivity|].
    destruct Hmissing as [Hz | Hf]; [|congruence].
    apply find_none_records in Hz. rewrite Hz. reflexivity.
  - rewrite get_head_description_for_prompt_run, get_avatar_description_run. reflexivity.
Qed.

Lemma X12_head_description_for_relation_witness :
  exists v,
    result (get_head_description_for_prompt "p_u1" world_ok
              (table_after (set_avatar_description "p_u1" "qq" "u1" "a dog avatar" None
                              world_ok [row_u1]))) = Returns v /\
    format_head_description_for_relation v = "ta的头像印象：a dog avatar".
Proof.
  destruct (X12_head_description_for_relation "p_u1" "qq" "u1" "a dog avatar" None
              world_ok [row_u1] world_ok) as (Hwritten & _).
  apply Hwritten; [reflexivity | discriminate | reflexivity].
Defined.
(** ** The index of the catalog *)

Lemma owns_spec k meme :
  owns k meme = true <->
  k = key meme \/ exists keyword, keyword ∈ keywords meme /\ k = lower keyword.
Proof.
  unfold owns. rewrite orb_true_iff, String.eqb_eq, existsb_exists. split.
  - intros [<-|(kw & Hin & Heq)]; [left; reflexivity|].
    right. exists kw. apply String.eqb_eq in Heq. split; [apply list_elem_of_In, Hin | auto].
  - intros [->|(kw & Hin & ->)]; [left; reflexivity|].
    right. exists kw. split; [apply list_elem_of_In, Hin | apply String.eqb_refl].
Qed.

Lemma dict_get_set {V} (d : list (string * V)) k v k' :
  dict_get (dict_set d k v) k' = if String.eqb k k' then Some v else dict_get d k'.
Proof.
  induction d as [|[k0 v0] d IH]; simpl.
  - destruct (String.eqb k k'); reflexivity.
  - destruct (String.eqb_spec k0 k) as [->|Hne]; simpl.
    + destruct (String.eqb k k'); reflexivity.
    + rewrite IH. destruct (String.eqb_spec k0 k') as [->|Hne'];
        [|reflexivity].
      destruct (String.eqb_spec k k'); [congruence | reflexivity].
Qed.

Lemma index_keywords_get (meme : Meme) kws (d : list (string * Meme)) k :
  dict_get (fold_left (fun d keyword => dict_set d (lower keyword) meme) kws d) k =
    if existsb (fun keyword => String.eqb (lower keyword) k) kws then Some meme
    else dict_get d k.
Proof.
  revert d. induction kws as [|kw kws IH]; intros d; simpl; [reflexivity|].
  rewrite IH, dict_get_set.
  destruct (existsb _ kws); [rewrite orb_true_r; reflexivity|].
  rewrite orb_false_r. reflexivity.
Qed.

(** One template indexed: its names now lead to it, the others where they
    led. *)
Lemma index_meme_get d meme k :
  dict_get (index_meme d meme) k = if owns k meme then Some meme else dict_get d k.
Proof.
  unfold index_meme, owns. rewrite index_keywords_get, dict_get_set.
  destruct (existsb _ (keywords meme)); [rewrite orb_true_r; reflexivity|].
  rewrite orb_false_r. reflexivity.
Qed.

(** Last writer wins: a name leads to the last template of the list that
    has it. *)
Lemma index_get memes d k :
  dict_get (fold_left index_meme memes d) k =
    match find (owns k) (rev memes) with
    | Some meme => Some meme
    | None => dict_get d k
    end.
Proof.
  revert d. induction memes as [|m memes IH]; intros d; simpl; [reflexivity|].
  rewrite IH, find_app_cases, index_meme_get. simpl.
  destruct (find (owns k) (rev memes)); [reflexivity|].
  destruct (owns k m); reflexivity.
Qed.

Lemma dict_set_items {V} (d : list (string * V)) k v k' v' :
  (k', v') ∈ dict_set d k v -> (k' = k /\ v' = v) \/ (k', v') ∈ d.
Proof.
  induction d as [|[k0 v0] d IH]; simpl.
  - intros H. apply list_elem_of_singleton in H. injection H as -> ->. auto.
  - destruct (String.eqb_spec k0 k) as [->|Hne]; rewrite !elem_of_cons.
    + intros [[= -> ->]|H]; auto.
    + intros [H|H]; [auto|]. destruct (IH H); auto.
Qed.

Lemma index_meme_items d meme k m :
  (k, m) ∈ index_meme d meme -> (owns k meme = true /\ m = meme) \/ (k, m) ∈ d.
Proof.
  unfold index_meme, owns.
  assert (Hkw : forall kws d0,
             (k, m) ∈ fold_left (fun d keyword => dict_set d (lower keyword) meme) kws d0 ->
             (existsb (fun keyword => String.eqb (lower keyword) k) kws = true /\ m = meme) \/
             (k, m) ∈ d0).
  { induction kws as [|kw kws IH]; intros d0; simpl; [auto|].
    intros H. destruct (IH _ H) as [[-> ->]|H'].
    - left. rewrite orb_true_r. auto.
    - apply dict_set_items in H' as [[-> ->]|H']; [|auto].
      left. rewrite String.eqb_refl. auto. }
  intros H. destruct (Hkw _ _ H) as [[-> ->]|H'].
  - left. rewrite orb_true_r. auto.
  - apply dict_set_items in H' as [[-> ->]|H']; [|auto].
    left. rewrite String.eqb_refl. auto.
Qed.

(** Every item of the index leads from a name of a listed template to that
    template. *)
Lemma index_items memes d k m :
  (k, m) ∈ fold_left index_meme memes d ->
  (m ∈ memes /\ owns k m = true) \/ (k, m) ∈ d.
Proof.
  revert d. induction memes as [|m0 memes IH]; intros d; simpl; [auto|].
  intros H. destruct (IH _ H) as [[Hin Ho]|H'].
  - left. split; [apply elem_of_cons; right; exact Hin | exact Ho].
  - apply index_meme_items in H' as [[Ho ->]|H']; [|auto].
    left. split; [apply elem_of_cons; left; reflexivity | exact Ho].
Qed.

(** The catalog after the first [get_instance], when the load succeeded. *)
Lemma get_instance_first h :
  is_initialized (get_instance h MemeManager_class) = true ->
  exists memes,
    get_memes h = Returns memes /\
    _memes (get_instance h MemeManager_class) = fold_left index_meme memes [] /\
    _meme_list (get_instance h MemeManager_class) = memes.
Proof.
  unfold get_instance. simpl. intros Hinit.
  destruct (load_memes_first h Hinit) as (memes & Hget & Hidx & Hlist). eauto.
Qed.

(** X13. [find_meme] invents nothing: on a freshly loaded catalog every
    template it returns is one of the list [get_all_memes] gives, and it
    has a name, its key or one of its keywords in lower case, that the
    lowered query equals or is contained in. *)
Theorem X13_find_meme_returns_a_matching_template h q m :
  let st := get_instance h MemeManager_class in
  find_meme st q = Some m ->
  m ∈ get_all_memes st /\
  exists k, owns k m = true /\ (k = lower q \/ str_in (lower q) k = true).
Proof.
  intros st Hfound.
  assert (Hinit : is_initialized st = true).
  { unfold find_meme in Hfound. destruct (is_initialized st); [reflexivity | discriminate]. }
  destruct (get_instance_first h Hinit) as (memes & _ & Hidx & Hlist).
  destruct (find_meme_item st q m Hfound) as (k & Hin & Hk).
  fold st in Hidx, Hlist. clearbody st. rewrite Hidx in Hin.
  apply index_items in Hin as [[Hm Ho]|Hin]; [|apply elem_of_nil in Hin; contradiction].
  unfold get_all_memes. rewrite Hinit, Hlist. split; [exact Hm|]. exists k. auto.
Qed.

Lemma X13_find_meme_returns_a_matching_template_witness :
  doge ∈ get_all_memes (get_instance (host_listing [doge; cat_meme]) MemeManager_class) /\
  exists k, owns k doge = true /\ (k = lower "DO" \/ str_in (lower "DO") k = true).
Proof.
  apply (X13_find_meme_returns_a_matching_template (host_listing [doge; cat_meme]) "DO" doge).
  reflexivity.
Defined.

(** X14. Last writer wins. On a freshly loaded catalog, a query whose
    lowered form is a name of some template (its key, or a keyword in
    lower case) gets the last template of the list with that name, in
    whatever casing the query is written; a query that is no name of any
    template gets what the containment scan finds. *)
Theorem X14_exact_match_is_the_last_owner h q :
  let st := get_instance h MemeManager_class in
  is_initialized st = true ->
  find_meme st q =
    match find (owns (lower q)) (rev (get_all_memes st)) with
    | Some m => Some m
    | None => scan (lower q) (_memes st)
    end.
Proof.
  intros st Hinit.
  destruct (get_instance_first h Hinit) as (memes & _ & Hidx & Hlist).
  fold st in Hidx, Hlist. clearbody st.
  unfold find_meme, get_all_memes. rewrite Hinit, Hlist, Hidx. simpl.
  rewrite index_get. simpl.
  destruct (find (owns (lower q)) (rev memes)); reflexivity.
Qed.

(** Two templates with the keyword ["Dog"]: the second wins. *)
Lemma X14_exact_match_is_the_last_owner_witness :
  find_meme (get_instance (host_listing [doge; mkMeme "hound" ["Dog"] []]) MemeManager_class)
    "DOG" = Some (mkMeme "hound" ["Dog"] []).
Proof.
  rewrite (X14_exact_match_is_the_last_owner
             (host_listing [doge; mkMeme "hound" ["Dog"] []]) "DOG"); reflexivity.
Defined.

(** X15. After a successful load [get_all_memes] is the list of
    [get_memes], in its order, and [get_random_meme] returns a template
    of that list whenever the list is not empty, whatever number is
    drawn. *)
Theorem X15_random_meme_is_listed h randbelow :
  let st := get_instance h MemeManager_class in
  is_initialized st = true ->
  get_memes h = Returns (get_all_memes st) /\
  (get_all_memes st <> [] ->
   exists m, get_random_meme randbelow st = Some m /\ m ∈ get_all_memes st).
Proof.
  intros st Hinit.
  destruct (get_instance_first h Hinit) as (memes & Hget & _ & Hlist).
  fold st in Hlist. clearbody st.
  unfold get_all_memes, get_random_meme. rewrite Hinit, Hlist. simpl.
  split; [exact Hget|]. intros Hne.
  destruct memes as [|m0 memes]; [congruence|].
  set (l := m0 :: memes) in *.
  assert (Hlt : randbelow (length l) mod length l < length l).
  { apply Nat.mod_upper_bound. subst l. simpl. lia. }
  destruct (lookup_lt_is_Some_2 l _ Hlt) as [m Hm].
  exists m. split; [exact Hm|]. eapply list_elem_of_lookup_2, Hm.
Qed.

Lemma X15_random_meme_is_listed_witness :
  exists m,
    get_random_meme (fun _ => 7)
      (get_instance (host_listing [doge; cat_meme]) MemeManager_class) = Some m /\
    m ∈ get_all_memes (get_instance (host_listing [doge; cat_meme]) MemeManager_class).
Proof.
  destruct (X15_random_meme_is_listed (host_listing [doge; cat_meme]) (fun _ => 7) eq_refl)
    as (_ & Hrandom).
  apply Hrandom. discriminate.
Defined.
(** ** The menu *)










(** ** The words of a parameter string *)

Lemma split_from_lstrip l : split_from "" (lstrip_chars l) = split_from "" l.
Proof.
  induction l as [|ch l IH]; [reflexivity|]. simpl.
  destruct (isspace ch) eqn:E; [exact IH|]. simpl. rewrite E. reflexivity.
Qed.

(** White space ends the word under way and starts none. *)
Lemma split_from_spaces word gap l :
  Forall (fun ch => isspace ch = true) gap ->
  split_from word (gap ++ l) =
    match gap, word with
    | [], _ => split_from word l
    | _, EmptyString => split_from "" l
    | _, _ => word :: split_from "" l
    end.
Proof.
  intros Hgap. revert word. induction Hgap as [|ch gap Hch Hgap IH]; intros word;
    [reflexivity|].
  rewrite <- app_comm_cons. cbn [split_from]. rewrite Hch, (IH "").
  destruct gap, word; reflexivity.
Qed.

(** Characters that are not white space go to the word under way. *)
Lemma split_from_word word wc l :
  Forall (fun ch => isspace ch = false) wc ->
  split_from word (wc ++ l) = split_from (word +:+ String.concat "" wc) l.
Proof.
  intros Hwc. revert word. induction Hwc as [|ch wc Hch Hwc IH]; intros word.
  - simpl. rewrite string_app_nil. reflexivity.
  - rewrite <- app_comm_cons. cbn [split_from]. rewrite Hch, IH.
    rewrite concat_empty_cons, string_app_assoc. reflexivity.
Qed.

Lemma split_from_trailing word l q :
  Forall (fun ch => isspace ch = true) q -> split_from word (l ++ q) = split_from word l.
Proof.
  intros Hq. revert word. induction l as [|ch l IH]; intros word.
  - rewrite <- (app_nil_r ([] ++ q)). simpl. rewrite (split_from_spaces word q [] Hq).
    destruct q, word; reflexivity.
  - rewrite <- app_comm_cons. cbn [split_from]. rewrite !IH. reflexivity.
Qed.

(** [strip] before [split] changes nothing. *)
Lemma split_strip s : split (strip s) = split s.
Proof.
  unfold split. rewrite chars_strip.
  destruct (rstrip_chars_spec (lstrip_chars (chars s))) as (q & E & Hq).
  rewrite <- (split_from_lstrip (chars s)).
  transitivity (split_from "" (rstrip_chars (lstrip_chars (chars s)) ++ q)).
  - symmetry. apply split_from_trailing, Hq.
  - rewrite <- E. reflexivity.
Qed.

(** The texts [MemeGenerateCommand.execute] makes of its parameters. *)
Lemma generate_command_texts matched_params :
  (if str_truthy (strip (default "" matched_params))
   then split (strip (default "" matched_params)) else [])
  = split (default "" matched_params).
Proof.
  rewrite <- (split_strip (default "" matched_params)).
  destruct (strip (default "" matched_params)); reflexivity.
Qed.

(** ** [MemeGenerateCommand] *)

(** X17. [MemeGenerateCommand.execute] sends exactly one message in every
    case and always asks for interception; the message is an image
    exactly when the command succeeds, and then it is the base64 of what
    the template found for the stripped key rendered, without images,
    from the words of the parameter text. *)
Theorem X17_generate_command_sends_one_message h render st matched_key matched_params :
  let run := MemeGenerateCommand_execute h render st matched_key matched_params in
  let meme_key := strip (default "" matched_key) in
  run.2 = get_instance h st /\
  run.1.1.2 = true /\
  (exists m, run.1.2 = [m]) /\
  (run.1.1.1.1 = true <-> exists image, run.1.2 = [Image image]) /\
  (run.1.1.1.1 = true ->
   exists meme result,
     find_meme (get_instance h st) meme_key = Some meme /\
     render meme [] (split (default "" matched_params)) [] = Returns result /\
     run.1.2 = [Image (b64encode result)] /\
     run.1.1.1.2 = Some ("已生成" +:+ meme_key)).
Proof.
  intros run meme_key. subst run. unfold MemeGenerateCommand_execute. fold meme_key.
  set (mgr := get_instance h st).
  rewrite generate_command_texts.
  destruct (is_initialized mgr); simpl.
  2:{ repeat split; eauto; try discriminate. intros (? & [=]). }
  destruct (find_meme mgr meme_key) as [meme|]; simpl.
  2:{ repeat split; eauto; try discriminate. intros (? & [=]). }
  unfold generate. simpl.
  destruct (render meme [] (split (default "" matched_params)) []) as [result|e] eqn:Hr; simpl.
  - split; [reflexivity|]. split; [reflexivity|]. split; [eauto|].
    split; [split; eauto|]. intros _. exists meme, result. auto.
  - repeat split; eauto; try discriminate. intros (? & [=]).
Qed.

(** The command [/meme dog] on the catalog of scenario C, with two words
    that an ideographic space separates. *)
Lemma X17_generate_command_sends_one_message_witness :
  exists meme result,
    find_meme (get_instance (host_listing [doge; cat_meme]) MemeManager_class) (strip "dog")
      = Some meme /\
    render_one_byte meme [] ["hi"; "there"] [] = Returns result /\
    (MemeGenerateCommand_execute (host_listing [doge; cat_meme]) render_one_byte
       MemeManager_class (Some "dog") (Some (" hi" +:+ chr 0x3000 +:+ "there "))).1.2
      = [Image (b64encode result)] /\
    (MemeGenerateCommand_execute (host_listing [doge; cat_meme]) render_one_byte
       MemeManager_class (Some "dog") (Some (" hi" +:+ chr 0x3000 +:+ "there "))).1.1.1.2
      = Some ("已生成" +:+ strip "dog").
Proof.
  destruct (X17_generate_command_sends_one_message (host_listing [doge; cat_meme])
              render_one_byte MemeManager_class (Some "dog")
              (Some (" hi" +:+ chr 0x3000 +:+ "there ")))
    as (_ & _ & _ & _ & Hsuccess).
  apply Hsuccess. reflexivity.
Defined.

(** A character with a code point starts with its own first byte. *)
Lemma code_point_starts ch cp : code_point ch = Some cp -> continues ch = false.
Proof.
  assert (Hlead : forall lo hi c,
            (192 <= lo)%N ->
            ((lo <=? Ascii.N_of_ascii c) && (Ascii.N_of_ascii c <? hi))%N = true ->
            is_continuation c = false).
  { intros lo hi c Hlo H. apply andb_prop in H as [H1 _]. apply N.leb_le in H1.
    unfold is_continuation. apply andb_false_intro2, N.ltb_ge. lia. }
  unfold code_point.
  destruct ch as [|c0 [|c1 [|c2 [|c3 [|c4 ch]]]]]; try discriminate.
  - unfold utf8_len. destruct (N.ltb_spec (Ascii.N_of_ascii c0) 0x80) as [H|H].
    + intros _. simpl. unfold is_continuation. apply andb_false_intro1, N.leb_gt. exact H.
    + destruct (_ <? 0x800)%N; [discriminate|].
      destruct (_ <? 0x10000)%N; [discriminate|].
      destruct (_ <? 0x110000)%N; discriminate.
  - destruct (_ && is_continuation c1) eqn:E; [|discriminate]. intros _.
    apply andb_prop in E as [E _]. simpl. apply (Hlead 192%N 224%N); [lia | exact E].
  - destruct (_ && is_continuation c2) eqn:E; [|discriminate]. intros _.
    apply andb_prop in E as [E _]. apply andb_prop in E as [E _].
    simpl. apply (Hlead 224%N 240%N); [lia | exact E].
  - destruct (_ && is_continuation c3) eqn:E; [|discriminate]. intros _.
    apply andb_prop in E as [E _]. apply andb_prop in E as [E _].
    apply andb_prop in E as [E _].
    simpl. apply (Hlead 240%N 248%N); [lia | exact E].
Qed.

(** White space starts a character. *)
Lemma all_space_continues gap : all_space gap = true -> continues gap = false.
Proof.
  unfold all_space. intros H. pose proof (chars_head gap) as Hh.
  destruct (chars gap) as [|ch rest]; [subst; reflexivity|].
  rewrite <- Hh. simpl in H. apply andb_prop in H as [H _].
  unfold isspace in H. destruct (code_point ch) as [cp|] eqn:E; [|discriminate].
  exact (code_point_starts ch cp E).
Qed.


Lemma layout_continues pieces trail :
  Forall (fun p => all_space p.1 = true /\ is_word p.2) pieces ->
  all_space trail = true ->
  continues (layout pieces trail) = false.
Proof.
  intros Hp Ht. destruct Hp as [|[gap word] pieces [Hgap (Hne & Hw & _)] _]; simpl.
  - apply all_space_continues, Ht.
  - rewrite continues_app. destruct gap as [|c gap].
    + rewrite continues_app. destruct word; [contradiction | exact Hw].
    + apply all_space_continues, Hgap.
Qed.

(** The characters of a text laid out in words. *)
Lemma chars_layout pieces trail :
  Forall (fun p => all_space p.1 = true /\ is_word p.2) pieces ->
  all_space trail = true ->
  chars (layout pieces trail) =
    concat ((fun p => chars p.1 ++ chars p.2) <$> pieces) ++ chars trail.
Proof.
  intros Hp Ht. induction Hp as [|[gap word] pieces Hhd Hp IH]; [reflexivity|].
  pose proof (layout_continues pieces trail Hp Ht) as Hc.
  destruct Hhd as [Hgap (Hne & Hw & _)]. cbn [layout fmap list_fmap concat fst snd].
  rewrite chars_app.
  2:{ rewrite continues_app. destruct word; [contradiction | exact Hw]. }
  rewrite chars_app by exact Hc. rewrite IH, <- !app_assoc. reflexivity.
Qed.

Lemma all_space_chars s :
  all_space s = true -> Forall (fun ch => isspace ch = true) (chars s).
Proof.
  unfold all_space. induction (chars s) as [|ch l IH]; [constructor|]. simpl.
  intros H. apply andb_prop in H as [H1 H2]. constructor; [exact H1 | exact (IH H2)].
Qed.

(** After a word, the words that follow, each behind white space. *)
Lemma split_from_pieces word pieces trail :
  word <> "" ->
  Forall (fun p => all_space p.1 = true /\ is_word p.2) pieces ->
  Forall (fun p => p.1 <> "") pieces ->
  all_space trail = true ->
  split_from word (concat ((fun p => chars p.1 ++ chars p.2) <$> pieces) ++ chars trail)
    = word :: (snd <$> pieces).
Proof.
  intros Hword Hp. revert word Hword.
  induction Hp as [|[gap w] pieces [Hgap (Hne & _ & Hw)] Hp IH]; intros word Hword Hgaps Ht.
  - simpl. rewrite <- (app_nil_r (chars trail)).
    rewrite split_from_spaces by (apply all_space_chars, Ht).
    destruct (chars trail), word; try reflexivity; contradiction.
  - apply Forall_cons in Hgaps as [Hg Hgaps]. simpl in Hg.
    cbn [fmap list_fmap concat fst snd]. rewrite <- !app_assoc.
    rewrite split_from_spaces by (apply all_space_chars, Hgap).
    assert (Hcg : chars gap <> []).
    { intros E. apply Hg. rewrite <- (concat_chars gap), E. reflexivity. }
    rewrite (split_from_word "" (chars w)) by exact Hw.
    rewrite concat_chars. change ("" +:+ w) with w.
    rewrite (IH w Hne Hgaps Ht).
    destruct (chars gap), word; try reflexivity; contradiction.
Qed.

(** [split] gives back the words of a text laid out in words, whatever
    white space stands before, between and after them. *)
Lemma split_layout pieces trail :
  Forall (fun p => all_space p.1 = true /\ is_word p.2) pieces ->
  Forall (fun p => p.1 <> "") (tail pieces) ->
  all_space trail = true ->
  split (layout pieces trail) = snd <$> pieces.
Proof.
  intros Hp Hgaps Ht. unfold split. rewrite chars_layout by assumption.
  destruct Hp as [|[gap w] pieces [Hgap (Hne & _ & Hw)] Hp].
  - simpl. rewrite <- (app_nil_r (chars trail)).
    rewrite split_from_spaces by (apply all_space_chars, Ht).
    destruct (chars trail); reflexivity.
  - simpl in Hgaps. cbn [fmap list_fmap concat fst snd]. rewrite <- !app_assoc.
    rewrite split_from_spaces by (apply all_space_chars, Hgap).
    rewrite (split_from_word "" (chars w)) by exact Hw.
    rewrite concat_chars. change ("" +:+ w) with w.
    rewrite (split_from_pieces w pieces trail Hne Hp Hgaps Ht).
    destruct (chars gap); reflexivity.
Qed.

(** X18. The texts [MemeGenerateCommand.execute] hands to the template are
    the words of the parameter text, cut at its white space and nowhere
    else. For a parameter text made of words, with white space of any kind
    and length before each word (none is needed before the first) and
    after the last, the texts are these words in their order, and a
    command that succeeds has sent the image rendered from them. *)
Theorem X18_texts_are_the_words_of_the_parameters
    h render st matched_key (pieces : list (string * string)) trail :
  Forall (fun p => all_space p.1 = true /\ is_word p.2) pieces ->
  Forall (fun p => p.1 <> "") (tail pieces) ->
  all_space trail = true ->
  let run :=
    MemeGenerateCommand_execute h render st matched_key (Some (layout pieces trail)) in
  split (layout pieces trail) = snd <$> pieces /\
  (run.1.1.1.1 = true ->
   exists meme result,
     find_meme (get_instance h st) (strip (default "" matched_key)) = Some meme /\
     render meme [] (snd <$> pieces) [] = Returns result /\
     run.1.2 = [Image (b64encode result)]).
Proof.
  intros Hp Hgaps Ht run. pose proof (split_layout pieces trail Hp Hgaps Ht) as Hsplit.
  split; [exact Hsplit|].
  subst run. unfold MemeGenerateCommand_execute.
  rewrite generate_command_texts.
  change (default "" (Some (layout pieces trail))) with (layout pieces trail).
  rewrite Hsplit.
  destruct (is_initialized (get_instance h st)); simpl; [|discriminate].
  destruct (find_meme (get_instance h st) (strip (default "" matched_key))) as [meme|];
    simpl; [|discriminate].
  unfold generate. simpl.
  destruct (render meme [] (snd <$> pieces) []) as [result|e] eqn:Hr; simpl; [|discriminate].
  intros _. exists meme, result. auto.
Qed.

(** Three words: the first after a line feed, the second after an
    ideographic space, the third after a no-break space and a tab, with a
    space at the end. *)
Lemma X18_texts_are_the_words_of_the_parameters_witness :
  split (nl +:+ "hi" +:+ chr 0x3000 +:+ "there" +:+ chr 0xA0 +:+ chr 9 +:+ "you" +:+ " ")
    = ["hi"; "there"; "you"] /\
  exists meme result,
    find_meme (get_instance (host_listing [doge; cat_meme]) MemeManager_class) "dog"
      = Some meme /\
    render_one_byte meme [] ["hi"; "there"; "you"] [] = Returns result /\
    (MemeGenerateCommand_execute (host_listing [doge; cat_meme]) render_one_byte
       MemeManager_class (Some "dog")
       (Some (nl +:+ "hi" +:+ chr 0x3000 +:+ "there" +:+ chr 0xA0 +:+ chr 9 +:+ "you"
              +:+ " "))).1.2
      = [Image (b64encode result)].
Proof.
  pose proof (X18_texts_are_the_words_of_the_parameters
                (host_listing [doge; cat_meme]) render_one_byte MemeManager_class (Some "dog")
                [(nl, "hi"); (chr 0x3000, "there"); (chr 0xA0 +:+ chr 9, "you")] " ") as H.
  destruct H as [Hsplit Hrun].
  - repeat constructor; discriminate.
  - repeat constructor; discriminate.
  - reflexivity.
  - split; [exact Hsplit | apply Hrun; reflexivity].
Defined.
(** ** [AutoMemeAction] *)

(** X19. [AutoMemeAction.execute] sends something exactly when it
    succeeds, then one image and never a text. The image is the base64 of
    what the chosen template rendered, the template being the one
    [find_meme] gives for a non-empty key and a random one otherwise, and
    the message returned names the key of that template, not the query. A
    value of [texts] that is not a list is passed as the one text of its
    [str()] when it counts as true, and as no text otherwise. *)
Theorem X19_auto_meme_sends_on_success h render randbelow st meme_key texts :
  let run := AutoMemeAction_execute h render randbelow st meme_key texts in
  let chosen :=
    if str_truthy meme_key then find_meme (get_instance h st) meme_key
    else get_random_meme randbelow (get_instance h st) in
  let texts1 :=
    match texts with
    | TextsList l => l
    | TextsOther true str_ => [str_]
    | TextsOther false _ => []
    end in
  run.2 = get_instance h st /\
  (run.1.1.1 = false -> run.1.2 = []) /\
  (run.1.1.1 = true ->
   exists meme result,
     chosen = Some meme /\
     render meme [] texts1 [] = Returns result /\
     run.1.2 = [Image (b64encode result)] /\
     run.1.1.2 = "发送了表情包: " +:+ key meme).
Proof.
  intros run chosen texts1. subst run. unfold AutoMemeAction_execute.
  set (mgr := get_instance h st) in *.
  destruct (is_initialized mgr) eqn:Hinit; simpl.
  2:{ repeat split; discriminate. }
  fold chosen.
  assert (Htexts : match texts with
                   | TextsList l => l
                   | TextsOther truthy str_ => if truthy then [str_] else []
                   end = texts1).
  { subst texts1. destruct texts as [l|[] s]; reflexivity. }
  rewrite Htexts.
  destruct chosen as [meme|]; simpl.
  2:{ repeat split; discriminate. }
  unfold generate. simpl.
  destruct (render meme [] texts1 []) as [result|e] eqn:Hr; simpl.
  - split; [reflexivity|]. split; [discriminate|]. intros _. exists meme, result. auto.
  - repeat split; discriminate.
Qed.

(** No key given: a template is drawn and its key is reported. *)
Lemma X19_auto_meme_sends_on_success_witness :
  exists meme result,
    get_random_meme (fun _ => 1)
      (get_instance (host_listing [doge; cat_meme]) MemeManager_class) = Some meme /\
    render_one_byte meme [] ["42"] [] = Returns result /\
    (AutoMemeAction_execute (host_listing [doge; cat_meme]) render_one_byte (fun _ => 1)
       MemeManager_class "" (TextsOther true "42")).1.2 = [Image (b64encode result)] /\
    (AutoMemeAction_execute (host_listing [doge; cat_meme]) render_one_byte (fun _ => 1)
       MemeManager_class "" (TextsOther true "42")).1.1.2 = "发送了表情包: " +:+ key meme.
Proof.
  destruct (X19_auto_meme_sends_on_success (host_listing [doge; cat_meme]) render_one_byte
              (fun _ => 1) MemeManager_class "" (TextsOther true "42"))
    as (_ & _ & Hsuccess).
  apply Hsuccess. reflexivity.
Defined.

(** ** [AnalyzeAvatarAction] *)

Lemma analyze_and_store_returns w t uid plat force prompt :
  exists ok msg, result (analyze_and_store uid plat force prompt w t) = Returns (ok, msg).
Proof.
  destruct (analyze_and_store_shape uid plat force prompt w t)
    as [(d & _ & _ & _ & ->) | (_ & a & tr1 & _ & Hrest)]; [rewrite result_run; eauto|].
  destruct Hrest as [[_ ->] | (data & s & tr2 & _ & _ & _ & Hrest)];
    [rewrite result_run; eauto|].
  destruct Hrest as [[_ ->] | (_ & ok & t3 & tr3 & _ & ->)];
    rewrite result_run; [eauto | destruct ok; eauto].
Qed.

(** X20. [AnalyzeAvatarAction.execute] never raises. Without a user
    identifier, neither in [action_data] nor on the action, it returns
    [(False, "缺少用户ID")] and contacts nobody. Otherwise it runs
    [analyze_and_store] for the identifier of [action_data] when there is
    a non-empty one and for the one of the action otherwise, always with
    the default prompt; a success is reported with the first 50
    characters of the description, and every failure with the one
    message ["头像分析失败"], whatever its cause. *)
Theorem X20_analyze_avatar_action action_user_id self_user_id plat force w t :
  let run := AnalyzeAvatarAction_execute action_user_id self_user_id plat force w t in
  let user_id := if opt_truthy action_user_id then action_user_id else self_user_id in
  (opt_truthy user_id = false ->
   run = (Returns (false, "缺少用户ID"), t, [])) /\
  (forall uid,
     user_id = Some uid -> uid <> "" ->
     exists ok msg,
       result (analyze_and_store uid plat force None w t) = Returns (ok, msg) /\
       table_after run = table_after (analyze_and_store uid plat force None w t) /\
       trace run = trace (analyze_and_store uid plat force None w t) /\
       result run =
         Returns (if ok then (true, "头像分析完成: " +:+ str_take 50 msg +:+ "...")
                  else (false, "头像分析失败"))).
Proof.
  intros run user_id. subst run. unfold AnalyzeAvatarAction_execute, py_or.
  fold user_id. split.
  - intros Hnone. destruct user_id as [[|c s]|]; try discriminate; reflexivity.
  - intros uid -> Hne. destruct uid as [|c s]; [congruence|].
    destruct (analyze_and_store_returns w t (String c s) plat force None)
      as (ok & msg & Hres).
    exists ok, msg. split; [exact Hres|].
    unfold try_except, bind, ret.
    destruct (analyze_and_store (String c s) plat force None w t) as [[r t1] tr1].
    rewrite result_run in Hres. subst r.
    unfold result, table_after, trace.
    destruct ok; simpl; rewrite app_nil_r; auto.
Qed.

(** No identifier anywhere: nothing is done. *)
Lemma X20_analyze_avatar_action_witness :
  AnalyzeAvatarAction_execute (Some "") None "qq" false world_ok [] =
    (Returns (false, "缺少用户ID"), [], []).
Proof.
  destruct (X20_analyze_avatar_action (Some "") None "qq" false world_ok []) as (Hnone & _).
  apply Hnone. reflexivity.
Defined.
(** ** What the pipeline never records *)

Lemma find_elem {A} (p : A -> bool) l x : find p l = Some x -> x ∈ l.
Proof.
  induction l as [|y l IH]; simpl; [discriminate|].
  destruct (p y); [intros [= ->]; apply elem_of_cons; left; reflexivity|].
  intros H. apply elem_of_cons. right. apply IH, H.
Qed.

(** X21. The pipeline never records an avatar URL: [_store_description]
    passes none, so a row [analyze_and_store] adds has no URL and a row
    it rewrites keeps the one it had. On a table where no row has a URL,
    no row has one after the call. *)
Theorem X21_avatar_url_is_never_recorded w t uid plat force prompt :
  (forall r, r ∈ t -> avatar_url r = None) ->
  forall r, r ∈ table_after (analyze_and_store uid plat force prompt w t) ->
            avatar_url r = None.
Proof.
  intros Ht.
  destruct (analyze_and_store_shape uid plat force prompt w t)
    as [(d & _ & _ & _ & ->) | (_ & a & tr1 & _ & Hrest)]; [exact Ht|].
  destruct Hrest as [[_ ->] | (data & s & tr2 & _ & _ & _ & Hrest)]; [exact Ht|].
  destruct Hrest as [[_ ->] | (_ & ok & t3 & tr3 & Hstore & ->)]; [exact Ht|].
  rewrite table_after_run.
  destruct (store_description_cases uid plat s w t)
    as [(pid & b & t' & tr & _ & _ & Hset & Hrun) | (_ & tr & Hrun & _)];
    rewrite Hrun in Hstore; injection Hstore as <- <- <-; [|exact Ht].
  assert (Ht' : t' = table_after (set_avatar_description pid plat uid s None w t))
    by (rewrite Hset; reflexivity).
  destruct (set_avatar_description_cases pid plat uid s None w t)
    as [[_ Heq] | [(r0 & r' & Hfind & _ & _ & _ & _ & _ & _ & Htrue & _) | (_ & _ & Heq)]].
  - rewrite Ht', Heq. exact Ht.
  - rewrite Ht', (set_avatar_description_update pid plat uid s None w t r0 Hfind Htrue).
    intros r Hr. apply replace_row_elem in Hr as [->|Hr]; [|apply Ht, Hr].
    simpl. apply Ht. eapply find_elem, Hfind.
  - rewrite Ht', Heq. intros r Hr. apply elem_of_app in Hr as [Hr|Hr]; [apply Ht, Hr|].
    apply list_elem_of_singleton in Hr. subst r. reflexivity.
Qed.

(** The row of [u1] analysed again. *)
Lemma X21_avatar_url_is_never_recorded_witness :
  Forall (fun r => avatar_url r = None)
    (table_after (analyze_and_store "u1" "qq" true None world_ok [row_u1])).
Proof.
  apply Forall_forall.
  apply (X21_avatar_url_is_never_recorded world_ok [row_u1] "u1" "qq" true None).
  intros r Hr. apply list_elem_of_singleton in Hr. subst r. reflexivity.
Defined.
